(** * kabukaview: trading-day price reconciliation (src/app.js)

    A shallow embedding of the price engine of [src/app.js] and the
    properties of its reference-date rule, nearest-match lookup, change
    calculator, single-instrument resolver and batch orchestrator.

    Conventions of the embedding.
    - A JavaScript number that holds a timestamp, an index or a counter is
      a [Z].  A price is a [Q]: arithmetic on prices is exact, the IEEE
      rounding of intermediate results and the sign of zero are outside
      the model.
    - [null] and [undefined] are [None] where the source treats them
      alike; an array is a [list], read with stdpp's lookup, which is
      [None] out of range just as the source reads [undefined] there.
    - A JavaScript string is the list of its UTF-16 code units.
    - What the machine and the network contribute is a parameter of the
      definitions: the offset of the local clock from UTC at each
      instant, the messages of built-in errors, what the request of an
      instrument comes to, and the order in which the requests of a batch
      settle. *)

From Stdlib Require Import ZArith QArith Qround List Lia Permutation Sorted.
From Stdlib Require Import Ascii String Lqa.
From Stdlib Require DecimalPos.
From stdpp Require Import base option list gmap.

Local Open Scope Z_scope.

(** ** Numbers *)

(** [Math.round]: the closest integer, a tie going to the one closer to
    plus infinity. *)
Definition Math_round (x : Q) : Z := Qfloor (x + (1 # 2)).

(** Equality of two nullable numbers, up to the representation of a
    rational. *)
Definition num_eq (a b : option Q) : Prop :=
  match a, b with
  | Some x, Some y => (x == y)%Q
  | None, None => True
  | _, _ => False
  end.

(** ** Change calculator *)

(** [calcChangeRate(currentPrice, pastPrice)], app.js 211-214. *)
Definition calcChangeRate (currentPrice pastPrice : option Q) : option Q :=
  match currentPrice, pastPrice with
  | None, _ => None
  | _, None => None
  | Some c, Some p =>
      if Qeq_bool p 0 then None
      else Some (inject_Z (Math_round ((c - p) / p * 10000)) / 100)%Q
  end.

(** The rounding the specification names: a tie goes away from zero. *)
Definition round_half_away_from_zero (x : Q) : Z :=
  if Qle_bool 0 x then Qfloor (x + (1 # 2)) else Qceiling (x - (1 # 2)).

(** The change rate as the specification words it. *)
Definition changeRate_spec (current past : option Q) : option Q :=
  match current, past with
  | Some c, Some p =>
      if Qeq_bool p 0 then None
      else Some (inject_Z (round_half_away_from_zero ((c - p) / p * 10000)) / 100)%Q
  | _, _ => None
  end.

(** ** Nearest-match lookup *)

(** [bestDiff] starts at [Infinity]. *)
Inductive Diff := Infinity | Finite (d : Z).

Definition lt_Diff (d : Z) (b : Diff) : bool :=
  match b with
  | Infinity => true
  | Finite b => d <? b
  end.

Record Best := mkBest { bestIdx : Z; bestDiff : Diff }.

(** [closes[i]], with [null] and [undefined] (also: [i] out of range)
    identified. *)
Definition closeAt (closes : list (option Q)) (i : nat) : option Q :=
  mjoin (closes !! i).

(** First loop of [findClosestPrice], app.js 184-191, entered at index [i]
    with [rest] the timestamps from [i] on. *)
Fixpoint scanBefore (closes : list (option Q)) (targetTs : Z)
    (i : nat) (rest : list Z) (st : Best) : Best :=
  match rest with
  | [] => st
  | t :: rest' =>
      scanBefore closes targetTs (S i) rest'
        match closeAt closes i with
        | None => st
        | Some _ =>
            let diff := targetTs - t in
            if (0 <=? diff) && lt_Diff diff (bestDiff st)
            then mkBest (Z.of_nat i) (Finite diff)
            else st
        end
  end.

(** Second loop, app.js 195-202. *)
Fixpoint scanNearest (closes : list (option Q)) (targetTs : Z)
    (i : nat) (rest : list Z) (st : Best) : Best :=
  match rest with
  | [] => st
  | t :: rest' =>
      scanNearest closes targetTs (S i) rest'
        match closeAt closes i with
        | None => st
        | Some _ =>
            let diff := Z.abs (targetTs - t) in
            if lt_Diff diff (bestDiff st)
            then mkBest (Z.of_nat i) (Finite diff)
            else st
        end
  end.

(** [findClosestPrice(timestamps, closes, targetTs)], app.js 179-206. *)
Definition findClosestPrice (timestamps : list Z) (closes : list (option Q))
    (targetTs : Z) : option Q :=
  let st := scanBefore closes targetTs 0 timestamps (mkBest (-1) Infinity) in
  let st :=
    if bestIdx st =? -1
    then scanNearest closes targetTs 0 timestamps st
    else st in
  if 0 <=? bestIdx st then closeAt closes (Z.to_nat (bestIdx st)) else None.

(** ** Strings *)

(** A string is the list of its UTF-16 code units. *)
Abbreviation JSString := (list N).

(** The code units of an ASCII literal. *)
Fixpoint lit (s : String.string) : JSString :=
  match s with
  | String.EmptyString => []
  | String.String c s' => Ascii.N_of_ascii c :: lit s'
  end.

Fixpoint digits (u : Decimal.uint) : JSString :=
  match u with
  | Decimal.Nil => []
  | Decimal.D0 u => 48%N :: digits u
  | Decimal.D1 u => 49%N :: digits u
  | Decimal.D2 u => 50%N :: digits u
  | Decimal.D3 u => 51%N :: digits u
  | Decimal.D4 u => 52%N :: digits u
  | Decimal.D5 u => 53%N :: digits u
  | Decimal.D6 u => 54%N :: digits u
  | Decimal.D7 u => 55%N :: digits u
  | Decimal.D8 u => 56%N :: digits u
  | Decimal.D9 u => 57%N :: digits u
  end.

(** [String(n)] of an integer [n] (below the 21 digits at which the
    language turns to exponent notation). *)
Definition String_of_Z (n : Z) : JSString :=
  match Z.to_int n with
  | Decimal.Pos u => digits u
  | Decimal.Neg u => 45%N :: digits u
  end.

(** [s.padStart(2, '0')]. *)
Definition padStart2 (s : JSString) : JSString :=
  repeat 48%N (2 - length s)%nat ++ s.

(** White space and line terminators, the code units [trim] strips. *)
Definition isWhiteSpace (c : N) : bool :=
  ((9 <=? c) && (c <=? 13) || (c =? 32) || (c =? 160) || (c =? 5760)
   || (8192 <=? c) && (c <=? 8202) || (c =? 8232) || (c =? 8233)
   || (c =? 8239) || (c =? 8287) || (c =? 12288) || (c =? 65279))%N.

Fixpoint trimStart (s : JSString) : JSString :=
  match s with
  | [] => []
  | c :: s' => if isWhiteSpace c then trimStart s' else s
  end.

Definition trimEnd (s : JSString) : JSString := rev (trimStart (rev s)).

(** [s.trim()]. *)
Definition trim (s : JSString) : JSString := trimEnd (trimStart s).

(** [s.substring(0, n)]. *)
Definition substring0 (n : nat) (s : JSString) : JSString := take n s.

(** The class [[A-Za-z0-9]]. *)
Definition isAlnum (c : N) : bool :=
  ((65 <=? c) && (c <=? 90) || (97 <=? c) && (c <=? 122)
   || (48 <=? c) && (c <=? 57))%N.

(** [/^[A-Za-z0-9]+$/.test(s)]. *)
Definition test_alnum (s : JSString) : bool :=
  match s with
  | [] => false
  | _ => forallb isAlnum s
  end.

(** Truthiness of a value that is [null] or a string. *)
Definition truthy (v : option JSString) : bool :=
  match v with
  | None => false
  | Some [] => false
  | Some (_ :: _) => true
  end.

(** ** Dates *)

(** The civil date of a day number counted from 1970-01-01: year, month
    (1 to 12) and day of the month, in the proleptic Gregorian calendar
    the language prescribes. *)
Definition civil_from_days (day : Z) : Z * Z * Z :=
  let z := day + 719468 in
  let era := z / 146097 in
  let doe := z - era * 146097 in
  let yoe := (doe - doe / 1460 + doe / 36524 - doe / 146096) / 365 in
  let doy := doe - (365 * yoe + yoe / 4 - yoe / 100) in
  let mp := (5 * doy + 2) / 153 in
  let d := doy - (153 * mp + 2) / 5 + 1 in
  let m := if mp <? 10 then mp + 3 else mp - 9 in
  (yoe + era * 400 + (if m <=? 2 then 1 else 0), m, d).

Definition msPerDay : Z := 86400000.
Definition YearFromTime (t : Z) : Z := (civil_from_days (t / msPerDay)).1.1.
Definition MonthFromTime (t : Z) : Z := (civil_from_days (t / msPerDay)).1.2 - 1.
Definition DateFromTime (t : Z) : Z := (civil_from_days (t / msPerDay)).2.
Definition HourFromTime (t : Z) : Z := (t / 3600000) mod 24.
Definition MinFromTime (t : Z) : Z := (t / 60000) mod 60.

(** What the engine takes from the machine it runs on.  A [Date] is its
    time value, the milliseconds since the epoch. *)
Record Host := mkHost {
  (** [new Date(t).getTimezoneOffset()]: minutes from local time to UTC
      in force at the instant [t]. *)
  getTimezoneOffset : Z -> Z;
  (** [Math.floor(parseDateValue(s).getTime() / 1000)], app.js 258-259:
      local midnight of the date [s], in seconds (a number for the dates
      [getTargetDate] writes). *)
  targetTimestamp : JSString -> Z;
  (** The message of the [TypeError] raised by reading a property of
      [null] or [undefined]. *)
  typeErrorMessage : JSString;
  (** The message of the [URIError] raised by [encodeURIComponent]. *)
  uriErrorMessage : JSString
}.

Definition LocalTime (host : Host) (t : Z) : Z :=
  t - getTimezoneOffset host t * 60000.

Definition getFullYear (host : Host) (t : Z) : Z := YearFromTime (LocalTime host t).
Definition getMonth (host : Host) (t : Z) : Z := MonthFromTime (LocalTime host t).
Definition getDate (host : Host) (t : Z) : Z := DateFromTime (LocalTime host t).
Definition getHours (host : Host) (t : Z) : Z := HourFromTime (LocalTime host t).
Definition getMinutes (host : Host) (t : Z) : Z := MinFromTime (LocalTime host t).

(** [getTargetDate()], app.js 141-162, at the instant [now]. *)
Definition getTargetDate (host : Host) (now : Z) : JSString :=
  let jstOffset := 9 * 60 in
  let utcMs := now + getTimezoneOffset host now * 60 * 1000 in
  let jstDate := utcMs + jstOffset * 60 * 1000 in
  let hour := getHours host jstDate in
  let minute := getMinutes host jstDate in
  let currentMinutes := hour * 60 + minute in
  let targetDate :=
    if (540 <=? currentMinutes) && (currentMinutes <? 900)
    then jstDate - 24 * 60 * 60 * 1000
    else jstDate in
  let y := getFullYear host targetDate in
  let m := padStart2 (String_of_Z (getMonth host targetDate + 1)) in
  let d := padStart2 (String_of_Z (getDate host targetDate)) in
  String_of_Z y ++ m ++ d.

(** The rule of the specification: the instant read on a UTC+9 clock,
    as a day number and the minute of that day. *)
Definition jstDay (now : Z) : Z := (now + 9 * 3600000) / msPerDay.
Definition jstMinuteOfDay (now : Z) : Z := ((now + 9 * 3600000) mod msPerDay) / 60000.

Definition yyyymmdd (day : Z) : JSString :=
  let '(y, m, d) := civil_from_days day in
  String_of_Z y ++ padStart2 (String_of_Z m) ++ padStart2 (String_of_Z d).

Definition referenceDate_spec (now : Z) : JSString :=
  if (540 <=? jstMinuteOfDay now) && (jstMinuteOfDay now <? 900)
  then yyyymmdd (jstDay now - 1)
  else yyyymmdd (jstDay now).

(** ** Single-instrument resolver *)

Module PriceResult.
Record t := mk {
  price : option Q;
  actualDate : option JSString;
  change1d : option Q;
  change7d : option Q;
  change14d : option Q;
  change30d : option Q;
  change180d : option Q;
  error : option JSString
}.
End PriceResult.

Definition nullResult : PriceResult.t :=
  PriceResult.mk None None None None None None None None.

(** [{ ...r, error: message }]. *)
Definition withError (r : PriceResult.t) (message : JSString) : PriceResult.t :=
  PriceResult.mk (PriceResult.price r) (PriceResult.actualDate r)
    (PriceResult.change1d r) (PriceResult.change7d r) (PriceResult.change14d r)
    (PriceResult.change30d r) (PriceResult.change180d r) (Some message).

(** The error messages of app.js 255, 273, 279, 287 and 300. *)
Definition msg_invalidTicker : JSString :=
  [0x7121; 0x52b9; 0x306a; 0x30c6; 0x30a3; 0x30c3; 0x30ab; 0x30fc]%N.
Definition msg_http (status : Z) : JSString := lit "HTTP " ++ String_of_Z status.
Definition msg_noData : JSString := [0x30c7; 0x30fc; 0x30bf; 0x306a; 0x3057]%N.
Definition msg_noChartData : JSString :=
  [0x30c1; 0x30e3; 0x30fc; 0x30c8; 0x30c7; 0x30fc; 0x30bf; 0x306a; 0x3057]%N.
Definition msg_noValidClose : JSString :=
  [0x6709; 0x52b9; 0x306a; 0x7d42; 0x5024; 0x306a; 0x3057]%N.

(** One element of [data.chart.result]: [timestamp] is the array
    [result.timestamp], [close] the array
    [result.indicators?.quote?.[0]?.close]; [None] where the path yields
    nothing. *)
Record ChartResult := mkChartResult {
  timestamp : option (list Z);
  close : option (list (option Q))
}.

(** The parsed body of a response, by the paths the resolver reads. *)
Inductive Payload :=
| DataNull                                     (* the body is [null] *)
| DataNoChart                                  (* [data.chart] is falsy *)
| DataNoResult                                 (* [data.chart.result] is falsy *)
| DataResult (result : list (option ChartResult)). (* an array; [None]: a [null] element *)

Inductive Body :=
| JsonRejected (message : JSString)            (* [response.json()] rejects *)
| JsonParsed (data : Payload).

(** What the request of one instrument comes to. *)
Inductive FetchOutcome :=
| FetchRejected (message : JSString)           (* [fetch] rejects *)
| FetchResponse (ok : bool) (status : Z) (body : Body).

(** A computation inside [try]: it completes normally or throws an error
    with a message. *)
Inductive Completion (A : Type) :=
| Normal (a : A)
| Throw (message : JSString).
Arguments Normal {A} a.
Arguments Throw {A} message.

Definition bindC {A B : Type} (c : Completion A) (k : A -> Completion B)
    : Completion B :=
  match c with
  | Normal a => k a
  | Throw m => Throw m
  end.

#[global] Instance Completion_bind : MBind Completion :=
  fun A B k c => bindC c k.

(** [a[i].f]: reading a field of an element that is not there throws. *)
Definition element {A : Type} (host : Host) (a : list A) (i : Z) : Completion A :=
  match (if 0 <=? i then a !! Z.to_nat i else None) with
  | Some x => Normal x
  | None => Throw (typeErrorMessage host)
  end.

Module TradingDay.
Record t := mk { ts : Z; close : Q }.
End TradingDay.

(** The loop of app.js 292-296, entered at index [i]. *)
Fixpoint collectTradingDays (closes : list (option Q)) (i : nat) (rest : list Z)
    : list TradingDay.t :=
  match rest with
  | [] => []
  | t :: rest' =>
      match closeAt closes i with
      | Some c => TradingDay.mk t c :: collectTradingDays closes (S i) rest'
      | None => collectTradingDays closes (S i) rest'
      end
  end.

(** [tradingDays.sort((a, b) => a.ts - b.ts)], app.js 297.  The sort of
    the language is stable; so is this insertion sort, and all stable
    sorts produce the same array. *)
Fixpoint insertByTs (x : TradingDay.t) (l : list TradingDay.t) : list TradingDay.t :=
  match l with
  | [] => [x]
  | y :: l' =>
      if TradingDay.ts x <=? TradingDay.ts y then x :: l
      else y :: insertByTs x l'
  end.

Fixpoint sortByTs (l : list TradingDay.t) : list TradingDay.t :=
  match l with
  | [] => []
  | x :: l' => insertByTs x (sortByTs l')
  end.

(** The trading-day series, app.js 290-297. *)
Definition buildTradingDays (timestamps : list Z) (closes : list (option Q))
    : list TradingDay.t :=
  sortByTs (collectTradingDays closes 0 timestamps).

(** The loop of app.js 304-310 over the indices [n - 1] down to [0]. *)
Fixpoint scanAnchor (tradingDays : list TradingDay.t) (targetTs : Z) (n : nat) : Z :=
  match n with
  | O => -1
  | S i =>
      match tradingDays !! i with
      | Some day =>
          if TradingDay.ts day <=? targetTs then Z.of_nat i
          else scanAnchor tradingDays targetTs i
      | None => scanAnchor tradingDays targetTs i (* not reached: i < length *)
      end
  end.

(** [currentIdx], app.js 304-312. *)
Definition anchorIndex (tradingDays : list TradingDay.t) (targetTs : Z) : Z :=
  let currentIdx := scanAnchor tradingDays targetTs (length tradingDays) in
  if currentIdx =? -1 then 0 else currentIdx.

(** [formattedDate], app.js 317-318. *)
Definition formatActualDate (host : Host) (actualTs : Z) : JSString :=
  let actualDate := actualTs * 1000 in
  String_of_Z (getFullYear host actualDate) ++ lit "/"
  ++ padStart2 (String_of_Z (getMonth host actualDate + 1)) ++ lit "/"
  ++ padStart2 (String_of_Z (getDate host actualDate)).

(** The metrics of a non-empty series, app.js 303-345. *)
Definition resolveSeries (host : Host) (timestamps : list Z)
    (closes : list (option Q)) (tradingDays : list TradingDay.t) (targetTs : Z)
    : Completion PriceResult.t :=
  let currentIdx := anchorIndex tradingDays targetTs in
  current ← element host tradingDays currentIdx;
  let currentPrice := TradingDay.close current in
  let actualTs := TradingDay.ts current in
  let formattedDate := formatActualDate host actualTs in
  price1d ←
    (if 1 <=? currentIdx
     then previous ← element host tradingDays (currentIdx - 1);
          Normal (Some (TradingDay.close previous))
     else Normal None);
  let price7d := findClosestPrice timestamps closes (actualTs - 7 * 86400) in
  let price14d := findClosestPrice timestamps closes (actualTs - 14 * 86400) in
  let price30d := findClosestPrice timestamps closes (actualTs - 30 * 86400) in
  let price180d := findClosestPrice timestamps closes (actualTs - 180 * 86400) in
  let change1d := calcChangeRate (Some currentPrice) price1d in
  let change7d := calcChangeRate (Some currentPrice) price7d in
  let change14d := calcChangeRate (Some currentPrice) price14d in
  let change30d := calcChangeRate (Some currentPrice) price30d in
  let change180d := calcChangeRate (Some currentPrice) price180d in
  Normal (PriceResult.mk
            (Some (inject_Z (Math_round (currentPrice * 10)) / 10)%Q)
            (Some formattedDate)
            change1d change7d change14d change30d change180d None).

(** A string [encodeURIComponent] accepts: no surrogate code unit without
    its partner. *)
Definition isHighSurrogate (c : N) : bool := ((0xD800 <=? c) && (c <=? 0xDBFF))%N.
Definition isLowSurrogate (c : N) : bool := ((0xDC00 <=? c) && (c <=? 0xDFFF))%N.

Fixpoint wellFormedUTF16 (s : JSString) : bool :=
  match s with
  | [] => true
  | c :: s' =>
      if isHighSurrogate c then
        match s' with
        | d :: s'' => isLowSurrogate d && wellFormedUTF16 s''
        | [] => false
        end
      else if isLowSurrogate c then false
      else wellFormedUTF16 s'
  end.

(** [encodeURIComponent(s)], as far as the resolver is concerned: it
    throws on a string that is not well formed.  The text it returns goes
    into the request, which the model knows by its outcome. *)
Definition encodeURIComponent (host : Host) (s : JSString) : Completion unit :=
  if wellFormedUTF16 s then Normal tt else Throw (uriErrorMessage host).

(** The [try] block of [fetchClosingPrice] from the request on, app.js
    268-345. *)
Definition tryFetch (host : Host) (targetDateStr : JSString) (net : FetchOutcome)
    : Completion PriceResult.t :=
  let targetTs := targetTimestamp host targetDateStr in
  match net with
  | FetchRejected message => Throw message
  | FetchResponse ok status body =>
      if negb ok then Normal (withError nullResult (msg_http status))
      else
        data ← match body with
               | JsonRejected message => Throw message
               | JsonParsed data => Normal data
               end;
        match data with
        | DataNull => Throw (typeErrorMessage host)
        | DataNoChart | DataNoResult | DataResult [] =>
            Normal (withError nullResult msg_noData)
        | DataResult (None :: _) => Throw (typeErrorMessage host)
        | DataResult (Some result :: _) =>
            let timestamps := default [] (timestamp result) in
            let closes := default [] (close result) in
            if (length timestamps =? 0)%nat || (length closes =? 0)%nat
            then Normal (withError nullResult msg_noChartData)
            else
              let tradingDays := buildTradingDays timestamps closes in
              if (length tradingDays =? 0)%nat
              then Normal (withError nullResult msg_noValidClose)
              else resolveSeries host timestamps closes tradingDays targetTs
        end
  end.

(** The [try] block of [fetchClosingPrice], app.js 258-345, for a ticker
    that is a string. *)
Definition tryBlock (host : Host) (ticker : JSString) (targetDateStr : JSString)
    (net : FetchOutcome) : Completion PriceResult.t :=
  _ ← encodeURIComponent host ticker;
  tryFetch host targetDateStr net.

(** [fetchClosingPrice(ticker, targetDateStr)], app.js 243-349, where the
    request made for the instrument comes to [net]. *)
Definition fetchClosingPrice (host : Host) (ticker : option JSString)
    (targetDateStr : JSString) (net : FetchOutcome) : PriceResult.t :=
  if negb (truthy ticker) then withError nullResult msg_invalidTicker
  else
    match tryBlock host (default [] ticker) targetDateStr net with
    | Normal result => result
    | Throw message => withError nullResult message
    end.

(** ** Instruments *)

Module Stock.
Record t := mk { ticker : option JSString; rawCode : JSString; name : JSString }.
End Stock.

(** A spreadsheet cell is any value of the language; the code reads it
    through [String(cell)] and through its truthiness only. *)
Record Cell := mkCell { cellString : JSString; cellTruthy : bool }.

Definition undefinedCell : Cell := mkCell (lit "undefined") false.

(** [row[i]]. *)
Definition cellAt (row : list Cell) (i : nat) : Cell :=
  default undefinedCell (row !! i).

Definition COL_CODE : nat := 1.
Definition COL_NAME : nat := 2.

(** [toTicker(rawCode)], app.js 100-111, of a string. *)
Definition toTicker (rawCode : JSString) : option JSString :=
  let code := trim rawCode in
  if (length code <? 4)%nat then None
  else
    let ticker := substring0 4 code in
    if negb (test_alnum ticker) then None
    else Some (ticker ++ lit ".T").

(** A [Map] keeps its entries in the order of insertion. *)
Definition seen_has (seen : list (JSString * Stock.t)) (key : JSString) : bool :=
  existsb (fun entry => bool_decide (entry.1 = key)) seen.

Fixpoint seen_set (seen : list (JSString * Stock.t)) (key : JSString)
    (value : Stock.t) : list (JSString * Stock.t) :=
  match seen with
  | [] => [(key, value)]
  | entry :: seen' =>
      if bool_decide (entry.1 = key) then (key, value) :: seen'
      else entry :: seen_set seen' key value
  end.

(** One turn of the loop of [getUniqueStocks], app.js 119-130. *)
Definition visitRow (seen : list (JSString * Stock.t)) (row : list Cell)
    : list (JSString * Stock.t) :=
  if (length row <=? COL_CODE)%nat then seen
  else
    let rawCode := trim (cellString (cellAt row COL_CODE)) in
    if negb (truthy (Some rawCode)) || seen_has seen rawCode then seen
    else
      let ticker := toTicker rawCode in
      if negb (truthy ticker) then seen
      else
        let nameCell := cellAt row COL_NAME in
        let name :=
          trim (if cellTruthy nameCell then cellString nameCell else []) in
        seen_set seen rawCode (Stock.mk ticker rawCode name).

(** [getUniqueStocks(rows)], app.js 116-133. *)
Definition getUniqueStocks (rows : list (list Cell)) : list Stock.t :=
  (foldl visitRow [] rows).*2.

(** The code of a row, where the row has one. *)
Definition rowCode (row : list Cell) : option JSString :=
  if (length row <=? COL_CODE)%nat then None
  else Some (trim (cellString (cellAt row COL_CODE))).

(** ** Batch orchestrator *)

Definition BATCH_SIZE : Z := 5.
Definition BATCH_DELAY_MS : Z := 1500.

Module ErrorEntry.
Record t := mk {
  code : JSString;
  name : JSString;
  ticker : JSString;
  error : option JSString
}.
End ErrorEntry.

(** The text shown with a progress report, by the template it is built
    from (app.js 368, 390, 405). *)
Inductive Detail :=
| Preparing (targetDateStr : JSString)
| Fetching (stock : Stock.t)
| Finished.

(** What a run does that the outside can see, in order. *)
Inductive Event :=
| Progress (current total : Z) (detail : Detail)   (* [updateProgress] *)
| BatchIssued (batch : list Stock.t)               (* the requests of a batch start *)
| Sleep (ms : Z).                                  (* [await sleep(ms)] *)

(** The state of a run.  [closingPrices] is an object used as a map from
    raw codes to results. *)
Record Run := mkRun {
  closingPrices : gmap JSString PriceResult.t;
  errorMessages : list ErrorEntry.t;
  completed : Z;
  trace : list Event
}.

Definition emit (e : Event) (run : Run) : Run :=
  mkRun (closingPrices run) (errorMessages run) (completed run) (trace run ++ [e]).

(** [updateProgress(current, total, detail)] and [await sleep(ms)], as
    far as a run is concerned. *)
Abbreviation updateProgress current total detail run :=
  (emit (Progress current total detail) run).
Abbreviation sleep ms run := (emit (Sleep ms) run).

(** The entry pushed at app.js 381-386. *)
Definition errorEntry (stock : Stock.t) (result : PriceResult.t) : ErrorEntry.t :=
  ErrorEntry.mk (Stock.rawCode stock) (Stock.name stock)
    (if truthy (Stock.ticker stock) then default [] (Stock.ticker stock) else lit "N/A")
    (PriceResult.error result).

(** The continuation of one instrument of a batch, app.js 377-390, run
    when its request has settled; [net] tells what each request comes to. *)
Definition settle (host : Host) (targetDateStr : JSString)
    (net : Stock.t -> FetchOutcome) (total : Z) (run : Run) (stock : Stock.t) : Run :=
  let result :=
    fetchClosingPrice host (Stock.ticker stock) targetDateStr (net stock) in
  let prices := <[Stock.rawCode stock := result]> (closingPrices run) in
  let errors :=
    if truthy (PriceResult.error result)
    then errorMessages run ++ [errorEntry stock result]
    else errorMessages run in
  let completed := completed run + 1 in
  updateProgress completed total (Fetching stock)
    (mkRun prices errors completed (trace run)).

(** [stocks.slice(i, j)] for [0 <= i <= j]. *)
Definition slice {A : Type} (l : list A) (i j : Z) : list A :=
  take (Z.to_nat (j - i)) (drop (Z.to_nat i) l).

(** The loop of app.js 373-399 from index [i] on.  The requests of a
    batch settle in the order [order i batch], which the scheduler picks.
    The loop runs at most [fuel] turns; [fetchAllPrices] gives it as many
    as there are instruments. *)
Fixpoint batchLoop (fuel : nat) (host : Host) (targetDateStr : JSString)
    (net : Stock.t -> FetchOutcome) (order : Z -> list Stock.t -> list Stock.t)
    (stocks : list Stock.t) (total i : Z) (run : Run) : Run :=
  match fuel with
  | O => run
  | S fuel' =>
      if i <? total then
        let batch := slice stocks i (i + BATCH_SIZE) in
        let run := emit (BatchIssued batch) run in
        let run := foldl (settle host targetDateStr net total) run (order i batch) in
        let run :=
          if i + BATCH_SIZE <? total then sleep BATCH_DELAY_MS run else run in
        batchLoop fuel' host targetDateStr net order stocks total (i + BATCH_SIZE) run
      else run
  end.

(** [fetchAllPrices(stocks)], app.js 355-409, started at the instant [now]. *)
Definition fetchAllPrices (host : Host) (now : Z) (net : Stock.t -> FetchOutcome)
    (order : Z -> list Stock.t -> list Stock.t) (stocks : list Stock.t) : Run :=
  let targetDateStr := getTargetDate host now in
  let total := Z.of_nat (length stocks) in
  let run := mkRun ∅ [] 0 [] in
  let run := updateProgress 0 total (Preparing targetDateStr) run in
  let run :=
    batchLoop (length stocks) host targetDateStr net order stocks total 0 run in
  updateProgress total total Finished run.

(** The projections of a trace. *)
Definition progressOf (trace : list Event) : list (Z * Z) :=
  omap (fun e => match e with Progress c t _ => Some (c, t) | _ => None end) trace.

Definition pacingOf (trace : list Event) : list Event :=
  omap (fun e => match e with Progress _ _ _ => None | _ => Some e end) trace.

(** The batches and pauses of a well-paced run: a pause of
    [BATCH_DELAY_MS] between two batches, none after the last. *)
Fixpoint pacing (batches : list (list Stock.t)) : list Event :=
  match batches with
  | [] => []
  | [batch] => [BatchIssued batch]
  | batch :: batches' => BatchIssued batch :: Sleep BATCH_DELAY_MS :: pacing batches'
  end.

(** [Batches l batches]: [batches] cuts [l], in order, into batches of
    [BATCH_SIZE] instruments, the last one of one to [BATCH_SIZE]. *)
Inductive Batches : list Stock.t -> list (list Stock.t) -> Prop :=
| Batches_nil : Batches [] []
| Batches_last (batch : list Stock.t) :
    (1 <= length batch <= Z.to_nat BATCH_SIZE)%nat -> Batches batch [batch]
| Batches_cons (batch rest : list Stock.t) (batches : list (list Stock.t)) :
    length batch = Z.to_nat BATCH_SIZE -> rest <> [] -> Batches rest batches ->
    Batches (batch ++ rest) (batch :: batches).

(** The instruments whose result the orchestrator takes for a failure
    (app.js 380). *)
Definition failing (host : Host) (targetDateStr : JSString)
    (net : Stock.t -> FetchOutcome) (stock : Stock.t) : bool :=
  truthy (PriceResult.error
            (fetchClosingPrice host (Stock.ticker stock) targetDateStr (net stock))).

(** ** Specification-side notions *)

(** The valid observation at index [i]: a timestamp and a present close. *)
Definition observation (timestamps : list Z) (closes : list (option Q))
    (i : nat) (t : Z) (c : Q) : Prop :=
  timestamps !! i = Some t /\ closes !! i = Some (Some c).

(** What the nearest-match lookup is to return. *)
Definition findClosest_spec (timestamps : list Z) (closes : list (option Q))
    (target : Z) (r : option Q) : Prop :=
  (exists i t c,
      observation timestamps closes i t c /\ t <= target /\ r = Some c /\
      forall j t' c', observation timestamps closes j t' c' -> t' <= target ->
        target - t < target - t' \/ (target - t = target - t' /\ (i <= j)%nat))
  \/ ((forall j t' c', observation timestamps closes j t' c' -> target < t') /\
      exists i t c,
        observation timestamps closes i t c /\ r = Some c /\
        forall j t' c', observation timestamps closes j t' c' ->
          Z.abs (target - t) < Z.abs (target - t') \/
          (Z.abs (target - t) = Z.abs (target - t') /\ (i <= j)%nat))
  \/ ((forall j t' c', ~ observation timestamps closes j t' c') /\ r = None).

(** Both loops of [findClosestPrice] are one scan: [key t] is the
    distance of a timestamp that takes part, [None] of one that does not. *)
Fixpoint scanBy (key : Z -> option Z) (closes : list (option Q))
    (i : nat) (rest : list Z) (st : Best) : Best :=
  match rest with
  | [] => st
  | t :: rest' =>
      scanBy key closes (S i) rest'
        match closeAt closes i, key t with
        | Some _, Some d =>
            if lt_Diff d (bestDiff st) then mkBest (Z.of_nat i) (Finite d) else st
        | _, _ => st
        end
  end.

Definition keyBefore (target t : Z) : option Z :=
  if 0 <=? target - t then Some (target - t) else None.

Definition keyNearest (target t : Z) : option Z := Some (Z.abs (target - t)).

(** The state of a scan that has seen the indices below [i]. *)
Definition scanned (key : Z -> option Z) (timestamps : list Z)
    (closes : list (option Q)) (i : nat) (st : Best) : Prop :=
  (bestIdx st = -1 /\ bestDiff st = Infinity /\
   forall j t c, (j < i)%nat -> observation timestamps closes j t c -> key t = None)
  \/ (exists k t c d,
        bestIdx st = Z.of_nat k /\ (k < i)%nat /\
        observation timestamps closes k t c /\ key t = Some d /\
        bestDiff st = Finite d /\
        forall j t' c' d', (j < i)%nat -> observation timestamps closes j t' c' ->
          key t' = Some d' -> d < d' \/ (d = d' /\ (k <= j)%nat)).

(** The valid observations of a response, in the order of their index. *)
Definition validObservations (timestamps : list Z) (closes : list (option Q))
    : list TradingDay.t :=
  omap (fun i => t ← timestamps !! i; c ← closeAt closes i; Some (TradingDay.mk t c))
       (seq 0 (length timestamps)).

Definition le_ts (a b : TradingDay.t) : Prop := TradingDay.ts a <= TradingDay.ts b.

(** The observations of a series that carry the timestamp [t]. *)
Definition atTimestamp (t : Z) (series : list TradingDay.t) : list TradingDay.t :=
  List.filter (fun d => TradingDay.ts d =? t) series.

(** The anchor of a series is at index [i]: the last observation at or
    before the target, or the first one when all are after it. *)
Definition anchor_at (series : list TradingDay.t) (target : Z) (i : nat) : Prop :=
  (exists d, series !! i = Some d /\ TradingDay.ts d <= target /\
     forall j d', (i < j)%nat -> series !! j = Some d' -> target < TradingDay.ts d')
  \/ (i = 0%nat /\ forall d, d ∈ series -> target < TradingDay.ts d).

(** A response that passes every check before the series is built. *)
Definition chartResponse (status : Z) (timestamps : list Z)
    (closes : list (option Q)) (more : list (option ChartResult)) : FetchOutcome :=
  FetchResponse true status
    (JsonParsed (DataResult (Some (mkChartResult (Some timestamps) (Some closes)) :: more))).

(** The example of the specification: observations at 100, 200 and 300,
    on a machine set to Tokyo time that reads the reference date as the
    timestamp 250. *)
Definition exampleHost : Host :=
  mkHost (fun _ => -540) (fun _ => 250) (lit "Cannot read properties of null")
    (lit "URI malformed").

Definition exampleResponse : FetchOutcome :=
  chartResponse 200 [100; 200; 300] [Some 10%Q; Some 20%Q; Some 30%Q] [].

Definition exampleResult : PriceResult.t :=
  fetchClosingPrice exampleHost (Some (lit "1301.T")) (lit "19700101") exampleResponse.

(** A ticker the resolver makes a request for: a string, not empty, that
    [encodeURIComponent] accepts. *)
Definition usableTicker (ticker : option JSString) : Prop :=
  truthy ticker = true /\ wellFormedUTF16 (default [] ticker) = true.

(** A result is well formed: it has a price or an error, not both, and
    with an error no number at all. *)
Definition wellFormed (r : PriceResult.t) : Prop :=
  (PriceResult.price r = None <-> PriceResult.error r <> None) /\
  (PriceResult.error r <> None ->
   PriceResult.price r = None /\ PriceResult.change1d r = None /\
   PriceResult.change7d r = None /\ PriceResult.change14d r = None /\
   PriceResult.change30d r = None /\ PriceResult.change180d r = None).

(** A machine on Tokyo time. *)
Definition tokyoHost : Host := exampleHost.

(** A machine on New York time in March 2024: five hours behind UTC
    until the clocks go forward on 2024-03-10 at 07:00 UTC, four hours
    behind from then on. *)
Definition newYorkHost : Host :=
  mkHost (fun t => if t <? 1710054000000 then 300 else 240) (fun _ => 0)
    (lit "Cannot read properties of null") (lit "URI malformed").

(** The result of one instrument of a run. *)
Definition resultOf (host : Host) (targetDateStr : JSString)
    (net : Stock.t -> FetchOutcome) (stock : Stock.t) : PriceResult.t :=
  fetchClosingPrice host (Stock.ticker stock) targetDateStr (net stock).

(** Twelve instruments, 1301 to 1312, and a provider that answers every
    request with the status 500. *)
Definition twelveStocks : list Stock.t :=
  (fun k => Stock.mk (Some (String_of_Z k ++ lit ".T")) (String_of_Z k) (lit "name"))
    <$> seqZ 1301 12.

Definition http500 (stock : Stock.t) : FetchOutcome :=
  FetchResponse false 500 (JsonRejected []).

(** Requests that settle in the order they were issued, and in the
    opposite order. *)
Definition inOrder (i : Z) (batch : list Stock.t) : list Stock.t := batch.
Definition lastFirst (i : Z) (batch : list Stock.t) : list Stock.t := rev batch.

(** The run over the twelve instruments, started at 10:30 Tokyo time on
    the 11th of March 2024. *)
Definition twelveRun (order : Z -> list Stock.t -> list Stock.t) : Run :=
  fetchAllPrices tokyoHost 1710120600000 http500 order twelveStocks.

(** A provider that fails one instrument of the twelve, 1305, and
    answers the others with the example series. *)
Definition oneFails (stock : Stock.t) : FetchOutcome :=
  if bool_decide (Stock.rawCode stock = String_of_Z 1305)
  then FetchResponse false 500 (JsonRejected [])
  else exampleResponse.

(** A code [toTicker] accepts: four code units or more, the first four
    of them ASCII letters or digits. *)
Definition validCode (code : JSString) : Prop :=
  (4 <= length code)%nat /\ forallb isAlnum (take 4 code) = true.

(** The display name a row gives, app.js 127. *)
Definition rowName (row : list Cell) : JSString :=
  trim (if cellTruthy (cellAt row COL_NAME)
        then cellString (cellAt row COL_NAME) else []).

(** The instrument comes from the first row that carries its code. *)
Definition fromFirstRow (rows : list (list Cell)) (stock : Stock.t) : Prop :=
  exists i row,
    rows !! i = Some row /\ rowCode row = Some (Stock.rawCode stock) /\
    (forall j row', (j < i)%nat -> rows !! j = Some row' ->
       rowCode row' <> Some (Stock.rawCode stock)) /\
    Stock.name stock = rowName row.

(** The orchestrator takes the result of the instrument for a failure. *)
Definition fails (host : Host) (targetDateStr : JSString)
    (net : Stock.t -> FetchOutcome) (stock : Stock.t) : Prop :=
  Is_true (failing host targetDateStr net stock).

#[global] Instance fails_dec host targetDateStr net stock :
  Decision (fails host targetDateStr net stock) :=
  Is_true_dec (failing host targetDateStr net stock).

(** [closingPrices[stock.rawCode] = resolve(stock)]. *)
Definition storeResult (resolve : Stock.t -> PriceResult.t)
    (prices : gmap JSString PriceResult.t) (stock : Stock.t)
    : gmap JSString PriceResult.t :=
  <[Stock.rawCode stock := resolve stock]> prices.

(** The messages of the errors the request of an instrument can raise
    are not empty. *)
Definition messagesNonEmpty (host : Host) (net : FetchOutcome) : Prop :=
  typeErrorMessage host <> [] /\ uriErrorMessage host <> [] /\
  match net with
  | FetchRejected message => message <> []
  | FetchResponse _ _ (JsonRejected message) => message <> []
  | FetchResponse _ _ (JsonParsed _) => True
  end.

(** How often an error list names a code. *)
Definition timesListed (code : JSString) (errors : list ErrorEntry.t) : nat :=
  length (filter (fun e => ErrorEntry.code e = code) errors).

(** ** Dates as text *)

(** [s.substring(a, b)] for [a <= b]. *)
Definition substring (a b : nat) (s : JSString) : JSString :=
  take (b - a) (drop a s).

(** [formatDateStr(yyyymmdd)], app.js 167-170, of a string. *)
Definition formatDateStr (yyyymmdd : JSString) : JSString :=
  let s := yyyymmdd in
  substring 0 4 s ++ lit "/" ++ substring 4 6 s ++ lit "/" ++ substring 6 8 s.

(** The class [\d]. *)
Definition isDigit (c : N) : bool := ((48 <=? c) && (c <=? 57))%N.

(** [/^\d{8}$/.test(s)]. *)
Definition test_digits8 (s : JSString) : bool :=
  (length s =? 8)%nat && forallb isDigit s.

(** The value of a code unit as a digit of the radix, where it is one. *)
Definition digitValue (radix : Z) (c : N) : option Z :=
  let v :=
    if isDigit c then Some (Z.of_N c - 48)
    else if ((97 <=? c) && (c <=? 122))%N then Some (Z.of_N c - 87)
    else if ((65 <=? c) && (c <=? 90))%N then Some (Z.of_N c - 55)
    else None in
  match v with
  | Some d => if d <? radix then Some d else None
  | None => None
  end.

(** The integer written by the longest run of digits at the start of
    [s]; [acc] is [None] as long as no digit was read. *)
Fixpoint readDigits (radix : Z) (acc : option Z) (s : JSString) : option Z :=
  match s with
  | [] => acc
  | c :: s' =>
      match digitValue radix c with
      | Some d => readDigits radix (Some (radix * default 0 acc + d)) s'
      | None => acc
      end
  end.

(** [parseInt(string)] without a radix: white space, a sign, [0x] for
    radix 16, digits; [None] is [NaN].  The value is the exact integer
    (the language rounds it to a double). *)
Definition parseInt (string : JSString) : option Z :=
  let S := trimStart string in
  let sign := match S with c :: _ => if (c =? 45)%N then -1 else 1 | [] => 1 end in
  let S :=
    match S with
    | c :: S' => if (c =? 43)%N || (c =? 45)%N then S' else S
    | [] => S
    end in
  let hex :=
    match S with
    | c :: x :: _ => (c =? 48)%N && ((x =? 120)%N || (x =? 88)%N)
    | _ => false
    end in
  (fun mathInt => sign * mathInt)
    <$> (if hex then readDigits 16 None (drop 2 S) else readDigits 10 None S).

Section Dates.
(** The [Date] objects of the machine, [new Date(year, month, day)] and
    [new Date(string)]; a number that may be [NaN] is an [option Z]. *)
Variable DateT : Type.
Variable Date_local : option Z -> option Z -> option Z -> DateT.
Variable Date_parse : JSString -> DateT.

(** [parseDateValue(dateVal)], app.js 219-238, of a string. *)
Definition parseDateValue (dateVal : JSString) : DateT :=
  let s := trim dateVal in
  if test_digits8 s then
    let y := parseInt (substring 0 4 s) in
    let m := (fun m => m - 1) <$> parseInt (substring 4 6 s) in
    let d := parseInt (substring 6 8 s) in
    Date_local y m d
  else
    match parseInt s with
    | Some n =>
        if (19000000 <? n) && (n <? 21000000) then
          let y := n / 10000 in
          let m := (n mod 10000) / 100 - 1 in
          let d := n mod 100 in
          Date_local (Some y) (Some m) (Some d)
        else Date_parse s
    | None => Date_parse s
    end.
End Dates.

(** The value of a run of decimal digits. *)
Definition decimalValue (s : JSString) : Z :=
  foldl (fun acc c => 10 * acc + (Z.of_N c - 48)) 0 s.

(** The civil date of a day with slashes, [YYYY/MM/DD]. *)
Definition slashedDate (day : Z) : JSString :=
  let '(y, m, d) := civil_from_days day in
  String_of_Z y ++ lit "/" ++ padStart2 (String_of_Z m) ++ lit "/"
  ++ padStart2 (String_of_Z d).

(** The day [getTargetDate] is to name, by the rule of the
    specification. *)
Definition referenceDay (now : Z) : Z :=
  if (540 <=? jstMinuteOfDay now) && (jstMinuteOfDay now <? 900)
  then jstDay now - 1
  else jstDay now.

(** ** Results on the page *)

(** [String(v)] of a value that is [null] or a string. *)
Definition String_of_nullable (v : option JSString) : JSString :=
  default (lit "null") v.

(** The text of a code unit in the serialisation of a text node. *)
Definition escapeUnit (c : N) : JSString :=
  if (c =? 38)%N then lit "&amp;"
  else if (c =? 160)%N then lit "&nbsp;"
  else if (c =? 60)%N then lit "&lt;"
  else if (c =? 62)%N then lit "&gt;"
  else [c].

(** [escapeHTML(str)], app.js 457-461, of a string: the [innerHTML] of an
    element whose [textContent] is [str]. *)
Definition escapeHTML (str : JSString) : JSString := flat_map escapeUnit str.

(** The double quote. *)
Definition quot : JSString := [34%N].

(** The entry of the error log, app.js 449. *)
Definition errorLogEntry (e : ErrorEntry.t) : JSString :=
  lit "<div class=" ++ quot ++ lit "error-entry" ++ quot ++ lit "><span class="
  ++ quot ++ lit "error-code" ++ quot ++ lit ">"
  ++ escapeHTML (ErrorEntry.code e) ++ lit "</span> "
  ++ escapeHTML (ErrorEntry.name e) ++ lit " ("
  ++ escapeHTML (ErrorEntry.ticker e) ++ lit ") " ++ [0x2014%N] ++ lit " "
  ++ escapeHTML (String_of_nullable (ErrorEntry.error e)) ++ lit "</div>".

(** [Object.values(prices)]; the order is not the one of the language. *)
Definition objectValues (prices : gmap JSString PriceResult.t) : list PriceResult.t :=
  (map_to_list prices).*2.

(** What [showResults] writes to the page. *)
Record ResultsView := mkResultsView {
  successCount : nat;
  naCount : nat;
  errorCount : nat;
  (** the new content of the error log, [None] where it is left alone
      and its section hidden *)
  errorLog : option JSString
}.

(** [showResults()], app.js 436-455, on the results and errors of the
    page. *)
Definition showResults (prices : gmap JSString PriceResult.t)
    (errors : list ErrorEntry.t) : ResultsView :=
  let successN :=
    length (filter (fun v => is_Some (PriceResult.price v)) (objectValues prices)) in
  let errorN := length errors in
  let naN :=
    length (filter (fun v => PriceResult.price v = None) (objectValues prices)) in
  mkResultsView successN naN errorN
    (if (0 <? length errors)%nat then Some (concat (errorLogEntry <$> errors))
     else None).

(** A cell of the sheet: what [Cell] tells of it, and whether it is
    [null] or [undefined]. *)
Module Value.
Record t := mk { cell : Cell; nullish : bool }.
End Value.

(** [xlsData], the sheet on the page. *)
Record XlsData := mkXlsData {
  header : list JSString;
  rows : list (list Value.t)
}.

Definition cellsOf (rows : list (list Value.t)) : list (list Cell) :=
  map (map Value.cell) rows.

(** What a click on the fetch button comes to. *)
Inductive ClickOutcome :=
| Ignored                          (* no sheet, or a run under way *)
| NoValidCode                      (* the alert of app.js 811 *)
| Fetched (run : Run).

(** The handler of the fetch button, app.js 806-816. *)
Definition onFetchClick (host : Host) (now : Z) (net : Stock.t -> FetchOutcome)
    (order : Z -> list Stock.t -> list Stock.t)
    (xlsData : option XlsData) (isFetching : bool) : ClickOutcome :=
  match xlsData with
  | None => Ignored
  | Some data =>
      if isFetching then Ignored
      else
        let stocks := getUniqueStocks (cellsOf (rows data)) in
        if (length stocks =? 0)%nat then NoValidCode
        else Fetched (fetchAllPrices host now net order stocks)
  end.

(** Reading the serialisation of a text node back: the four entities
    stand for their code units. *)
Definition startsWith (prefix s : JSString) : bool :=
  bool_decide (take (length prefix) s = prefix).

Fixpoint unescapeHTML (skip : nat) (s : JSString) : JSString :=
  match s with
  | [] => []
  | c :: rest =>
      match skip with
      | S k => unescapeHTML k rest
      | O =>
          if startsWith (lit "&amp;") s then 38%N :: unescapeHTML 4 rest
          else if startsWith (lit "&nbsp;") s then 160%N :: unescapeHTML 5 rest
          else if startsWith (lit "&lt;") s then 60%N :: unescapeHTML 3 rest
          else if startsWith (lit "&gt;") s then 62%N :: unescapeHTML 3 rest
          else c :: unescapeHTML 0 rest
      end
  end.

(** How often a code unit occurs. *)
Definition occurrences (c : N) (s : JSString) : nat :=
  length (filter (fun x => x = c) s).

(** The four look-back comparisons of a result, app.js 324-334, each
    with the number of days it looks back. *)
Definition lookbacks (r : PriceResult.t) : list (Z * option Q) :=
  [ (7, PriceResult.change7d r); (14, PriceResult.change14d r);
    (30, PriceResult.change30d r); (180, PriceResult.change180d r) ].

(** ** CSV export *)

Definition COL_DATE : nat := 0.
Definition COL_MARKET : nat := 3.
Definition COL_SEC33_NAME : nat := 5.
Definition COL_SEC17_NAME : nat := 7.
Definition COL_SCALE_NAME : nat := 9.

Module Column.
Record t := mk { key : nat; label : JSString }.
End Column.

(** [DISPLAY_COLS], app.js 474-482, the labels by their code units. *)
Definition DISPLAY_COLS : list Column.t :=
  [ Column.mk COL_DATE [0x65E5; 0x4ED8]%N;
    Column.mk COL_CODE [0x30B3; 0x30FC; 0x30C9]%N;
    Column.mk COL_NAME [0x9298; 0x67C4; 0x540D]%N;
    Column.mk COL_MARKET [0x5E02; 0x5834; 0x30FB; 0x5546; 0x54C1; 0x533A; 0x5206]%N;
    Column.mk COL_SEC33_NAME [0x33; 0x33; 0x696D; 0x7A2E; 0x533A; 0x5206]%N;
    Column.mk COL_SEC17_NAME [0x31; 0x37; 0x696D; 0x7A2E; 0x533A; 0x5206]%N;
    Column.mk COL_SCALE_NAME [0x898F; 0x6A21; 0x533A; 0x5206]%N ].

(** The keys of a result the export reads. *)
Inductive ResultKey :=
| key_price | key_change1d | key_change7d | key_change14d | key_change30d
| key_change180d.

Module ExtraColumn.
Record t := mk { key : ResultKey; label : JSString }.
End ExtraColumn.

(** [EXTRA_COLS], app.js 485-492. *)
Definition EXTRA_COLS : list ExtraColumn.t :=
  [ ExtraColumn.mk key_price [0x7D42; 0x5024]%N;
    ExtraColumn.mk key_change1d [0x524D; 0x65E5; 0x6BD4; 0x28; 0x25; 0x29]%N;
    ExtraColumn.mk key_change7d [0x31; 0x9031; 0x9593; 0x6BD4; 0x28; 0x25; 0x29]%N;
    ExtraColumn.mk key_change14d [0x32; 0x9031; 0x9593; 0x6BD4; 0x28; 0x25; 0x29]%N;
    ExtraColumn.mk key_change30d [0x31; 0x30F6; 0x6708; 0x6BD4; 0x28; 0x25; 0x29]%N;
    ExtraColumn.mk key_change180d [0x36; 0x30F6; 0x6708; 0x6BD4; 0x28; 0x25; 0x29]%N ].

(** [a.join(sep)] of an array of strings. *)
Definition join (sep : JSString) (a : list JSString) : JSString :=
  match a with
  | [] => []
  | x :: a' => x ++ flat_map (fun y => sep ++ y) a'
  end.

(** [s.includes(c)] of a string of one code unit. *)
Definition includes (c : N) (s : JSString) : bool := existsb (N.eqb c) s.

(** The replacement of app.js 660: every quotation mark is doubled. *)
Definition doubleQuotes (val : JSString) : JSString :=
  flat_map (fun c => if (c =? 34)%N then [34; 34]%N else [c]) val.

(** The test of app.js 659: a comma, a quotation mark or a line feed. *)
Definition needsQuotes (val : JSString) : bool :=
  includes 44 val || includes 34 val || includes 10 val.

(** The quoting of a cell, app.js 659-662. *)
Definition csvCell (val : JSString) : JSString :=
  if needsQuotes val then quot ++ doubleQuotes val ++ quot else val.

(** [String(row[key] ?? '').trim()], with the date shown as
    YYYY/MM/DD, app.js 651-657. *)
Definition displayText (key : nat) (row : list Value.t) : JSString :=
  let val :=
    trim match row !! key with
         | Some v => if Value.nullish v then [] else cellString (Value.cell v)
         | None => []
         end in
  if (key =? COL_DATE)%nat then
    let s := val in
    if test_digits8 s
    then substring 0 4 s ++ lit "/" ++ substring 4 6 s ++ lit "/" ++ substring 6 8 s
    else val
  else val.

(** [String(row[COL.CODE] || '').trim()], app.js 665. *)
Definition codeOf (row : list Value.t) : JSString :=
  let c := cellAt (Value.cell <$> row) COL_CODE in
  trim (if cellTruthy c then cellString c else []).

(** What reading a property of the object [closingPrices] gives: a
    result the object holds itself, a member it inherits from
    [Object.prototype] (a function or the prototype itself, truthy and
    with none of the properties of a result), or [undefined]. *)
Inductive Property := Own (result : PriceResult.t) | Inherited | Undefined.

Definition changeOf (key : ResultKey) (r : PriceResult.t) : option Q :=
  match key with
  | key_price => PriceResult.price r
  | key_change1d => PriceResult.change1d r
  | key_change7d => PriceResult.change7d r
  | key_change14d => PriceResult.change14d r
  | key_change30d => PriceResult.change30d r
  | key_change180d => PriceResult.change180d r
  end.

Section CsvExport.

(** The names [Object.prototype] answers to, and the two renderings of a
    number: [String(x)] and [x.toFixed(2)]. *)
Variable inherited : JSString -> bool.
Variable String_of_number : Q -> JSString.
Variable toFixed2 : Q -> JSString.

(** [closingPrices[code]]. *)
Definition getProperty (prices : gmap JSString PriceResult.t) (code : JSString)
    : Property :=
  match prices !! code with
  | Some r => Own r
  | None => if inherited code then Inherited else Undefined
  end.

(** [pd && pd.price !== null ? String(pd.price) : 'N/A'], app.js 669. *)
Definition priceText (pd : Property) : JSString :=
  match pd with
  | Own r =>
      match PriceResult.price r with
      | Some price => String_of_number price
      | None => lit "N/A"
      end
  | Inherited => lit "undefined"
  | Undefined => lit "N/A"
  end.

(** [pd?.[key]] shown with two decimals, app.js 673-674. *)
Definition changeText (pd : Property) (key : ResultKey) : JSString :=
  match pd with
  | Own r =>
      match changeOf key r with
      | Some val => toFixed2 val
      | None => lit "N/A"
      end
  | Inherited | Undefined => lit "N/A"
  end.

(** The cells of the line of a row, app.js 649-675. *)
Definition csvCells (prices : gmap JSString PriceResult.t) (row : list Value.t)
    : list JSString :=
  let cells := map (fun col => csvCell (displayText (Column.key col) row)) DISPLAY_COLS in
  let code := codeOf row in
  let pd := getProperty prices code in
  let cells := cells ++ [priceText pd] in
  foldl (fun cells key => cells ++ [changeText pd key]) cells
    [key_change1d; key_change7d; key_change14d; key_change30d; key_change180d].

(** [generateOutputCSV()], app.js 635-681. *)
Definition generateOutputCSV (xlsData : option XlsData)
    (prices : gmap JSString PriceResult.t) : JSString :=
  match xlsData with
  | None => []
  | Some data =>
      let csvHeader :=
        map Column.label DISPLAY_COLS ++ map ExtraColumn.label EXTRA_COLS in
      let lines := [join (lit ",") csvHeader] in
      let lines :=
        foldl (fun lines row => lines ++ [join (lit ",") (csvCells prices row)])
          lines (rows data) in
      join [13; 10]%N lines
  end.

(** The texts the line of a row stands for. *)
Definition csvTexts (prices : gmap JSString PriceResult.t) (row : list Value.t)
    : list JSString :=
  map (fun col => displayText (Column.key col) row) DISPLAY_COLS
  ++ priceText (getProperty prices (codeOf row))
  :: map (changeText (getProperty prices (codeOf row)))
       [key_change1d; key_change7d; key_change14d; key_change30d; key_change180d].

End CsvExport.

(** A reader of CSV text: fields parted by commas, records by CR LF, a
    field in quotes holding commas, line breaks and doubled quotes. *)
Inductive CsvMode := Plain | PlainCR | Quoted | QuotedQuote.

Record CsvState := mkCsvState {
  csvMode : CsvMode;
  csvField : JSString;
  csvFields : list JSString;
  csvRecords : list (list JSString)
}.

Definition stepPlain (st : CsvState) (c : N) : CsvState :=
  let '(mkCsvState _ cur fields records) := st in
  if (c =? 34)%N then
    match cur with
    | [] => mkCsvState Quoted [] fields records
    | _ => mkCsvState Plain (cur ++ [c]) fields records
    end
  else if (c =? 44)%N then mkCsvState Plain [] (fields ++ [cur]) records
  else if (c =? 13)%N then mkCsvState PlainCR cur fields records
  else mkCsvState Plain (cur ++ [c]) fields records.

Definition csvStep (st : CsvState) (c : N) : CsvState :=
  let '(mkCsvState mode cur fields records) := st in
  match mode with
  | Plain => stepPlain st c
  | PlainCR =>
      if (c =? 10)%N then mkCsvState Plain [] [] (records ++ [fields ++ [cur]])
      else stepPlain (mkCsvState Plain (cur ++ [13%N]) fields records) c
  | Quoted =>
      if (c =? 34)%N then mkCsvState QuotedQuote cur fields records
      else mkCsvState Quoted (cur ++ [c]) fields records
  | QuotedQuote =>
      if (c =? 34)%N then mkCsvState Quoted (cur ++ [c]) fields records
      else stepPlain (mkCsvState Plain cur fields records) c
  end.

(** The field a state holds, a pending CR counted in. *)
Definition csvPending (st : CsvState) : JSString :=
  match csvMode st with
  | PlainCR => csvField st ++ [13%N]
  | _ => csvField st
  end.

Definition csvFinish (st : CsvState) : list (list JSString) :=
  csvRecords st ++ [csvFields st ++ [csvPending st]].

Definition parseCSV (text : JSString) : list (list JSString) :=
  csvFinish (foldl csvStep (mkCsvState Plain [] [] []) text).

(** The reader has the field [v] at hand, after the fields [fields] of
    the record and the records [records]. *)
Definition csvReady (st : CsvState) (v : JSString) (fields : list JSString)
    (records : list (list JSString)) : Prop :=
  csvMode st <> Quoted /\ csvPending st = v /\
  csvFields st = fields /\ csvRecords st = records.

(** ** Sorting the table *)

(** [a.sort(compare)] for a comparison that orders the elements: the
    elements in order, those that compare alike in the order they had. *)
Fixpoint insertWith {A : Type} (compare : A -> A -> Q) (x : A) (l : list A) : list A :=
  match l with
  | [] => [x]
  | y :: l' =>
      if Qle_bool (compare x y) 0 then x :: l else y :: insertWith compare x l'
  end.

Fixpoint sortWith {A : Type} (compare : A -> A -> Q) (l : list A) : list A :=
  match l with
  | [] => []
  | x :: l' => insertWith compare x (sortWith compare l')
  end.

(** The comparison of two rows by a column of results, app.js 605-609:
    a row without a value goes last. *)
Definition compareExtra (sortAsc : bool) (valA valB : option Q) : Q :=
  match valA, valB with
  | None, None => 0
  | None, Some _ => 1
  | Some _, None => -1
  | Some a, Some b => if sortAsc then a - b else b - a
  end.

Section Sorting.
Variable inherited : JSString -> bool.
Variable prices : gmap JSString PriceResult.t.

(** The order of the rows by a column of the sheet, app.js 590-594 and
    612-620, which the text comparison of the machine decides. *)
Variable textSort : nat -> bool -> list (list Value.t) -> list (list Value.t).

(** [pd?.[extraKey] ?? null], app.js 595-603. *)
Definition extraValue (key : ResultKey) (row : list Value.t) : option Q :=
  match getProperty inherited prices (codeOf row) with
  | Own r => changeOf key r
  | Inherited | Undefined => None
  end.

(** [getSortedRows(rows, hasPrices)], app.js 581-629, with the column
    and the direction the page is sorted by. *)
Definition getSortedRows (sortColIdx : Z) (sortAsc : bool)
    (rows : list (list Value.t)) (hasPrices : bool) : list (list Value.t) :=
  if sortColIdx <? 0 then rows
  else
    let baseCount := Z.of_nat (length DISPLAY_COLS) in
    if sortColIdx <? baseCount then textSort (Z.to_nat sortColIdx) sortAsc rows
    else if hasPrices then
      let extraIdx := sortColIdx - baseCount in
      match EXTRA_COLS !! Z.to_nat extraIdx with
      | Some col =>
          sortWith (fun a b =>
                      compareExtra sortAsc (extraValue (ExtraColumn.key col) a)
                        (extraValue (ExtraColumn.key col) b)) rows
      | None => sortWith (fun _ _ => 0%Q) rows
      end
    else sortWith (fun _ _ => 0%Q) rows.

End Sorting.

(** The order [compareExtra] puts two values in. *)
Definition extraOrder (sortAsc : bool) (valA valB : option Q) : Prop :=
  match valA, valB with
  | _, None => True
  | None, Some _ => False
  | Some a, Some b => if sortAsc then (a <= b)%Q else (b <= a)%Q
  end.

(** ** File sizes *)

(** [x.toFixed(1)] of a number that is not negative and below 10^21:
    the tenths nearest to it, the larger of two that are as near, with one
    digit after the point. *)
Definition toFixed1 (x : Q) : JSString :=
  let n := Math_round (x * 10) in
  String_of_Z (n / 10) ++ lit "." ++ String_of_Z (n mod 10).

(** [formatFileSize(bytes)], app.js 463-467, of a size in whole bytes
    (below 2^53, where the two divisions are exact). *)
Definition formatFileSize (bytes : Z) : JSString :=
  if bytes <? 1024 then String_of_Z bytes ++ lit " B"
  else if bytes <? 1048576 then toFixed1 (bytes # 1024) ++ lit " KB"
  else toFixed1 (bytes # 1048576) ++ lit " MB".

(** * Properties *)

(** ** Change calculator *)

Lemma Math_round_bounds (x : Q) :
  (x - (1 # 2) < inject_Z (Math_round x))%Q /\
  (inject_Z (Math_round x) <= x + (1 # 2))%Q.
Proof.
  unfold Math_round. split.
  - pose proof (Qlt_floor (x + (1 # 2))) as H.
    rewrite inject_Z_plus in H. simpl inject_Z in H.
    apply Qplus_lt_l with (z := 1%Q). 
    eapply Qle_lt_trans; [|exact H].
    ring_simplify. apply Qle_refl.
  - apply Qfloor_le.
Qed.

Lemma Math_round_proper (x y : Q) : (x == y)%Q -> Math_round x = Math_round y.
Proof.
  intros H. unfold Math_round. apply Qfloor_comp. rewrite H. reflexivity.
Qed.


Lemma Qfloor_unique (x : Q) (n : Z) :
  (inject_Z n <= x)%Q -> (x < inject_Z (n + 1))%Q -> Qfloor x = n.
Proof.
  intros Hle Hlt.
  assert (H1 : n <= Qfloor x)
    by (rewrite <- (Qfloor_Z n); apply Qfloor_resp_le; exact Hle).
  assert (H2 : Qfloor x < n + 1).
  { rewrite Zlt_Qlt. eapply Qle_lt_trans; [apply Qfloor_le|exact Hlt]. }
  lia.
Qed.

(** The two roundings differ on negative ties only. *)
Lemma round_half_away_from_zero_Math_round (x : Q) :
  (0 <= x)%Q \/ (forall k : Z, ~ (x + (1 # 2) == inject_Z k)%Q) ->
  round_half_away_from_zero x = Math_round x.
Proof.
  intros Hx. unfold round_half_away_from_zero, Math_round.
  destruct (Qle_bool 0 x) eqn:E; [reflexivity|].
  destruct Hx as [Hx|Hx]; [apply Qle_bool_iff in Hx; congruence|].
  set (n := Qfloor (x + (1 # 2))).
  pose proof (Qfloor_le (x + (1 # 2))) as Hle. fold n in Hle.
  pose proof (Qlt_floor (x + (1 # 2))) as Hlt. fold n in Hlt.
  rewrite inject_Z_plus in Hlt.
  assert (Hne : (inject_Z n < x + (1 # 2))%Q).
  { apply Qle_lteq in Hle as [Hle|Heq]; [exact Hle|].
    exfalso. apply (Hx n). symmetry. exact Heq. }
  change (inject_Z 1) with 1%Q in Hlt.
  unfold Qceiling. rewrite (Qfloor_unique (- (x - (1 # 2))) (- n)); [lia| |];
    clearbody n.
  - rewrite inject_Z_opp. lra.
  - rewrite inject_Z_plus, inject_Z_opp. change (inject_Z 1) with 1%Q. lra.
Qed.

(** Away from negative ties the code computes what the specification
    words. *)
Lemma calcChangeRate_changeRate_spec (c p : Q) :
  (0 <= (c - p) / p * 10000)%Q \/
  (forall k : Z, ~ ((c - p) / p * 10000 + (1 # 2) == inject_Z k)%Q) ->
  calcChangeRate (Some c) (Some p) = changeRate_spec (Some c) (Some p).
Proof.
  intros H. unfold calcChangeRate, changeRate_spec.
  destruct (Qeq_bool p 0); [reflexivity|].
  rewrite round_half_away_from_zero_Math_round by exact H. reflexivity.
Qed.


(** ** Nearest-match lookup *)

Lemma closeAt_Some (closes : list (option Q)) (i : nat) (c : Q) :
  closeAt closes i = Some c <-> closes !! i = Some (Some c).
Proof.
  unfold closeAt. destruct (closes !! i) as [[c'|]|]; simpl; split; congruence.
Qed.

Lemma scanBefore_scanBy closes target rest : forall i st,
  scanBefore closes target i rest st = scanBy (keyBefore target) closes i rest st.
Proof.
  induction rest as [|t rest IH]; intros i st; simpl; [reflexivity|].
  rewrite IH. f_equal. unfold keyBefore.
  destruct (closeAt closes i); [|reflexivity].
  destruct (0 <=? target - t); reflexivity.
Qed.

Lemma scanNearest_scanBy closes target rest : forall i st,
  scanNearest closes target i rest st = scanBy (keyNearest target) closes i rest st.
Proof.
  induction rest as [|t rest IH]; intros i st; simpl; [reflexivity|].
  rewrite IH. reflexivity.
Qed.

Lemma drop_cons_lookup {A : Type} (l : list A) (i : nat) (x : A) (rest : list A) :
  drop i l = x :: rest -> l !! i = Some x /\ drop (S i) l = rest.
Proof.
  intros H. split.
  - assert (drop i l !! 0%nat = l !! i) as <-
      by (rewrite lookup_drop; f_equal; lia).
    rewrite H. reflexivity.
  - assert (drop 1 (drop i l) = drop (S i) l) as <-
      by (rewrite drop_drop; f_equal; lia).
    rewrite H. reflexivity.
Qed.

(** One more index seen. *)
Lemma scanned_step key timestamps closes i t st :
  timestamps !! i = Some t ->
  scanned key timestamps closes i st ->
  scanned key timestamps closes (S i)
    match closeAt closes i, key t with
    | Some _, Some d =>
        if lt_Diff d (bestDiff st) then mkBest (Z.of_nat i) (Finite d) else st
    | _, _ => st
    end.
Proof.
  intros Ht Hst.
  assert (Hskip : (closeAt closes i = None \/ key t = None) ->
                  scanned key timestamps closes (S i) st).
  { intros Hnone. destruct Hst as [(Hi & Hd & Hall)|(k & tk & ck & d & Hi & Hk & Hobs & Hkey & Hd & Hmin)].
    - left. repeat split; try assumption.
      intros j t' c' Hj [Ht' Hc']. destruct (decide (j = i)) as [->|Hne].
      + destruct Hnone as [Hnone|Hnone]; [|congruence].
        apply closeAt_Some in Hc'. congruence.
      + apply (Hall j t' c'); [lia|split; assumption].
    - right. exists k, tk, ck, d. repeat split; try apply Hobs; try assumption; [lia|].
      intros j t' c' d' Hj [Ht' Hc'] Hkey'. destruct (decide (j = i)) as [->|Hne].
      + destruct Hnone as [Hnone|Hnone]; [|congruence].
        apply closeAt_Some in Hc'. congruence.
      + apply (Hmin j t' c' d'); [lia|split; assumption|assumption]. }
  destruct (closeAt closes i) as [c|] eqn:Hc; [|apply Hskip; left; reflexivity].
  destruct (key t) as [d|] eqn:Hkey; [|apply Hskip; right; reflexivity].
  apply closeAt_Some in Hc.
  destruct Hst as [(Hi & Hd & Hall)|(k & tk & ck & dk & Hi & Hk & Hobs & Hkeyk & Hd & Hmin)].
  - rewrite Hd. simpl. right. exists i, t, c, d.
    repeat split; try assumption; [lia|].
    intros j t' c' d' Hj [Ht' Hc'] Hkey'. destruct (decide (j = i)) as [->|Hne].
    + right. split; [congruence|lia].
    + rewrite (Hall j t' c') in Hkey'; [discriminate|lia|split; assumption].
  - rewrite Hd. simpl. destruct (d <? dk) eqn:Hlt.
    + apply Z.ltb_lt in Hlt. right. exists i, t, c, d.
      repeat split; try assumption; [lia|].
      intros j t' c' d' Hj [Ht' Hc'] Hkey'. destruct (decide (j = i)) as [->|Hne].
      * right. split; [congruence|lia].
      * destruct (Hmin j t' c' d') as [H|[H _]]; [lia|split; assumption|assumption| |]; lia.
    + apply Z.ltb_ge in Hlt. right. exists k, tk, ck, dk.
      repeat split; try apply Hobs; try assumption; [lia|].
      intros j t' c' d' Hj [Ht' Hc'] Hkey'. destruct (decide (j = i)) as [->|Hne].
      * assert (d' = d) by congruence. subst d'.
        destruct (decide (dk = d)); [right; split; [assumption|lia]|left; lia].
      * apply (Hmin j t' c' d'); [lia|split; assumption|assumption].
Qed.

(** The whole scan. *)
Lemma scanBy_scanned key timestamps closes rest : forall i st,
  drop i timestamps = rest ->
  scanned key timestamps closes i st ->
  scanned key timestamps closes (length timestamps) (scanBy key closes i rest st).
Proof.
  induction rest as [|t rest IH]; intros i st Hdrop Hst; simpl.
  - assert (Hlen : (length timestamps <= i)%nat).
    { apply (f_equal length) in Hdrop. rewrite length_drop in Hdrop. simpl in Hdrop. lia. }
    destruct Hst as [(Hi & Hd & Hall)|(k & tk & ck & d & Hi & Hk & Hobs & Hkey & Hd & Hmin)].
    + left. repeat split; try assumption.
      intros j t' c' Hj Hobs. apply (Hall j t' c'); [|assumption].
      destruct Hobs as [Ht' _]. apply lookup_lt_Some in Ht'. lia.
    + right. exists k, tk, ck, d. repeat split; try apply Hobs; try assumption.
      * destruct Hobs as [Ht' _]. apply lookup_lt_Some in Ht'. lia.
      * intros j t' c' d' Hj Hobs' Hkey'. apply (Hmin j t' c' d'); try assumption.
        destruct Hobs' as [Ht' _]. apply lookup_lt_Some in Ht'. lia.
  - apply drop_cons_lookup in Hdrop as [Ht Hdrop].
    apply IH; [assumption|]. apply scanned_step; assumption.
Qed.

Lemma scanned_start key timestamps closes :
  scanned key timestamps closes 0 (mkBest (-1) Infinity).
Proof. left. repeat split. intros j t c Hj. lia. Qed.

(** C3.  [findClosestPrice] returns the close of the valid observation
    with the smallest (target - timestamp) among those at or before the
    target; where there is none, the close of the valid observation
    nearest to the target in absolute distance, the lower index winning a
    tie; and it returns [null] exactly when there is no valid
    observation. *)
Theorem findClosestPrice_nearest (timestamps : list Z) (closes : list (option Q))
    (target : Z) :
  findClosest_spec timestamps closes target
    (findClosestPrice timestamps closes target) /\
  (findClosestPrice timestamps closes target = None <->
   forall j t c, ~ observation timestamps closes j t c).
Proof.
  assert (Hspec : findClosest_spec timestamps closes target
                    (findClosestPrice timestamps closes target)).
  { unfold findClosestPrice. rewrite scanBefore_scanBy, scanNearest_scanBy.
    pose proof (scanBy_scanned (keyBefore target) timestamps closes timestamps 0
                  (mkBest (-1) Infinity) eq_refl (scanned_start _ _ _)) as H1.
    set (st1 := scanBy (keyBefore target) closes 0 timestamps (mkBest (-1) Infinity)) in *.
    destruct H1 as [(Hi & Hd & Hall)|(k & t & c & d & Hi & Hk & Hobs & Hkey & Hd & Hmin)].
    - (* nothing at or before the target: the second scan decides *)
      rewrite Hi. simpl.
      assert (Hafter : forall j t' c', observation timestamps closes j t' c' -> target < t').
      { intros j t' c' Hobs. pose proof Hobs as [Ht' _]. apply lookup_lt_Some in Ht'.
        specialize (Hall j t' c' Ht' Hobs). unfold keyBefore in Hall.
        destruct (0 <=? target - t') eqn:E; [discriminate|]. apply Z.leb_gt in E. lia. }
      assert (Hst1 : st1 = mkBest (-1) Infinity) by (destruct st1; simpl in *; congruence).
      pose proof (scanBy_scanned (keyNearest target) timestamps closes timestamps 0
                    st1 eq_refl) as H2.
      rewrite Hst1 in H2 at 1. specialize (H2 (scanned_start _ _ _)).
      set (st2 := scanBy (keyNearest target) closes 0 timestamps st1) in *.
      destruct H2 as [(Hi2 & Hd2 & Hall2)|(k & t & c & d & Hi2 & Hk & Hobs & Hkey & Hd2 & Hmin)].
      + rewrite Hi2. simpl. right. right. split; [|reflexivity].
        intros j t' c' Hobs. pose proof Hobs as [Ht' _]. apply lookup_lt_Some in Ht'.
        specialize (Hall2 j t' c' Ht' Hobs). discriminate.
      + rewrite Hi2. replace (0 <=? Z.of_nat k) with true by (symmetry; apply Z.leb_le; lia).
        rewrite Nat2Z.id. right. left. split; [exact Hafter|].
        exists k, t, c. split; [exact Hobs|]. split.
        * apply closeAt_Some. apply Hobs.
        * intros j t' c' Hobs'. pose proof Hobs' as [Ht' _]. apply lookup_lt_Some in Ht'.
          unfold keyNearest in Hkey. injection Hkey as <-.
          apply (Hmin j t' c' _ Ht' Hobs' eq_refl).
    - (* the first scan found the latest observation at or before the target *)
      rewrite Hi. replace (Z.of_nat k =? -1) with false by (symmetry; apply Z.eqb_neq; lia).
      rewrite Hi. replace (0 <=? Z.of_nat k) with true by (symmetry; apply Z.leb_le; lia).
      rewrite Nat2Z.id. left. exists k, t, c.
      unfold keyBefore in Hkey. destruct (0 <=? target - t) eqn:E; [|discriminate].
      apply Z.leb_le in E. injection Hkey as <-.
      split; [exact Hobs|]. split; [lia|]. split; [apply closeAt_Some; apply Hobs|].
      intros j t' c' Hobs' Hle. pose proof Hobs' as [Ht' _]. apply lookup_lt_Some in Ht'.
      apply (Hmin j t' c' (target - t') Ht' Hobs'). unfold keyBefore.
      replace (0 <=? target - t') with true by (symmetry; apply Z.leb_le; lia).
      reflexivity. }
  split; [exact Hspec|].
  destruct Hspec as [(i & t & c & Hobs & _ & Hr & _)|[(_ & i & t & c & Hobs & Hr & _)|(Hnone & Hr)]].
  - rewrite Hr. split; [discriminate|]. intros H. exfalso. exact (H i t c Hobs).
  - rewrite Hr. split; [discriminate|]. intros H. exfalso. exact (H i t c Hobs).
  - rewrite Hr. split; [intros _; exact Hnone|reflexivity].
Qed.

(** The examples of the specification: the series (100, 10), (200, 20),
    (300, 30) read at 250 and at 50. *)
Example findClosestPrice_250 :
  findClosestPrice [100; 200; 300] [Some 10%Q; Some 20%Q; Some 30%Q] 250 = Some 20%Q.
Proof. reflexivity. Qed.

Example findClosestPrice_50 :
  findClosestPrice [100; 200; 300] [Some 10%Q; Some 20%Q; Some 30%Q] 50 = Some 10%Q.
Proof. reflexivity. Qed.

(** ** Trading-day series *)

Lemma collectTradingDays_valid closes rest : forall i timestamps,
  drop i timestamps = rest ->
  collectTradingDays closes i rest =
  omap (fun i => t ← timestamps !! i; c ← closeAt closes i; Some (TradingDay.mk t c))
       (seq i (length rest)).
Proof.
  induction rest as [|t rest IH]; intros i timestamps Hdrop; simpl; [reflexivity|].
  apply drop_cons_lookup in Hdrop as [Ht Hdrop].
  rewrite Ht. simpl. rewrite (IH (S i) timestamps Hdrop).
  destruct (closeAt closes i); reflexivity.
Qed.

Lemma insertByTs_Permutation x l : insertByTs x l ≡ₚ x :: l.
Proof.
  induction l as [|y l IH]; simpl; [reflexivity|].
  destruct (TradingDay.ts x <=? TradingDay.ts y); [reflexivity|].
  rewrite IH. apply perm_swap.
Qed.

Lemma sortByTs_Permutation l : sortByTs l ≡ₚ l.
Proof.
  induction l as [|x l IH]; simpl; [reflexivity|].
  rewrite insertByTs_Permutation, IH. reflexivity.
Qed.

Lemma insertByTs_sorted x l :
  StronglySorted le_ts l -> StronglySorted le_ts (insertByTs x l).
Proof.
  induction 1 as [|y l Hl IH Hy]; simpl.
  - constructor; constructor.
  - destruct (TradingDay.ts x <=? TradingDay.ts y) eqn:E.
    + apply Z.leb_le in E. constructor; [constructor; assumption|].
      constructor; [exact E|].
      eapply Forall_impl; [exact Hy|]. unfold le_ts. intros; simpl in *; lia.
    + apply Z.leb_gt in E. constructor; [exact IH|].
      rewrite insertByTs_Permutation. constructor; [unfold le_ts; lia|exact Hy].
Qed.

Lemma sortByTs_sorted l : StronglySorted le_ts (sortByTs l).
Proof.
  induction l as [|x l IH]; simpl; [constructor|].
  apply insertByTs_sorted. exact IH.
Qed.

(** The sort is stable: the observations of one timestamp stay in the
    order they had. *)
Lemma insertByTs_atTimestamp t x l :
  atTimestamp t (insertByTs x l) = atTimestamp t (x :: l).
Proof.
  induction l as [|y l IH]; simpl; [reflexivity|].
  destruct (TradingDay.ts x <=? TradingDay.ts y) eqn:E; [reflexivity|].
  apply Z.leb_gt in E. unfold atTimestamp in *. simpl in *. rewrite IH.
  destruct (TradingDay.ts x =? t) eqn:Ex, (TradingDay.ts y =? t) eqn:Ey;
    try reflexivity.
  apply Z.eqb_eq in Ex, Ey. lia.
Qed.

Lemma sortByTs_atTimestamp t l : atTimestamp t (sortByTs l) = atTimestamp t l.
Proof.
  induction l as [|x l IH]; simpl; [reflexivity|].
  rewrite insertByTs_atTimestamp. unfold atTimestamp in *. simpl. rewrite IH.
  reflexivity.
Qed.

Lemma validObservations_observation timestamps closes d :
  d ∈ validObservations timestamps closes <->
  exists i, observation timestamps closes i (TradingDay.ts d) (TradingDay.close d).
Proof.
  unfold validObservations, observation. rewrite list_elem_of_omap. split.
  - intros (i & _ & Hd). exists i.
    destruct (timestamps !! i) as [t|]; [|discriminate]. simpl in Hd.
    destruct (closeAt closes i) as [c|] eqn:Hc; [|discriminate]. simpl in Hd.
    injection Hd as <-. simpl. split; [reflexivity|]. apply closeAt_Some. exact Hc.
  - intros (i & Ht & Hc). exists i. split.
    + apply elem_of_seq. apply lookup_lt_Some in Ht. lia.
    + rewrite Ht. simpl. apply closeAt_Some in Hc. rewrite Hc. simpl.
      destruct d; reflexivity.
Qed.

(** C7, as the code has it.  The series holds exactly the observations
    with a present close, each as often as the response has it, in
    non-decreasing order of timestamp; observations that share a timestamp
    are all kept, in the order of the response. *)
Theorem buildTradingDays_sorted_valid (timestamps : list Z) (closes : list (option Q)) :
  buildTradingDays timestamps closes ≡ₚ validObservations timestamps closes /\
  (forall d, d ∈ buildTradingDays timestamps closes <->
     exists i, observation timestamps closes i (TradingDay.ts d) (TradingDay.close d)) /\
  StronglySorted le_ts (buildTradingDays timestamps closes) /\
  (forall t, atTimestamp t (buildTradingDays timestamps closes) =
             atTimestamp t (validObservations timestamps closes)).
Proof.
  unfold buildTradingDays.
  rewrite (collectTradingDays_valid closes timestamps 0 timestamps eq_refl).
  fold (validObservations timestamps closes).
  refine (conj _ (conj _ (conj _ _))).
  - apply sortByTs_Permutation.
  - intros d. rewrite sortByTs_Permutation. apply validObservations_observation.
  - apply sortByTs_sorted.
  - intros t. apply sortByTs_atTimestamp.
Qed.

(** C7, as the specification words it, fails: a timestamp the provider
    repeats is kept twice. *)
Lemma buildTradingDays_keeps_duplicates :
  buildTradingDays [100; 100] [Some 1%Q; Some 2%Q] =
    [TradingDay.mk 100 1%Q; TradingDay.mk 100 2%Q] /\
  ~ NoDup (TradingDay.ts <$> buildTradingDays [100; 100] [Some 1%Q; Some 2%Q]).
Proof.
  split; [reflexivity|].
  intros H. apply NoDup_cons in H as [H _]. apply H. left.
Qed.

(** ** Single-instrument resolver *)

Lemma scanAnchor_spec series target : forall n,
  (n <= length series)%nat ->
  (scanAnchor series target n = -1 /\
   forall j d, (j < n)%nat -> series !! j = Some d -> target < TradingDay.ts d)
  \/ (exists i d, scanAnchor series target n = Z.of_nat i /\ (i < n)%nat /\
        series !! i = Some d /\ TradingDay.ts d <= target /\
        forall j d', (i < j < n)%nat -> series !! j = Some d' ->
          target < TradingDay.ts d').
Proof.
  induction n as [|n IH]; intros Hn; simpl.
  - left. split; [reflexivity|]. intros j d Hj. lia.
  - destruct (lookup_lt_is_Some_2 series n) as [d Hd]; [lia|]. rewrite Hd.
    destruct (TradingDay.ts d <=? target) eqn:E.
    + apply Z.leb_le in E. right. exists n, d.
      repeat split; try assumption; [lia|]. intros j d' Hj. lia.
    + apply Z.leb_gt in E.
      destruct IH as [(Hm & Hall)|(i & di & Hi & Hlt & Hdi & Hle & Hall)]; [lia| |].
      * left. split; [exact Hm|]. intros j d' Hj Hd'.
        destruct (decide (j = n)) as [->|Hne]; [congruence|].
        apply (Hall j d'); [lia|exact Hd'].
      * right. exists i, di. repeat split; try assumption; [lia|].
        intros j d' Hj Hd'. destruct (decide (j = n)) as [->|Hne]; [congruence|].
        apply (Hall j d'); [lia|exact Hd'].
Qed.

(** The anchor index is an index of the series, and it is the anchor. *)
Lemma anchorIndex_spec series target :
  series <> [] ->
  exists i, anchorIndex series target = Z.of_nat i /\ (i < length series)%nat /\
            anchor_at series target i.
Proof.
  intros Hne. unfold anchorIndex.
  assert (Hlen : (0 < length series)%nat) by (destruct series; simpl; [congruence|lia]).
  destruct (scanAnchor_spec series target (length series) (le_n _))
    as [(Hm & Hall)|(i & d & Hi & Hlt & Hd & Hle & Hall)].
  - rewrite Hm. simpl. exists 0%nat. repeat split; [exact Hlen|].
    right. split; [reflexivity|]. intros d Hd.
    apply list_elem_of_lookup in Hd as [j Hj].
    apply (Hall j d); [|exact Hj]. apply lookup_lt_Some in Hj. exact Hj.
  - rewrite Hi. replace (Z.of_nat i =? -1) with false by (symmetry; apply Z.eqb_neq; lia).
    exists i. repeat split; [exact Hlt|]. left. exists d. repeat split; try assumption.
    intros j d' Hj Hd'. apply (Hall j d'); [|exact Hd'].
    apply lookup_lt_Some in Hd'. lia.
Qed.

Lemma element_lookup {A : Type} host (a : list A) (i : nat) (x : A) :
  a !! i = Some x -> element host a (Z.of_nat i) = Normal x.
Proof.
  intros H. unfold element.
  replace (0 <=? Z.of_nat i) with true by (symmetry; apply Z.leb_le; lia).
  rewrite Nat2Z.id, H. reflexivity.
Qed.

(** What the resolver returns for a series that is not empty. *)
Lemma resolveSeries_anchor host timestamps closes series target :
  series <> [] ->
  exists i anchor,
    anchor_at series target i /\ series !! i = Some anchor /\
    resolveSeries host timestamps closes series target =
    Normal (PriceResult.mk
      (Some (inject_Z (Math_round (TradingDay.close anchor * 10)) / 10)%Q)
      (Some (formatActualDate host (TradingDay.ts anchor)))
      (calcChangeRate (Some (TradingDay.close anchor))
         (match i with
          | O => None
          | S i' => TradingDay.close <$> series !! i'
          end))
      (calcChangeRate (Some (TradingDay.close anchor))
         (findClosestPrice timestamps closes (TradingDay.ts anchor - 7 * 86400)))
      (calcChangeRate (Some (TradingDay.close anchor))
         (findClosestPrice timestamps closes (TradingDay.ts anchor - 14 * 86400)))
      (calcChangeRate (Some (TradingDay.close anchor))
         (findClosestPrice timestamps closes (TradingDay.ts anchor - 30 * 86400)))
      (calcChangeRate (Some (TradingDay.close anchor))
         (findClosestPrice timestamps closes (TradingDay.ts anchor - 180 * 86400)))
      None).
Proof.
  intros Hne.
  destruct (anchorIndex_spec series target Hne) as (i & Hi & Hlt & Hanchor).
  destruct (lookup_lt_is_Some_2 series i Hlt) as [anchor Ha].
  exists i, anchor. split; [exact Hanchor|]. split; [exact Ha|].
  unfold resolveSeries. rewrite Hi, (element_lookup host series i anchor Ha).
  unfold mbind, Completion_bind. simpl bindC.
  destruct i as [|i'].
  - reflexivity.
  - replace (1 <=? Z.of_nat (S i')) with true by (symmetry; apply Z.leb_le; lia).
    destruct (lookup_lt_is_Some_2 series i') as [prev Hp]; [lia|].
    replace (Z.of_nat (S i') - 1) with (Z.of_nat i') by lia.
    rewrite (element_lookup host series i' prev Hp), Hp. reflexivity.
Qed.

Lemma fetchClosingPrice_chartResponse host ticker targetDateStr status
    timestamps closes more :
  usableTicker ticker ->
  buildTradingDays timestamps closes <> [] ->
  fetchClosingPrice host ticker targetDateStr
    (chartResponse status timestamps closes more) =
  match resolveSeries host timestamps closes (buildTradingDays timestamps closes)
          (targetTimestamp host targetDateStr) with
  | Normal result => result
  | Throw message => withError nullResult message
  end.
Proof.
  intros [Hticker Hwf] Hne.
  unfold fetchClosingPrice, tryBlock, encodeURIComponent, chartResponse, tryFetch.
  rewrite Hticker, Hwf. simpl.
  destruct timestamps as [|t timestamps]; [exfalso; apply Hne; reflexivity|].
  destruct closes as [|c closes].
  { exfalso. apply Hne. unfold buildTradingDays.
    rewrite (collectTradingDays_valid [] (t :: timestamps) 0 (t :: timestamps) eq_refl).
    generalize (seq 0 (length (t :: timestamps))). intros l.
    induction l as [|i l IH]; [reflexivity|]. simpl.
    destruct ((t :: timestamps) !! i); simpl; exact IH. }
  simpl length. simpl orb.
  destruct (buildTradingDays (t :: timestamps) (c :: closes)) eqn:E; [congruence|].
  reflexivity.
Qed.

Lemma formatActualDate_civil host actualTs :
  formatActualDate host actualTs =
  let '(y, m, d) := civil_from_days (LocalTime host (actualTs * 1000) / msPerDay) in
  String_of_Z y ++ lit "/" ++ padStart2 (String_of_Z m) ++ lit "/"
  ++ padStart2 (String_of_Z d).
Proof.
  unfold formatActualDate, getFullYear, getMonth, getDate,
    YearFromTime, MonthFromTime, DateFromTime.
  generalize (civil_from_days (LocalTime host (actualTs * 1000) / msPerDay)).
  intros [[y m] d]. cbn [fst snd].
  replace (m - 1 + 1) with m by lia. reflexivity.
Qed.

(** C1.  For a ticker the resolver makes a request for and a response
    whose series is not empty, the anchor is the last observation of the
    sorted series at or before the target timestamp, or the first
    observation when none is; the reported price is the anchor's close
    rounded to one decimal (the tenth nearest to it), and [actualDate] is
    the calendar date of the anchor's timestamp on the clock of the
    machine. *)
Theorem fetchClosingPrice_anchor (host : Host) (ticker : option JSString)
    (targetDateStr : JSString) (status : Z) (timestamps : list Z)
    (closes : list (option Q)) (more : list (option ChartResult)) :
  usableTicker ticker ->
  buildTradingDays timestamps closes <> [] ->
  let series := buildTradingDays timestamps closes in
  let result :=
    fetchClosingPrice host ticker targetDateStr
      (chartResponse status timestamps closes more) in
  exists (i : nat) (anchor : TradingDay.t) (n : Z),
    anchor_at series (targetTimestamp host targetDateStr) i /\
    series !! i = Some anchor /\
    PriceResult.price result = Some (inject_Z n / 10)%Q /\
    (TradingDay.close anchor * 10 - (1 # 2) < inject_Z n)%Q /\
    (inject_Z n <= TradingDay.close anchor * 10 + (1 # 2))%Q /\
    PriceResult.actualDate result =
      Some (let '(y, m, d) :=
              civil_from_days
                (LocalTime host (TradingDay.ts anchor * 1000) / msPerDay) in
            String_of_Z y ++ lit "/" ++ padStart2 (String_of_Z m) ++ lit "/"
            ++ padStart2 (String_of_Z d)).
Proof.
  intros Hticker Hne series result. subst result.
  rewrite (fetchClosingPrice_chartResponse _ _ _ _ _ _ _ Hticker Hne).
  destruct (resolveSeries_anchor host timestamps closes series
              (targetTimestamp host targetDateStr) Hne) as (i & anchor & Hanchor & Ha & Hres).
  fold series. rewrite Hres. cbn [PriceResult.price PriceResult.actualDate].
  exists i, anchor, (Math_round (TradingDay.close anchor * 10)).
  repeat split; try assumption; try apply Math_round_bounds.
  rewrite formatActualDate_civil. reflexivity.
Qed.

(** C4.  For a ticker the resolver makes a request for and a response
    whose series is not empty, [change1d] compares the anchor with the
    element just before it in the sorted series, whatever the calendar
    distance of the two; it is [null] when the anchor is the first
    element. *)
Theorem fetchClosingPrice_change1d (host : Host) (ticker : option JSString)
    (targetDateStr : JSString) (status : Z) (timestamps : list Z)
    (closes : list (option Q)) (more : list (option ChartResult)) :
  usableTicker ticker ->
  buildTradingDays timestamps closes <> [] ->
  let series := buildTradingDays timestamps closes in
  let result :=
    fetchClosingPrice host ticker targetDateStr
      (chartResponse status timestamps closes more) in
  exists (i : nat) (anchor : TradingDay.t),
    anchor_at series (targetTimestamp host targetDateStr) i /\
    series !! i = Some anchor /\
    match i with
    | O => PriceResult.change1d result = None
    | S i' =>
        exists previous, series !! i' = Some previous /\
          PriceResult.change1d result =
          calcChangeRate (Some (TradingDay.close anchor))
                         (Some (TradingDay.close previous))
    end.
Proof.
  intros Hticker Hne series result. subst result.
  rewrite (fetchClosingPrice_chartResponse _ _ _ _ _ _ _ Hticker Hne).
  destruct (resolveSeries_anchor host timestamps closes series
              (targetTimestamp host targetDateStr) Hne) as (i & anchor & Hanchor & Ha & Hres).
  fold series. rewrite Hres. cbn [PriceResult.change1d].
  exists i, anchor. split; [exact Hanchor|]. split; [exact Ha|].
  destruct i as [|i'].
  - reflexivity.
  - destruct (lookup_lt_is_Some_2 series i') as [prev Hp].
    { apply lookup_lt_Some in Ha. lia. }
    exists prev. split; [exact Hp|]. rewrite Hp. reflexivity.
Qed.

(** The two theorems at the example of the specification. *)
Lemma fetchClosingPrice_anchor_witness :
  exists (i : nat) (anchor : TradingDay.t) (n : Z),
    anchor_at (buildTradingDays [100; 200; 300] [Some 10%Q; Some 20%Q; Some 30%Q])
      250 i /\
    buildTradingDays [100; 200; 300] [Some 10%Q; Some 20%Q; Some 30%Q] !! i
      = Some anchor /\
    PriceResult.price exampleResult = Some (inject_Z n / 10)%Q /\
    (TradingDay.close anchor * 10 - (1 # 2) < inject_Z n)%Q /\
    (inject_Z n <= TradingDay.close anchor * 10 + (1 # 2))%Q /\
    PriceResult.actualDate exampleResult =
      Some (let '(y, m, d) :=
              civil_from_days
                (LocalTime exampleHost (TradingDay.ts anchor * 1000) / msPerDay) in
            String_of_Z y ++ lit "/" ++ padStart2 (String_of_Z m) ++ lit "/"
            ++ padStart2 (String_of_Z d)).
Proof.
  exact (fetchClosingPrice_anchor exampleHost (Some (lit "1301.T")) (lit "19700101")
           200 [100; 200; 300] [Some 10%Q; Some 20%Q; Some 30%Q] []
           (conj eq_refl eq_refl) ltac:(vm_compute; discriminate)).
Defined.

Lemma fetchClosingPrice_change1d_witness :
  exists (i : nat) (anchor : TradingDay.t),
    anchor_at (buildTradingDays [100; 200; 300] [Some 10%Q; Some 20%Q; Some 30%Q])
      250 i /\
    buildTradingDays [100; 200; 300] [Some 10%Q; Some 20%Q; Some 30%Q] !! i
      = Some anchor /\
    match i with
    | O => PriceResult.change1d exampleResult = None
    | S i' =>
        exists previous,
          buildTradingDays [100; 200; 300] [Some 10%Q; Some 20%Q; Some 30%Q] !! i'
            = Some previous /\
          PriceResult.change1d exampleResult =
          calcChangeRate (Some (TradingDay.close anchor))
                         (Some (TradingDay.close previous))
    end.
Proof.
  exact (fetchClosingPrice_change1d exampleHost (Some (lit "1301.T")) (lit "19700101")
           200 [100; 200; 300] [Some 10%Q; Some 20%Q; Some 30%Q] []
           (conj eq_refl eq_refl) ltac:(vm_compute; discriminate)).
Defined.

(** The examples of the specification: the target 250 anchors at the
    observation of 200, and the day before it is the observation of 100;
    the target 50 falls back to the first observation. *)
Example anchorIndex_250 :
  anchorIndex (buildTradingDays [100; 200; 300] [Some 10%Q; Some 20%Q; Some 30%Q]) 250 = 1.
Proof. reflexivity. Qed.

Example anchorIndex_50 :
  anchorIndex (buildTradingDays [100; 200; 300] [Some 10%Q; Some 20%Q; Some 30%Q]) 50 = 0.
Proof. reflexivity. Qed.

Example exampleResult_price_change1d :
  num_eq (PriceResult.price exampleResult) (Some 20%Q) /\
  num_eq (PriceResult.change1d exampleResult) (Some 100%Q) /\
  PriceResult.actualDate exampleResult = Some (lit "1970/01/01").
Proof. vm_compute. repeat split. Qed.

Lemma resolveSeries_wellFormed host timestamps closes series target result :
  resolveSeries host timestamps closes series target = Normal result ->
  PriceResult.price result <> None /\ PriceResult.error result = None.
Proof.
  unfold resolveSeries, mbind, Completion_bind.
  destruct (element host series (anchorIndex series target)) as [current|m];
    cbn [bindC]; [|discriminate].
  destruct (1 <=? anchorIndex series target).
  - destruct (element host series (anchorIndex series target - 1)) as [prev|m];
      cbn [bindC]; [|discriminate].
    intros [= <-]. cbn [PriceResult.price PriceResult.error]. split; congruence.
  - cbn [bindC]. intros [= <-]. cbn [PriceResult.price PriceResult.error].
    split; congruence.
Qed.

Lemma withError_wellFormed message : wellFormed (withError nullResult message).
Proof.
  unfold wellFormed, withError, nullResult. cbn. repeat split; congruence.
Qed.

Lemma tryFetch_wellFormed host targetDateStr net result :
  tryFetch host targetDateStr net = Normal result -> wellFormed result.
Proof.
  unfold tryFetch. destruct net as [message|ok status body]; [discriminate|].
  destruct ok; cbn [negb]; [|intros [= <-]; apply withError_wellFormed].
  destruct body as [message|data]; unfold mbind, Completion_bind; cbn [bindC];
    [discriminate|].
  destruct data as [| | |[|[chart|] more]];
    try discriminate; try (intros [= <-]; apply withError_wellFormed).
  destruct (_ || _); [intros [= <-]; apply withError_wellFormed|].
  destruct (_ =? _)%nat; [intros [= <-]; apply withError_wellFormed|].
  intros H. apply resolveSeries_wellFormed in H as [Hp He].
  unfold wellFormed. rewrite He. split; [split; congruence|congruence].
Qed.

Lemma tryBlock_wellFormed host ticker targetDateStr net result :
  tryBlock host ticker targetDateStr net = Normal result -> wellFormed result.
Proof.
  unfold tryBlock, encodeURIComponent, mbind, Completion_bind.
  destruct (wellFormedUTF16 ticker); cbn [bindC]; [|discriminate].
  apply tryFetch_wellFormed.
Qed.

(** C6.  [fetchClosingPrice] yields a result for every ticker, date and
    outcome of the request, a rejected request, an unreadable body and an
    error raised on the way included: what is thrown inside is caught and
    becomes the [error] of the result.  In the result [price] is [null]
    exactly when [error] is not, and with an error the price and the five
    changes are all [null]. *)
Theorem fetchClosingPrice_wellFormed (host : Host) (ticker : option JSString)
    (targetDateStr : JSString) (net : FetchOutcome) :
  wellFormed (fetchClosingPrice host ticker targetDateStr net) /\
  (forall message,
     tryBlock host (default [] ticker) targetDateStr net = Throw message ->
     truthy ticker = true ->
     fetchClosingPrice host ticker targetDateStr net = withError nullResult message).
Proof.
  unfold fetchClosingPrice. split.
  - destruct (truthy ticker); cbn [negb]; [|apply withError_wellFormed].
    destruct (tryBlock host (default [] ticker) targetDateStr net)
      as [result|message] eqn:E.
    + eapply tryBlock_wellFormed. exact E.
    + apply withError_wellFormed.
  - intros message -> ->. reflexivity.
Qed.

(** The failures of the resolver, each with its message. *)
Lemma fetchClosingPrice_failures (host : Host) (targetDateStr : JSString) :
  (forall net, fetchClosingPrice host None targetDateStr net
               = withError nullResult msg_invalidTicker) /\
  (forall net, fetchClosingPrice host (Some []) targetDateStr net
               = withError nullResult msg_invalidTicker) /\
  (forall ticker net, truthy ticker = true ->
     wellFormedUTF16 (default [] ticker) = false ->
     fetchClosingPrice host ticker targetDateStr net
     = withError nullResult (uriErrorMessage host)) /\
  (forall ticker message, usableTicker ticker ->
     fetchClosingPrice host ticker targetDateStr (FetchRejected message)
     = withError nullResult message) /\
  (forall ticker status body, usableTicker ticker ->
     fetchClosingPrice host ticker targetDateStr (FetchResponse false status body)
     = withError nullResult (msg_http status)) /\
  (forall ticker status message, usableTicker ticker ->
     fetchClosingPrice host ticker targetDateStr
       (FetchResponse true status (JsonRejected message))
     = withError nullResult message) /\
  (forall ticker status, usableTicker ticker ->
     fetchClosingPrice host ticker targetDateStr
       (FetchResponse true status (JsonParsed (DataResult [])))
     = withError nullResult msg_noData) /\
  (forall ticker status more, usableTicker ticker ->
     fetchClosingPrice host ticker targetDateStr
       (FetchResponse true status (JsonParsed (DataResult (None :: more))))
     = withError nullResult (typeErrorMessage host)) /\
  (forall ticker status closes more, usableTicker ticker ->
     fetchClosingPrice host ticker targetDateStr (chartResponse status [] closes more)
     = withError nullResult msg_noChartData) /\
  (forall ticker status t timestamps n more, usableTicker ticker ->
     fetchClosingPrice host ticker targetDateStr
       (chartResponse status (t :: timestamps) (replicate (S n) None) more)
     = withError nullResult msg_noValidClose).
Proof.
  unfold fetchClosingPrice, tryBlock, encodeURIComponent, chartResponse, tryFetch,
    usableTicker.
  repeat split; intros; try reflexivity;
    repeat match goal with
           | H : _ /\ _ |- _ => destruct H
           | H : truthy _ = true |- _ => rewrite H; clear H
           | H : wellFormedUTF16 _ = _ |- _ => rewrite H; clear H
           end;
    try reflexivity.
  cbn [negb default timestamp close length Nat.eqb orb replicate mbind
       Completion_bind bindC].
  assert (Hnone : forall l i, collectTradingDays (replicate (S n) None) i l = []).
  { induction l as [|x l IH]; intros i; [reflexivity|]. cbn [collectTradingDays].
    assert (Hc : closeAt (replicate (S n) None) i = None).
    { unfold closeAt. destruct (replicate (S n) None !! i) eqn:E; [|reflexivity].
      apply lookup_replicate in E as [-> _]. reflexivity. }
    rewrite Hc. apply IH. }
  unfold buildTradingDays. rewrite Hnone. reflexivity.
Qed.

Example fetchClosingPrice_http_500 :
  PriceResult.error
    (fetchClosingPrice exampleHost (Some (lit "1301.T")) (lit "19700101")
       (FetchResponse false 500 (JsonRejected [])))
  = Some (lit "HTTP 500").
Proof. reflexivity. Qed.

(** ** Reference date *)

(** The calendar and the decimal notation on known values. *)
Example civil_from_days_epoch : civil_from_days 0 = (1970, 1, 1).
Proof. reflexivity. Qed.

Example civil_from_days_before_epoch : civil_from_days (-1) = (1969, 12, 31).
Proof. reflexivity. Qed.

Example civil_from_days_leap_day : civil_from_days 19782 = (2024, 2, 29).
Proof. reflexivity. Qed.

Example civil_from_days_century : civil_from_days 11016 = (2000, 2, 29).
Proof. reflexivity. Qed.

Example String_of_Z_values :
  String_of_Z 0 = lit "0" /\ String_of_Z 2024 = lit "2024" /\
  String_of_Z (-5) = lit "-5" /\ padStart2 (String_of_Z 3) = lit "03" /\
  padStart2 (String_of_Z 12) = lit "12".
Proof. repeat split. Qed.

Lemma minute_of_day (t : Z) :
  HourFromTime t * 60 + MinFromTime t = (t mod msPerDay) / 60000.
Proof.
  unfold HourFromTime, MinFromTime, msPerDay.
  Z.div_mod_to_equations. lia.
Qed.

Lemma day_before (t : Z) : (t - 24 * 60 * 60 * 1000) / msPerDay = t / msPerDay - 1.
Proof. unfold msPerDay. Z.div_mod_to_equations. lia. Qed.

Lemma format_civil (t : Z) :
  String_of_Z (YearFromTime t) ++ padStart2 (String_of_Z (MonthFromTime t + 1))
    ++ padStart2 (String_of_Z (DateFromTime t)) = yyyymmdd (t / msPerDay).
Proof.
  unfold YearFromTime, MonthFromTime, DateFromTime, yyyymmdd.
  generalize (civil_from_days (t / msPerDay)). intros [[y m] d]. cbn [fst snd].
  replace (m - 1 + 1) with m by lia. reflexivity.
Qed.

(** On a machine whose offset from UTC is the same at the instant, at the
    shifted instant the code builds and a day before it (a machine on
    Tokyo time, or on any zone without clock changes), [getTargetDate]
    follows the rule of the specification. *)
Lemma getTargetDate_stable_offset (host : Host) (now : Z) :
  let jstDate := now + getTimezoneOffset host now * 60 * 1000 + 9 * 60 * 60 * 1000 in
  getTimezoneOffset host jstDate = getTimezoneOffset host now ->
  getTimezoneOffset host (jstDate - 24 * 60 * 60 * 1000) = getTimezoneOffset host now ->
  getTargetDate host now = referenceDate_spec now.
Proof.
  intros jstDate H1 H2. unfold getTargetDate, referenceDate_spec.
  fold jstDate.
  assert (Hlocal : LocalTime host jstDate = now + 9 * 3600000)
    by (unfold LocalTime; rewrite H1; unfold jstDate; lia).
  assert (Hlocal' : LocalTime host (jstDate - 24 * 60 * 60 * 1000)
                    = now + 9 * 3600000 - 24 * 60 * 60 * 1000)
    by (unfold LocalTime; rewrite H2; unfold jstDate; lia).
  unfold getHours, getMinutes, getFullYear, getMonth, getDate.
  rewrite Hlocal, minute_of_day. fold (jstMinuteOfDay now).
  destruct ((540 <=? jstMinuteOfDay now) && (jstMinuteOfDay now <? 900)).
  - rewrite Hlocal', format_civil, day_before. reflexivity.
  - rewrite Hlocal, format_civil. reflexivity.
Qed.

Lemma getTargetDate_tokyo (now : Z) :
  getTargetDate tokyoHost now = referenceDate_spec now.
Proof. apply getTargetDate_stable_offset; reflexivity. Qed.

(** The examples of the specification on Tokyo time, with D the 11th of
    March 2024: at 10:30 the date is D - 1, at 16:00 and at 08:59 it is D;
    09:00 is inside the window and 15:00 is outside. *)
Example getTargetDate_1030 : getTargetDate tokyoHost 1710120600000 = lit "20240310".
Proof. vm_compute. reflexivity. Qed.

Example getTargetDate_1600 : getTargetDate tokyoHost 1710140400000 = lit "20240311".
Proof. vm_compute. reflexivity. Qed.

Example getTargetDate_0859 : getTargetDate tokyoHost 1710115140000 = lit "20240311".
Proof. vm_compute. reflexivity. Qed.

Example getTargetDate_0900 : getTargetDate tokyoHost 1710115200000 = lit "20240310".
Proof. vm_compute. reflexivity. Qed.

Example getTargetDate_1459 : getTargetDate tokyoHost 1710136740000 = lit "20240310".
Proof. vm_compute. reflexivity. Qed.

Example getTargetDate_1500 : getTargetDate tokyoHost 1710136800000 = lit "20240311".
Proof. vm_compute. reflexivity. Qed.

(** C5 at 2024-03-09 23:30 UTC on New York time.  In Tokyo it is 08:30
    on the 10th, outside the session, and the rule gives the 10th.  The
    code shifts the instant by the offset in force now and reads the
    result with the offset in force at the shifted instant, an hour less
    once the clocks have gone forward: it sees 09:30 and returns the 9th. *)
Theorem getTargetDate_clock_change :
  jstMinuteOfDay 1710027000000 = 8 * 60 + 30 /\
  referenceDate_spec 1710027000000 = lit "20240310" /\
  getTargetDate newYorkHost 1710027000000 = lit "20240309" /\
  getTargetDate newYorkHost 1710027000000 <> referenceDate_spec 1710027000000.
Proof.
  refine (conj _ (conj _ (conj _ _))); vm_compute; congruence.
Qed.

(** ** Batch orchestrator *)

Section Run.
Variables (host : Host) (targetDateStr : JSString) (net : Stock.t -> FetchOutcome).
Variable order : Z -> list Stock.t -> list Stock.t.
Hypothesis order_Permutation : forall i batch, order i batch ≡ₚ batch.

Local Abbreviation resolve := (resultOf host targetDateStr net).

(** The instruments of [l] settle one after the other. *)
Lemma foldl_settle total l : forall run,
  let run' := foldl (settle host targetDateStr net total) run l in
  closingPrices run' = foldl (storeResult resolve) (closingPrices run) l /\
  errorMessages run' =
    errorMessages run
    ++ ((fun s => errorEntry s (resolve s)) <$> filter (fails host targetDateStr net) l) /\
  completed run' = completed run + Z.of_nat (length l) /\
  progressOf (trace run') =
    progressOf (trace run)
    ++ ((fun k => (k, total)) <$> seqZ (completed run + 1) (Z.of_nat (length l))) /\
  pacingOf (trace run') = pacingOf (trace run).
Proof.
  induction l as [|s l IH]; intros run; cbn [foldl].
  - cbn. rewrite !app_nil_r. repeat split; lia.
  - specialize (IH (settle host targetDateStr net total run s)).
    cbv zeta in IH. destruct IH as (Hp & He & Hc & Hg & Hs).
    cbv zeta. rewrite Hp, He, Hc, Hg, Hs. clear Hp He Hc Hg Hs.
    unfold settle, emit. cbn [closingPrices errorMessages completed trace].
    unfold progressOf, pacingOf. rewrite !omap_app. cbn [omap].
    rewrite app_nil_r.
    refine (conj _ (conj _ (conj _ (conj _ _)))).
    + reflexivity.
    + rewrite filter_cons.
      change (fetchClosingPrice host (Stock.ticker s) targetDateStr (net s))
        with (resolve s).
      destruct (decide (fails host targetDateStr net s)) as [Hf|Hf].
      * apply Is_true_true_1 in Hf.
        change (truthy (PriceResult.error (resolve s)) = true) in Hf.
        rewrite Hf, fmap_cons, <- app_assoc. reflexivity.
      * apply Is_true_false_1 in Hf.
        change (truthy (PriceResult.error (resolve s)) = false) in Hf.
        rewrite Hf. reflexivity.
    + cbn [length]. lia.
    + rewrite <- app_assoc. f_equal. cbn [length].
      rewrite (seqZ_cons (completed run + 1) (Z.of_nat (S (length l)))) by lia.
      rewrite fmap_cons. cbn [app]. do 3 f_equal; lia.
    + reflexivity.
Qed.

Lemma Batches_nonempty rest batches : Batches rest batches -> rest <> [] -> batches <> [].
Proof. intros H Hne. destruct H; congruence. Qed.

Lemma pacingOf_app l1 l2 : pacingOf (l1 ++ l2) = pacingOf l1 ++ pacingOf l2.
Proof. apply omap_app. Qed.

Lemma Batches_nil_inv batches : Batches [] batches -> batches = [].
Proof.
  intros H. remember [] as l eqn:El. destruct H as [|batch Hlen|batch rest batches Hlen Hne H].
  - reflexivity.
  - subst batch. cbn in Hlen. lia.
  - apply app_eq_nil in El as [-> _]. cbn in Hlen. discriminate.
Qed.

Lemma pacing_cons batch batches :
  batches <> [] ->
  pacing (batch :: batches) = BatchIssued batch :: Sleep BATCH_DELAY_MS :: pacing batches.
Proof. destruct batches; [congruence|reflexivity]. Qed.

(** The loop from index [i] on, with fuel for what is left. *)
Lemma batchLoop_spec stocks : forall fuel i run,
  0 <= i ->
  Z.of_nat (length stocks) - i <= Z.of_nat fuel ->
  let total := Z.of_nat (length stocks) in
  let rest := drop (Z.to_nat i) stocks in
  let run' := batchLoop fuel host targetDateStr net order stocks total i run in
  exists batches settled,
    Batches rest batches /\ settled ≡ₚ rest /\
    closingPrices run' = foldl (storeResult resolve) (closingPrices run) settled /\
    errorMessages run' =
      errorMessages run
      ++ ((fun s => errorEntry s (resolve s))
            <$> filter (fails host targetDateStr net) settled) /\
    completed run' = completed run + Z.of_nat (length rest) /\
    progressOf (trace run') =
      progressOf (trace run)
      ++ ((fun k => (k, total)) <$> seqZ (completed run + 1) (Z.of_nat (length rest))) /\
    pacingOf (trace run') = pacingOf (trace run) ++ pacing batches.
Proof.
  induction fuel as [|fuel IH]; intros i run Hi Hfuel total rest run'.
  - assert (Hrest : rest = []) by (apply drop_ge; lia).
    exists [], []. rewrite Hrest. subst run'. cbn.
    rewrite !app_nil_r. repeat split; try reflexivity; try constructor; lia.
  - subst run'. cbn [batchLoop]. destruct (i <? total) eqn:Elt.
    2:{ apply Z.ltb_ge in Elt.
        assert (Hrest : rest = []) by (apply drop_ge; lia).
        exists [], []. rewrite Hrest. cbn.
        rewrite !app_nil_r. repeat split; try reflexivity; try constructor; lia. }
    apply Z.ltb_lt in Elt.
    set (batch := slice stocks i (i + BATCH_SIZE)).
    set (run1 := emit (BatchIssued batch) run).
    set (run2 := foldl (settle host targetDateStr net total) run1 (order i batch)).
    set (run3 := if i + BATCH_SIZE <? total then emit (Sleep BATCH_DELAY_MS) run2 else run2).
    assert (Hbatch : batch = take 5 rest).
    { unfold batch, slice, rest, BATCH_SIZE. f_equal. lia. }
    assert (Hsplit : rest = batch ++ drop (Z.to_nat (i + BATCH_SIZE)) stocks).
    { rewrite Hbatch. unfold rest, BATCH_SIZE.
      replace (Z.to_nat (i + 5)) with (Z.to_nat i + 5)%nat by lia.
      rewrite <- drop_drop, take_drop. reflexivity. }
    assert (Hlen : length rest = Z.to_nat (total - i)).
    { unfold rest. rewrite length_drop. unfold total. lia. }
    destruct (foldl_settle total (order i batch) run1) as (Hp & He & Hc & Hg & Hs).
    fold run2 in Hp, He, Hc, Hg, Hs.
    assert (Hord : length (order i batch) = length batch)
      by (rewrite order_Permutation; reflexivity).
    rewrite Hord in Hc, Hg.
    assert (H3 : closingPrices run3 = closingPrices run2 /\
                 errorMessages run3 = errorMessages run2 /\
                 completed run3 = completed run2 /\
                 progressOf (trace run3) = progressOf (trace run2)).
    { unfold run3. destruct (i + BATCH_SIZE <? total); [|repeat split].
      unfold emit, progressOf. cbn [closingPrices errorMessages completed trace].
      rewrite omap_app. cbn. rewrite app_nil_r. repeat split. }
    destruct H3 as (Hp3 & He3 & Hc3 & Hg3).
    destruct (IH (i + BATCH_SIZE) run3) as
      (batches & settled & HB & Hperm & Hp' & He' & Hc' & Hg' & Hs');
      [unfold BATCH_SIZE; lia|unfold BATCH_SIZE; lia|].
    fold total in Hp', He', Hc', Hg', Hs'.
    set (rest' := drop (Z.to_nat (i + BATCH_SIZE)) stocks) in *.
    exists (batch :: batches), (order i batch ++ settled).
    rewrite Hp', He', Hc', Hg', Hs', Hp3, He3, Hc3, Hg3, Hp, He, Hc, Hg.
    clear Hp' He' Hc' Hg' Hs' Hp3 He3 Hc3 Hg3 Hp He Hc Hg.
    assert (Hblen : length batch = Z.to_nat (Z.min 5 (total - i))).
    { rewrite Hbatch, length_take. lia. }
    assert (Hrlen : length rest' = Z.to_nat (total - i - 5)).
    { unfold rest'. rewrite length_drop. unfold total, BATCH_SIZE. lia. }
    unfold run1, emit. cbn [closingPrices errorMessages completed trace].
    refine (conj _ (conj _ (conj _ (conj _ (conj _ (conj _ _)))))).
    + (* the cut *)
      rewrite Hsplit. fold rest'. destruct (decide (rest' = [])) as [Hnil|Hne].
      * rewrite Hnil in HB. apply Batches_nil_inv in HB. rewrite HB, Hnil, app_nil_r.
        apply Batches_last. rewrite Hblen. unfold BATCH_SIZE. lia.
      * apply Batches_cons; [|exact Hne|exact HB].
        rewrite Hblen. unfold BATCH_SIZE.
        destruct rest'; [congruence|]. cbn in Hrlen. lia.
    + rewrite Hsplit. fold rest'. rewrite order_Permutation, Hperm. reflexivity.
    + rewrite foldl_app. reflexivity.
    + rewrite filter_app, fmap_app, app_assoc. reflexivity.
    + rewrite Hsplit, length_app. lia.
    + unfold progressOf at 1. rewrite omap_app. cbn [omap]. rewrite app_nil_r.
      fold (progressOf (trace run)). rewrite <- !app_assoc. f_equal.
      rewrite <- fmap_app. f_equal.
      rewrite Hsplit, length_app, Nat2Z.inj_add.
      rewrite seqZ_app by lia. f_equal. f_equal. lia.
    + unfold run3. destruct (i + BATCH_SIZE <? total) eqn:E.
      * apply Z.ltb_lt in E.
        assert (Hne : rest' <> []) by (destruct rest'; [cbn in Hrlen; unfold BATCH_SIZE in E; lia|congruence]).
        rewrite (pacing_cons batch batches (Batches_nonempty _ _ HB Hne)).
        unfold emit. cbn [trace]. rewrite pacingOf_app, Hs.
        unfold run1, emit. cbn [trace]. rewrite pacingOf_app.
        rewrite <- !app_assoc. reflexivity.
      * apply Z.ltb_ge in E.
        assert (Hnil : rest' = []) by (apply length_zero_iff_nil; unfold BATCH_SIZE in E; lia).
        rewrite Hnil in HB. apply Batches_nil_inv in HB. rewrite HB. cbn [pacing].
        rewrite Hs. unfold run1, emit. cbn [trace]. rewrite pacingOf_app.
        rewrite <- !app_assoc. reflexivity.
Qed.
End Run.

Lemma Batches_twelve (stocks : list Stock.t) (batches : list (list Stock.t)) :
  Batches stocks batches -> length stocks = 12%nat ->
  exists b1 b2 b3,
    stocks = b1 ++ b2 ++ b3 /\ batches = [b1; b2; b3] /\
    length b1 = 5%nat /\ length b2 = 5%nat /\ length b3 = 2%nat.
Proof.
  change (Z.to_nat BATCH_SIZE) with 5%nat in *.
  intros H Hlen.
  destruct H as [|b1 H1|b1 rest1 batches1 H1 _ H];
    change (Z.to_nat BATCH_SIZE) with 5%nat in *;
    rewrite ?length_app, ?length_nil in Hlen; try lia.
  destruct H as [|b2 H2|b2 rest2 batches2 H2 _ H];
    change (Z.to_nat BATCH_SIZE) with 5%nat in *;
    rewrite ?length_app, ?length_nil in Hlen; try lia.
  destruct H as [|b3 H3|b3 rest3 batches3 H3 _ H];
    change (Z.to_nat BATCH_SIZE) with 5%nat in *;
    rewrite ?length_app, ?length_nil in Hlen; try lia.
  exists b1, b2, b3. repeat split; lia.
Qed.

(** C8, as the code has it.  The instruments are cut, in order, into
    batches of 5, the last one of 1 to 5; there is a pause of 1500 ms
    between two batches and none after the last; the progress callback is
    called N + 2 times: with the count 0 at the start, with the counts 1
    to N as the instruments settle, and with N once more at the end.  For
    12 instruments: batches of 5, 5 and 2, two pauses, 14 calls. *)
Theorem fetchAllPrices_batches_progress (host : Host) (now : Z)
    (net : Stock.t -> FetchOutcome) (order : Z -> list Stock.t -> list Stock.t)
    (stocks : list Stock.t) :
  (forall i batch, order i batch ≡ₚ batch) ->
  let run := fetchAllPrices host now net order stocks in
  let N := Z.of_nat (length stocks) in
  (exists batches, Batches stocks batches /\ pacingOf (trace run) = pacing batches) /\
  progressOf (trace run) = (0, N) :: ((fun k => (k, N)) <$> seqZ 1 N) ++ [(N, N)] /\
  length (progressOf (trace run)) = (length stocks + 2)%nat /\
  (length stocks = 12%nat ->
   exists b1 b2 b3,
     stocks = b1 ++ b2 ++ b3 /\
     length b1 = 5%nat /\ length b2 = 5%nat /\ length b3 = 2%nat /\
     pacingOf (trace run) =
       [BatchIssued b1; Sleep 1500; BatchIssued b2; Sleep 1500; BatchIssued b3] /\
     length (progressOf (trace run)) = 14%nat).
Proof.
  intros Horder run N.
  destruct (batchLoop_spec host (getTargetDate host now) net order Horder stocks
              (length stocks) 0
              (emit (Progress 0 N (Preparing (getTargetDate host now))) (mkRun ∅ [] 0 [])))
    as (batches & settled & HB & _ & _ & _ & _ & Hg & Hs); [lia|lia|].
  cbn [Z.to_nat drop] in HB, Hg, Hs. fold N in Hg, Hs.
  assert (Hpace : pacingOf (trace run) = pacing batches).
  { unfold run, fetchAllPrices, emit at 1. cbn [trace]. fold N.
    rewrite pacingOf_app, Hs. cbn. rewrite app_nil_r. reflexivity. }
  assert (Hprog : progressOf (trace run)
                  = (0, N) :: ((fun k => (k, N)) <$> seqZ 1 N) ++ [(N, N)]).
  { unfold run, fetchAllPrices, emit at 1. cbn [trace]. fold N.
    unfold progressOf at 1. rewrite omap_app. fold (progressOf (trace
      (batchLoop (length stocks) host (getTargetDate host now) net order stocks N 0
         (emit (Progress 0 N (Preparing (getTargetDate host now))) (mkRun ∅ [] 0 []))))).
    rewrite Hg. reflexivity. }
  assert (Hcount : length (progressOf (trace run)) = (length stocks + 2)%nat).
  { rewrite Hprog. cbn [length]. rewrite length_app, length_fmap, length_seqZ.
    cbn [length]. lia. }
  refine (conj _ (conj Hprog (conj Hcount _))).
  - exists batches. split; assumption.
  - intros H12. destruct (Batches_twelve stocks batches HB H12)
      as (b1 & b2 & b3 & Heq & Hbs & H1 & H2 & H3).
    exists b1, b2, b3. rewrite Hpace, Hbs, Hcount, H12. repeat split; assumption.
Qed.

(** The theorem at the run over twelve instruments, each batch settling
    last request first. *)
Lemma fetchAllPrices_batches_progress_witness :
  let run := twelveRun lastFirst in
  (exists batches, Batches twelveStocks batches /\ pacingOf (trace run) = pacing batches) /\
  progressOf (trace run) = (0, 12) :: ((fun k => (k, 12)) <$> seqZ 1 12) ++ [(12, 12)] /\
  length (progressOf (trace run)) = 14%nat /\
  (length twelveStocks = 12%nat ->
   exists b1 b2 b3,
     twelveStocks = b1 ++ b2 ++ b3 /\
     length b1 = 5%nat /\ length b2 = 5%nat /\ length b3 = 2%nat /\
     pacingOf (trace run) =
       [BatchIssued b1; Sleep 1500; BatchIssued b2; Sleep 1500; BatchIssued b3] /\
     length (progressOf (trace run)) = 14%nat).
Proof.
  exact (fetchAllPrices_batches_progress tokyoHost 1710120600000 http500 lastFirst
           twelveStocks (fun _ batch => Permutation_sym (Permutation_rev batch))).
Defined.

(** C8, as the specification words it, fails: a run over 12 instruments
    calls the progress callback 14 times, not 13; the last call, with the
    count 12, comes after the loop. *)
Lemma fetchAllPrices_progress_not_N_plus_1 :
  length twelveStocks = 12%nat /\
  length (progressOf (trace (twelveRun inOrder))) = 14%nat /\
  length (progressOf (trace (twelveRun inOrder))) <> (length twelveStocks + 1)%nat /\
  last (progressOf (trace (twelveRun inOrder))) = Some (12, 12).
Proof.
  vm_compute. repeat split. discriminate.
Qed.

Section Store.
Variable resolve : Stock.t -> PriceResult.t.

Local Abbreviation store := (storeResult resolve).

(** The keys of the store after the results of [l] are written. *)
Lemma foldl_store_is_Some l : forall m code,
  is_Some (foldl store m l !! code) <->
  is_Some (m !! code) \/ code ∈ Stock.rawCode <$> l.
Proof.
  induction l as [|s l IH]; intros m code; cbn [foldl fmap list_fmap].
  - rewrite elem_of_nil. tauto.
  - rewrite IH, elem_of_cons. unfold store.
    destruct (decide (Stock.rawCode s = code)) as [->|Hne].
    + rewrite lookup_insert_eq. split; [intros _; right; left; reflexivity|].
      intros _. left. eexists. reflexivity.
    + rewrite lookup_insert_ne by exact Hne. split; [tauto|].
      intros [H|[H|H]]; [tauto|congruence|tauto].
Qed.

(** Every value of the store is the result of an instrument with that key. *)
Lemma foldl_store_lookup l : forall m code r,
  foldl store m l !! code = Some r ->
  m !! code = Some r \/ exists s, s ∈ l /\ Stock.rawCode s = code /\ r = resolve s.
Proof.
  induction l as [|s l IH]; intros m code r; cbn [foldl].
  - intros H. left. exact H.
  - intros H. apply IH in H as [H|(s' & Hin & Hcode & Hr)].
    + unfold storeResult in H. destruct (decide (Stock.rawCode s = code)) as [Heq|Hne].
      * rewrite <- Heq, lookup_insert_eq in H. injection H as <-.
        right. exists s. split; [left|split; [exact Heq|reflexivity]].
      * rewrite lookup_insert_ne in H by exact Hne. left. exact H.
    + right. exists s'. split; [right; exact Hin|split; assumption].
Qed.
End Store.

Lemma NoDup_fmap_inj_on {A B : Type} (f : A -> B) (l : list A) (x y : A) :
  NoDup (f <$> l) -> x ∈ l -> y ∈ l -> f x = f y -> x = y.
Proof.
  induction l as [|a l IH]; intros Hnd Hx Hy Hf; [inversion Hx|].
  rewrite fmap_cons in Hnd. apply NoDup_cons in Hnd as [Ha Hnd].
  apply elem_of_cons in Hx as [->|Hx], Hy as [->|Hy].
  - reflexivity.
  - exfalso. apply Ha. rewrite Hf. apply list_elem_of_fmap_2. exact Hy.
  - exfalso. apply Ha. rewrite <- Hf. apply list_elem_of_fmap_2. exact Hx.
  - apply IH; assumption.
Qed.

Lemma withError_error message :
  PriceResult.error (withError nullResult message) = Some message.
Proof. reflexivity. Qed.

Lemma msg_http_nonempty status : msg_http status <> [].
Proof. unfold msg_http. cbn. discriminate. Qed.

(** With messages that are not empty, the results the orchestrator takes
    for failures are the results that carry an error. *)
Lemma fails_iff_error host targetDateStr net stock :
  messagesNonEmpty host (net stock) ->
  fails host targetDateStr net stock <->
  PriceResult.error (resultOf host targetDateStr net stock) <> None.
Proof.
  intros (Htype & Huri & Hnet). unfold fails, failing, resultOf.
  set (r := fetchClosingPrice host (Stock.ticker stock) targetDateStr (net stock)).
  assert (Herr : PriceResult.error r = None \/
                 exists m, m <> [] /\ PriceResult.error r = Some m).
  { unfold r, fetchClosingPrice.
    destruct (truthy (Stock.ticker stock)); cbn [negb];
      [|right; eexists; split; [|apply withError_error]; discriminate].
    unfold tryBlock, encodeURIComponent, mbind, Completion_bind.
    destruct (wellFormedUTF16 _); cbn [bindC];
      [|right; eexists; split; [exact Huri|apply withError_error]].
    destruct (tryFetch host targetDateStr (net stock)) as [result|message] eqn:E.
    - unfold tryFetch in E. destruct (net stock) as [message|ok status body];
        [discriminate|].
      destruct ok; cbn [negb] in E.
      2:{ injection E as <-. right. eexists. split; [|apply withError_error].
          apply msg_http_nonempty. }
      destruct body as [message|data]; unfold mbind, Completion_bind in E;
        cbn [bindC] in E; [discriminate|].
      destruct data as [| | |[|[chart|] more]]; try discriminate;
        try (injection E as <-; right; eexists; split;
             [|apply withError_error]; discriminate).
      destruct (_ || _);
        [injection E as <-; right; eexists; split; [|apply withError_error]; discriminate|].
      destruct (_ =? _)%nat;
        [injection E as <-; right; eexists; split; [|apply withError_error]; discriminate|].
      apply resolveSeries_wellFormed in E as [_ He]. left. exact He.
    - right. exists message. split; [|apply withError_error].
      unfold tryFetch in E. destruct (net stock) as [m|ok status body].
      + injection E as <-. exact Hnet.
      + destruct ok; cbn [negb] in E; [|discriminate].
        destruct body as [m|data]; unfold mbind, Completion_bind in E; cbn [bindC] in E.
        * injection E as <-. exact Hnet.
        * destruct data as [| | |[|[chart|] more]]; try discriminate;
            try (injection E as <-; exact Htype).
          destruct (_ || _); [discriminate|]. destruct (_ =? _)%nat; [discriminate|].
          unfold resolveSeries, mbind, Completion_bind in E.
          unfold element in E.
          repeat match type of E with
                 | context [match ?x with _ => _ end] =>
                     destruct x; cbn [bindC] in E; try discriminate
                 end;
            try (injection E as <-; exact Htype). }
  destruct Herr as [He|(m & Hm & He)]; rewrite He.
  - cbn. split; [intros []|congruence].
  - destruct m; [congruence|]. cbn. split; [discriminate|intros _; exact I].
Qed.

Section ErrorList.
Variable resolve : Stock.t -> PriceResult.t.
Variable P : Stock.t -> Prop.
Context `{forall s, Decision (P s)}.

Lemma timesListed_absent code l :
  code ∉ Stock.rawCode <$> l ->
  timesListed code ((fun s => errorEntry s (resolve s)) <$> filter P l) = 0%nat.
Proof.
  induction l as [|a l IH]; intros Hnot; [reflexivity|].
  rewrite fmap_cons, not_elem_of_cons in Hnot. destruct Hnot as [Hne Hnot].
  rewrite filter_cons. destruct (decide (P a)); [|apply IH; exact Hnot].
  rewrite fmap_cons. unfold timesListed. rewrite filter_cons.
  cbn [errorEntry ErrorEntry.code]. rewrite decide_False by congruence.
  apply IH. exact Hnot.
Qed.

(** Among instruments with distinct codes, the entries made for those
    that satisfy [P] name each of them once and no other at all. *)
Lemma timesListed_once l s :
  NoDup (Stock.rawCode <$> l) -> s ∈ l ->
  timesListed (Stock.rawCode s) ((fun s => errorEntry s (resolve s)) <$> filter P l)
  = if decide (P s) then 1%nat else 0%nat.
Proof.
  induction l as [|a l IH]; intros Hnd Hin; [inversion Hin|].
  rewrite fmap_cons in Hnd. apply NoDup_cons in Hnd as [Ha Hnd].
  rewrite filter_cons. apply elem_of_cons in Hin as [->|Hin].
  - destruct (decide (P a)).
    + rewrite fmap_cons. unfold timesListed. rewrite filter_cons.
      cbn [errorEntry ErrorEntry.code]. rewrite decide_True by reflexivity.
      cbn [length]. f_equal. apply timesListed_absent. exact Ha.
    + apply timesListed_absent. exact Ha.
  - assert (Hne : Stock.rawCode a <> Stock.rawCode s).
    { intros Heq. apply Ha. rewrite Heq. apply list_elem_of_fmap_2. exact Hin. }
    destruct (decide (P a)); [|apply IH; assumption].
    rewrite fmap_cons. unfold timesListed. rewrite filter_cons.
    cbn [errorEntry ErrorEntry.code]. rewrite decide_False by exact Hne.
    apply IH; assumption.
Qed.
End ErrorList.

Lemma timesListed_Permutation code l l' :
  l ≡ₚ l' -> timesListed code l = timesListed code l'.
Proof. intros Hperm. unfold timesListed. rewrite Hperm. reflexivity. Qed.

(** C9.  A run ends with a result under the raw code of every instrument
    and under no other key, each the result of an instrument with that
    code (of that very instrument when the codes are distinct), whatever
    the other instruments came to.  The error list holds one entry
    {code, name, ticker, error} for each instrument the orchestrator takes
    for failed, and nothing else: with distinct
    codes, a failed instrument is listed once, another one not at all.
    Failed are the instruments whose result has a truthy [error]: all
    those with an error, the messages of errors being non-empty.  And
    every instrument is counted as completed. *)
Theorem fetchAllPrices_isolates_failures (host : Host) (now : Z)
    (net : Stock.t -> FetchOutcome) (order : Z -> list Stock.t -> list Stock.t)
    (stocks : list Stock.t) :
  (forall i batch, order i batch ≡ₚ batch) ->
  let run := fetchAllPrices host now net order stocks in
  let resolve := resultOf host (getTargetDate host now) net in
  (forall code, is_Some (closingPrices run !! code) <-> code ∈ Stock.rawCode <$> stocks) /\
  (forall code r, closingPrices run !! code = Some r ->
     exists s, s ∈ stocks /\ Stock.rawCode s = code /\ r = resolve s) /\
  (NoDup (Stock.rawCode <$> stocks) ->
   forall s, s ∈ stocks -> closingPrices run !! Stock.rawCode s = Some (resolve s)) /\
  errorMessages run ≡ₚ
    ((fun s => errorEntry s (resolve s))
       <$> filter (fails host (getTargetDate host now) net) stocks) /\
  (NoDup (Stock.rawCode <$> stocks) ->
   forall s, s ∈ stocks ->
     timesListed (Stock.rawCode s) (errorMessages run) =
     if decide (fails host (getTargetDate host now) net s) then 1%nat else 0%nat) /\
  (forall s, messagesNonEmpty host (net s) ->
     (fails host (getTargetDate host now) net s <-> PriceResult.error (resolve s) <> None)) /\
  completed run = Z.of_nat (length stocks).
Proof.
  intros Horder run resolve.
  destruct (batchLoop_spec host (getTargetDate host now) net order Horder stocks
              (length stocks) 0
              (emit (Progress 0 (Z.of_nat (length stocks))
                       (Preparing (getTargetDate host now))) (mkRun ∅ [] 0 [])))
    as (batches & settled & _ & Hperm & Hp & He & Hc & _ & _); [lia|lia|].
  cbn [Z.to_nat drop emit closingPrices errorMessages completed] in Hperm, Hp, He, Hc.
  fold resolve in Hp, He.
  assert (Hkeys : forall code,
            is_Some (closingPrices run !! code) <-> code ∈ Stock.rawCode <$> stocks).
  { intros code. unfold run, fetchAllPrices, emit at 1. cbn [closingPrices].
    rewrite Hp, foldl_store_is_Some, lookup_empty, Hperm.
    split; [intros [[x Hx]|H]; [discriminate|exact H]|right; assumption]. }
  assert (Hvals : forall code r, closingPrices run !! code = Some r ->
            exists s, s ∈ stocks /\ Stock.rawCode s = code /\ r = resolve s).
  { intros code r. unfold run, fetchAllPrices, emit at 1. cbn [closingPrices].
    rewrite Hp. intros H. apply foldl_store_lookup in H as [H|(s & Hin & Hs)].
    - rewrite lookup_empty in H. discriminate.
    - exists s. rewrite <- Hperm. split; assumption. }
  assert (Herrors : errorMessages run ≡ₚ
            ((fun s => errorEntry s (resolve s))
               <$> filter (fails host (getTargetDate host now) net) stocks)).
  { unfold run, fetchAllPrices, emit at 1. cbn [errorMessages].
    rewrite He, Hperm. reflexivity. }
  refine (conj Hkeys (conj Hvals (conj _ (conj Herrors (conj _ (conj _ _)))))).
  - intros Hnd s Hs.
    destruct (proj2 (Hkeys (Stock.rawCode s))) as [r Hr];
      [apply list_elem_of_fmap_2; exact Hs|].
    rewrite Hr. destruct (Hvals _ _ Hr) as (s' & Hs' & Hcode & ->).
    rewrite (NoDup_fmap_inj_on Stock.rawCode stocks s' s Hnd Hs' Hs Hcode). reflexivity.
  - intros Hnd s Hs. rewrite (timesListed_Permutation _ _ _ Herrors).
    apply timesListed_once; assumption.
  - intros s Hmsg. apply fails_iff_error. exact Hmsg.
  - unfold run, fetchAllPrices, emit at 1. cbn [completed]. rewrite Hc.
    change (Z.to_nat 0) with 0%nat. rewrite drop_0. lia.
Qed.

(** The theorem at a run over twelve instruments of which one fails. *)
Lemma fetchAllPrices_isolates_failures_witness :
  let run := fetchAllPrices tokyoHost 1710120600000 oneFails lastFirst twelveStocks in
  let resolve := resultOf tokyoHost (getTargetDate tokyoHost 1710120600000) oneFails in
  (forall code, is_Some (closingPrices run !! code) <->
                code ∈ Stock.rawCode <$> twelveStocks) /\
  (forall code r, closingPrices run !! code = Some r ->
     exists s, s ∈ twelveStocks /\ Stock.rawCode s = code /\ r = resolve s) /\
  (NoDup (Stock.rawCode <$> twelveStocks) ->
   forall s, s ∈ twelveStocks ->
     closingPrices run !! Stock.rawCode s = Some (resolve s)) /\
  errorMessages run ≡ₚ
    ((fun s => errorEntry s (resolve s))
       <$> filter (fails tokyoHost (getTargetDate tokyoHost 1710120600000) oneFails)
             twelveStocks) /\
  (NoDup (Stock.rawCode <$> twelveStocks) ->
   forall s, s ∈ twelveStocks ->
     timesListed (Stock.rawCode s) (errorMessages run) =
     if decide (fails tokyoHost (getTargetDate tokyoHost 1710120600000) oneFails s)
     then 1%nat else 0%nat) /\
  (forall s, messagesNonEmpty tokyoHost (oneFails s) ->
     (fails tokyoHost (getTargetDate tokyoHost 1710120600000) oneFails s <->
      PriceResult.error (resolve s) <> None)) /\
  completed run = Z.of_nat (length twelveStocks).
Proof.
  exact (fetchAllPrices_isolates_failures tokyoHost 1710120600000 oneFails lastFirst
           twelveStocks (fun _ batch => Permutation_sym (Permutation_rev batch))).
Defined.

(** The example of the specification: of twelve instruments one gets the
    status 500; it is the only entry of the error list, and the other
    eleven have their price. *)
Example fetchAllPrices_one_failure :
  let run := fetchAllPrices tokyoHost 1710120600000 oneFails lastFirst twelveStocks in
  errorMessages run =
    [ErrorEntry.mk (String_of_Z 1305) (lit "name") (lit "1305.T") (Some (lit "HTTP 500"))] /\
  PriceResult.price <$> closingPrices run !! String_of_Z 1305 = Some None /\
  Forall (fun s => Stock.rawCode s = String_of_Z 1305 \/
                   exists r p, closingPrices run !! Stock.rawCode s = Some r /\
                               PriceResult.price r = Some p /\
                               PriceResult.error r = None)
         twelveStocks.
Proof.
  cbv zeta. split; [vm_compute; reflexivity|]. split; [vm_compute; reflexivity|].
  unfold twelveStocks. 
  repeat (apply Forall_cons; split;
          [first [left; vm_compute; reflexivity
                 |right; eexists; eexists; vm_compute; repeat split]|]).
  apply Forall_nil. exact I.
Qed.

(** ** Instruments *)

Lemma trimStart_idemp s : trimStart (trimStart s) = trimStart s.
Proof.
  induction s as [|c s IH]; [reflexivity|]. cbn [trimStart].
  destruct (isWhiteSpace c) eqn:E; [exact IH|]. cbn [trimStart]. rewrite E. reflexivity.
Qed.

Lemma trimStart_app a b :
  trimStart (a ++ b) =
  match trimStart a with
  | [] => trimStart b
  | _ => trimStart a ++ b
  end.
Proof.
  induction a as [|c a IH]; [reflexivity|]. cbn [app trimStart].
  destruct (isWhiteSpace c); [exact IH|reflexivity].
Qed.

Lemma trimEnd_cons c s :
  trimEnd (c :: s) =
  match trimEnd s with
  | [] => if isWhiteSpace c then [] else [c]
  | r => c :: r
  end.
Proof.
  unfold trimEnd. cbn [rev]. rewrite trimStart_app.
  destruct (trimStart (rev s)) as [|x l] eqn:E.
  - cbn. destruct (isWhiteSpace c); reflexivity.
  - rewrite rev_app_distr. cbn [rev app].
    destruct (rev l); reflexivity.
Qed.

Lemma trimEnd_idemp s : trimEnd (trimEnd s) = trimEnd s.
Proof.
  unfold trimEnd. rewrite rev_involutive, trimStart_idemp. reflexivity.
Qed.

Lemma trimStart_trimEnd s : trimStart s = s -> trimStart (trimEnd s) = trimEnd s.
Proof.
  destruct s as [|c s]; [reflexivity|]. cbn [trimStart].
  destruct (isWhiteSpace c) eqn:E.
  - intros H. exfalso. apply (f_equal (@length N)) in H.
    assert (Hle : forall l, (length (trimStart l) <= length l)%nat).
    { induction l as [|x l IH]; cbn; [lia|]. destruct (isWhiteSpace x); cbn; lia. }
    specialize (Hle s). cbn in H. lia.
  - intros _. rewrite trimEnd_cons. destruct (trimEnd s).
    + rewrite E. cbn [trimStart]. rewrite E. reflexivity.
    + cbn [trimStart]. rewrite E. reflexivity.
Qed.

(** Trimming a trimmed string changes nothing. *)
Lemma trim_idemp s : trim (trim s) = trim s.
Proof.
  unfold trim. rewrite trimStart_trimEnd by apply trimStart_idemp.
  apply trimEnd_idemp.
Qed.

Lemma toTicker_trimmed code :
  trim code = code ->
  (validCode code /\ toTicker code = Some (take 4 code ++ lit ".T") /\
   truthy (toTicker code) = true)
  \/ (~ validCode code /\ toTicker code = None).
Proof.
  intros Htrim. unfold toTicker, validCode, substring0. rewrite Htrim.
  destruct (length code <? 4)%nat eqn:Elen.
  - right. apply Nat.ltb_lt in Elen. split; [lia|reflexivity].
  - apply Nat.ltb_ge in Elen.
    assert (Htest : test_alnum (take 4 code) = forallb isAlnum (take 4 code)).
    { destruct code as [|c code]; [cbn in Elen; lia|reflexivity]. }
    rewrite Htest. destruct (forallb isAlnum (take 4 code)) eqn:E; cbn [negb].
    + left. split; [split; [exact Elen|reflexivity]|]. split; [reflexivity|].
      destruct code as [|c code]; [cbn in Elen; lia|reflexivity].
    + right. split; [intros [_ H]; discriminate|reflexivity].
Qed.

Lemma seen_has_true seen key : seen_has seen key = true <-> key ∈ seen.*1.
Proof.
  unfold seen_has. rewrite existsb_exists, list_elem_of_fmap. split.
  - intros (entry & Hin & Hkey). apply bool_decide_eq_true in Hkey.
    exists entry. split; [symmetry; exact Hkey|apply list_elem_of_In; exact Hin].
  - intros (entry & -> & Hin). exists entry.
    split; [apply list_elem_of_In; exact Hin|apply bool_decide_eq_true; reflexivity].
Qed.

Lemma seen_set_fresh seen key value :
  key ∉ seen.*1 -> seen_set seen key value = seen ++ [(key, value)].
Proof.
  induction seen as [|entry seen IH]; intros Hnot; [reflexivity|].
  cbn [seen_set]. rewrite fmap_cons, not_elem_of_cons in Hnot. destruct Hnot as [Hne Hnot].
  rewrite bool_decide_eq_false_2 by congruence. rewrite IH by exact Hnot. reflexivity.
Qed.

Lemma fromFirstRow_app rows row stock :
  fromFirstRow rows stock -> fromFirstRow (rows ++ [row]) stock.
Proof.
  intros (i & r & Hi & Hcode & Hfirst & Hname). exists i, r.
  pose proof (lookup_lt_Some _ _ _ Hi) as Hlt.
  split; [rewrite lookup_app_l by exact Hlt; exact Hi|]. split; [exact Hcode|].
  split; [|exact Hname].
  intros j row' Hj Hrow'. rewrite lookup_app_l in Hrow' by lia. eauto.
Qed.

(** What holds of the map [seen] once [rows] have been visited. *)
Lemma visitRow_invariant rows :
  let seen := foldl visitRow [] rows in
  NoDup seen.*1 /\
  (forall key stock, (key, stock) ∈ seen ->
     key = Stock.rawCode stock /\ validCode key /\
     Stock.ticker stock = Some (take 4 key ++ lit ".T") /\
     fromFirstRow rows stock) /\
  (forall j row code, rows !! j = Some row -> rowCode row = Some code ->
     validCode code -> code ∈ seen.*1).
Proof.
  induction rows as [|row rows IH] using rev_ind; cbv zeta.
  - cbn. split; [constructor|]. split.
    + intros key stock H. inversion H.
    + intros j row code H. discriminate.
  - rewrite foldl_app. cbn [foldl]. cbv zeta in IH.
    set (seen := foldl visitRow [] rows) in *.
    destruct IH as (Hnd & Hval & Hall).
    assert (Hkeep : (forall code, rowCode row = Some code -> validCode code ->
                                  code ∈ seen.*1) ->
              NoDup seen.*1 /\
              (forall key stock, (key, stock) ∈ seen ->
                 key = Stock.rawCode stock /\ validCode key /\
                 Stock.ticker stock = Some (take 4 key ++ lit ".T") /\
                 fromFirstRow (rows ++ [row]) stock) /\
              (forall j row' code', (rows ++ [row]) !! j = Some row' ->
                 rowCode row' = Some code' -> validCode code' -> code' ∈ seen.*1)).
    { intros Hrow. split; [exact Hnd|]. split.
      - intros key stock Hin. destruct (Hval key stock Hin) as (Ha & Hb & Hc & Hd).
        refine (conj Ha (conj Hb (conj Hc _))). apply fromFirstRow_app. exact Hd.
      - intros j row' code' Hj Hcode' Hvalid.
        destruct (decide (j < length rows)%nat) as [Hlt|Hge].
        + rewrite lookup_app_l in Hj by exact Hlt. eapply Hall; eassumption.
        + rewrite lookup_app_r in Hj by lia.
          destruct (j - length rows)%nat; [|discriminate].
          injection Hj as <-. eapply Hrow; eassumption. }
    unfold visitRow. destruct (length row <=? COL_CODE)%nat eqn:Elen.
    { apply Hkeep. intros code Hcode. unfold rowCode in Hcode.
      rewrite Elen in Hcode. discriminate. }
    assert (HrowCode : rowCode row = Some (trim (cellString (cellAt row COL_CODE))))
      by (unfold rowCode; rewrite Elen; reflexivity).
    set (rawCode := trim (cellString (cellAt row COL_CODE))) in *.
    destruct (truthy (Some rawCode)) eqn:Etruthy; cbn [negb orb].
    2:{ apply Hkeep. intros code Hcode [Hlen _]. exfalso.
        rewrite HrowCode in Hcode. injection Hcode as <-.
        destruct rawCode; [cbn in Hlen; lia|discriminate]. }
    destruct (seen_has seen rawCode) eqn:Ehas.
    { apply Hkeep. intros code Hcode _. rewrite HrowCode in Hcode.
      injection Hcode as <-. apply seen_has_true. exact Ehas. }
    assert (Hfresh : rawCode ∉ seen.*1).
    { intros Hin. apply seen_has_true in Hin. congruence. }
    destruct (toTicker_trimmed rawCode (trim_idemp _))
      as [(Hvalid & Hticker & Htruthy)|(Hinvalid & Hticker)].
    2:{ rewrite Hticker. cbn [truthy negb]. apply Hkeep.
        intros code Hcode Hvalid. exfalso. rewrite HrowCode in Hcode.
        injection Hcode as <-. exact (Hinvalid Hvalid). }
    rewrite Htruthy. cbn [negb]. rewrite seen_set_fresh by exact Hfresh.
    rewrite fmap_app. cbn [fmap list_fmap fst].
    split; [|split].
    + apply NoDup_app. split; [exact Hnd|]. split; [|apply NoDup_singleton].
      intros x Hx Hx'. apply list_elem_of_singleton in Hx'. subst x. exact (Hfresh Hx).
    + intros key stock Hin. apply elem_of_app in Hin as [Hin|Hin].
      * destruct (Hval key stock Hin) as (Ha & Hb & Hc & Hd).
        refine (conj Ha (conj Hb (conj Hc _))). apply fromFirstRow_app. exact Hd.
      * apply list_elem_of_singleton in Hin. injection Hin as -> ->.
        cbn [Stock.rawCode Stock.ticker Stock.name].
        split; [reflexivity|]. split; [exact Hvalid|]. split; [exact Hticker|].
        exists (length rows), row. cbn [Stock.rawCode Stock.name].
        split; [rewrite lookup_app_r by lia; rewrite Nat.sub_diag; reflexivity|].
        split; [exact HrowCode|]. split; [|reflexivity].
        intros j row' Hj Hrow' Hcode'. rewrite lookup_app_l in Hrow' by exact Hj.
        apply Hfresh. eapply Hall; eassumption.
    + intros j row' code' Hj Hcode' Hvalid'. apply elem_of_app.
      destruct (decide (j < length rows)%nat) as [Hlt|Hge].
      * left. rewrite lookup_app_l in Hj by exact Hlt. eapply Hall; eassumption.
      * right. rewrite lookup_app_r in Hj by lia.
        destruct (j - length rows)%nat; [|discriminate].
        injection Hj as <-. rewrite HrowCode in Hcode'. injection Hcode' as <-.
        apply list_elem_of_singleton. reflexivity.
Qed.

(** C10.  The instruments [getUniqueStocks] returns have pairwise
    distinct raw codes; each comes from the first row that carries its
    code and has its display name from that row; its code is at least 4
    code units long, the first 4 of them ASCII letters or digits, and its
    ticker is those 4 followed by ".T".  Every row with such a code has
    its instrument in the result. *)
Theorem getUniqueStocks_unique_valid (rows : list (list Cell)) :
  NoDup (Stock.rawCode <$> getUniqueStocks rows) /\
  (forall stock, stock ∈ getUniqueStocks rows ->
     fromFirstRow rows stock /\
     (4 <= length (Stock.rawCode stock))%nat /\
     forallb isAlnum (take 4 (Stock.rawCode stock)) = true /\
     Stock.ticker stock = Some (take 4 (Stock.rawCode stock) ++ lit ".T")) /\
  (forall j row code, rows !! j = Some row -> rowCode row = Some code ->
     validCode code -> code ∈ Stock.rawCode <$> getUniqueStocks rows).
Proof.
  destruct (visitRow_invariant rows) as (Hnd & Hval & Hall). cbv zeta in *.
  unfold getUniqueStocks. set (seen := foldl visitRow [] rows) in *.
  assert (Hcodes : Stock.rawCode <$> seen.*2 = seen.*1).
  { clear Hnd Hall. induction seen as [|[key stock] seen IH]; [reflexivity|].
    rewrite !fmap_cons. cbn [fst snd]. f_equal.
    - destruct (Hval key stock) as [-> _]; [left|reflexivity].
    - apply IH. intros k s Hin. apply Hval. right. exact Hin. }
  rewrite Hcodes. split; [exact Hnd|]. split; [|exact Hall].
  intros stock Hin. apply list_elem_of_fmap in Hin as ([key stock'] & -> & Hin).
  cbn [snd]. destruct (Hval key stock' Hin) as (-> & [Hlen Halnum] & Hticker & Hfirst).
  repeat split; assumption.
Qed.

(** The one key an object does not keep as a property of its own is no
    code of an instrument. *)
Example toTicker_proto : toTicker (lit "__proto__") = None.
Proof. reflexivity. Qed.

(** Two rows with the code 1301 and one with a code too short: the
    first row wins, the short code is left out. *)
Example getUniqueStocks_example :
  getUniqueStocks
    [ [mkCell (lit "20240311") true; mkCell (lit " 1301 ") true; mkCell (lit "Kyokuyo") true];
      [mkCell (lit "20240311") true; mkCell (lit "130") true; mkCell (lit "Short") true];
      [mkCell (lit "20240311") true; mkCell (lit "1301") true; mkCell (lit "Other") true];
      [mkCell (lit "20240311") true; mkCell (lit "130A0") true; mkCell [] false] ]
  = [ Stock.mk (Some (lit "1301.T")) (lit "1301") (lit "Kyokuyo");
      Stock.mk (Some (lit "130A.T")) (lit "130A0") [] ].
Proof. vm_compute. reflexivity. Qed.

(** * Further properties *)

(** ** Dates as text *)

Lemma civil_from_days_bounds (day : Z) :
  let '(y, m, d) := civil_from_days day in 1 <= m <= 12 /\ 1 <= d <= 31.
Proof.
  unfold civil_from_days.
  set (z := day + 719468).
  set (era := z / 146097).
  set (doe := z - era * 146097).
  assert (Hdoe : 0 <= doe <= 146096) by (unfold doe, era; Z.div_mod_to_equations; lia).
  clearbody doe. clear z era.
  set (yoe := (doe - doe / 1460 + doe / 36524 - doe / 146096) / 365).
  set (doy := doe - (365 * yoe + yoe / 4 - yoe / 100)).
  assert (Hdoy : 0 <= doy <= 365).
  { unfold doy, yoe. Z.div_mod_to_equations. lia. }
  clearbody doy.
  set (mp := (5 * doy + 2) / 153).
  assert (Hmp : 0 <= mp <= 11) by (unfold mp; Z.div_mod_to_equations; lia).
  assert (Hd : 1 <= doy - (153 * mp + 2) / 5 + 1 <= 31).
  { unfold mp. Z.div_mod_to_equations. lia. }
  split; [|exact Hd].
  destruct (mp <? 10) eqn:E; [apply Z.ltb_lt in E|apply Z.ltb_ge in E]; lia.
Qed.

Lemma digits_isDigit (u : Decimal.uint) : forallb isDigit (digits u) = true.
Proof. induction u; cbn [digits forallb]; try rewrite IHu; reflexivity. Qed.

Lemma decimal_step_acc (u : Decimal.uint) : forall acc : positive,
  foldl (fun acc c => 10 * acc + (Z.of_N c - 48)) (Z.pos acc) (digits u)
  = Z.pos (Pos.of_uint_acc u acc).
Proof.
  induction u; intros acc; cbn [digits foldl Pos.of_uint_acc]; [reflexivity|..];
    rewrite <- IHu; f_equal; lia.
Qed.

Lemma decimalValue_digits (u : Decimal.uint) :
  decimalValue (digits u) = Z.of_N (Pos.of_uint u).
Proof.
  unfold decimalValue.
  induction u; cbn [digits foldl Pos.of_uint]; [reflexivity|exact IHu|..];
    apply (decimal_step_acc u).
Qed.

(** The decimal notation of a natural number reads back as the number. *)
Lemma String_of_Z_decimalValue (n : Z) :
  0 <= n ->
  decimalValue (String_of_Z n) = n /\ forallb isDigit (String_of_Z n) = true /\
  String_of_Z n <> [].
Proof.
  intros Hn. unfold String_of_Z. destruct n as [|p|p]; [repeat split; discriminate| |lia].
  cbn [Z.to_int]. rewrite decimalValue_digits, DecimalPos.Unsigned.of_to.
  split; [reflexivity|]. split; [apply digits_isDigit|].
  pose proof (DecimalPos.Unsigned.to_uint_nonnil p) as Hnil.
  destruct (Pos.to_uint p); [congruence|..]; discriminate.
Qed.

Lemma isDigit_bounds (c : N) : isDigit c = true -> (48 <= c <= 57)%N.
Proof. unfold isDigit. intros H. apply andb_true_iff in H as [H1 H2].
  apply N.leb_le in H1, H2. lia. Qed.

Lemma isDigit_not_space (c : N) : isDigit c = true -> isWhiteSpace c = false.
Proof.
  intros H. apply isDigit_bounds in H. unfold isWhiteSpace.
  replace (c <=? 13)%N with false by (symmetry; apply N.leb_gt; lia).
  replace (8192 <=? c)%N with false by (symmetry; apply N.leb_gt; lia).
  repeat match goal with
         | |- context [(c =? ?b)%N] =>
             replace (c =? b)%N with false by (symmetry; apply N.eqb_neq; lia)
         end.
  rewrite andb_false_r. reflexivity.
Qed.

Lemma digitValue_digit (c : N) :
  isDigit c = true -> digitValue 10 c = Some (Z.of_N c - 48).
Proof.
  intros H. unfold digitValue. rewrite H. apply isDigit_bounds in H.
  replace (Z.of_N c - 48 <? 10) with true by (symmetry; apply Z.ltb_lt; lia).
  reflexivity.
Qed.

Lemma readDigits_digits (s : JSString) : forall acc,
  forallb isDigit s = true ->
  readDigits 10 acc s =
  match s with
  | [] => acc
  | _ => Some (foldl (fun acc c => 10 * acc + (Z.of_N c - 48)) (default 0 acc) s)
  end.
Proof.
  induction s as [|c s IH]; intros acc Hs; [reflexivity|].
  cbn [forallb] in Hs. apply andb_true_iff in Hs as [Hc Hs].
  cbn [readDigits foldl]. rewrite (digitValue_digit c Hc), (IH _ Hs).
  destruct s; reflexivity.
Qed.

(** [parseInt] of a run of decimal digits is the number they write. *)
Lemma parseInt_digits (s : JSString) :
  s <> [] -> forallb isDigit s = true -> parseInt s = Some (decimalValue s).
Proof.
  intros Hne Hs. destruct s as [|c s]; [congruence|]. clear Hne.
  pose proof Hs as Hall. cbn [forallb] in Hs. apply andb_true_iff in Hs as [Hc Hs].
  pose proof (isDigit_bounds c Hc) as Hb.
  unfold parseInt. cbn [trimStart]. rewrite (isDigit_not_space c Hc).
  replace (c =? 45)%N with false by (symmetry; apply N.eqb_neq; lia).
  replace (c =? 43)%N with false by (symmetry; apply N.eqb_neq; lia).
  cbn [orb].
  assert (Hhex : match c :: s with
                 | c :: x :: _ => (c =? 48)%N && ((x =? 120)%N || (x =? 88)%N)
                 | _ => false
                 end = false).
  { destruct s as [|x s]; [reflexivity|]. cbn [forallb] in Hs.
    apply andb_true_iff in Hs as [Hx _]. apply isDigit_bounds in Hx.
    replace (x =? 120)%N with false by (symmetry; apply N.eqb_neq; lia).
    replace (x =? 88)%N with false by (symmetry; apply N.eqb_neq; lia).
    apply andb_false_r. }
  rewrite Hhex, (readDigits_digits _ None Hall). cbn [fmap option_fmap option_map].
  unfold decimalValue. cbn [default]. f_equal. apply Z.mul_1_l.
Qed.

Lemma decimalValue_app (a b : JSString) :
  decimalValue (a ++ b) =
  foldl (fun acc c => 10 * acc + (Z.of_N c - 48)) (decimalValue a) b.
Proof. unfold decimalValue. apply foldl_app. Qed.

Lemma decimal_foldl_bounds (b : JSString) : forall acc,
  forallb isDigit b = true ->
  acc * 10 ^ Z.of_nat (length b)
  <= foldl (fun acc c => 10 * acc + (Z.of_N c - 48)) acc b
  < (acc + 1) * 10 ^ Z.of_nat (length b).
Proof.
  induction b as [|c b IH]; intros acc Hb.
  - cbn. lia.
  - cbn [forallb] in Hb. apply andb_true_iff in Hb as [Hc Hb].
    apply isDigit_bounds in Hc. cbn [foldl length].
    specialize (IH (10 * acc + (Z.of_N c - 48)) Hb).
    rewrite Nat2Z.inj_succ, Z.pow_succ_r by lia.
    assert (Hpow : 0 < 10 ^ Z.of_nat (length b)) by (apply Z.pow_pos_nonneg; lia).
    nia.
Qed.

Lemma trimStart_digits (s : JSString) : forallb isDigit s = true -> trimStart s = s.
Proof.
  destruct s as [|c s]; [reflexivity|]. cbn [forallb trimStart]. intros H.
  apply andb_true_iff in H as [Hc _]. rewrite (isDigit_not_space c Hc). reflexivity.
Qed.

(** A run of digits has nothing to trim. *)
Lemma trim_digits (s : JSString) : forallb isDigit s = true -> trim s = s.
Proof.
  intros H. unfold trim, trimEnd. rewrite (trimStart_digits s H).
  rewrite trimStart_digits, rev_involutive; [reflexivity|].
  rewrite forallb_forall in *. intros c Hc. apply H. apply in_rev. exact Hc.
Qed.

Lemma elem_of_seqZ_forallb (f : Z -> bool) (m len x : Z) :
  forallb f (seqZ m len) = true -> m <= x < m + len -> f x = true.
Proof.
  intros Hall Hx. rewrite forallb_forall in Hall. apply Hall.
  apply list_elem_of_In, elem_of_seqZ. exact Hx.
Qed.

(** A year of four digits is written with four code units, a month or a
    day of the month with two. *)
Lemma String_of_Z_year_length (y : Z) :
  1000 <= y <= 9999 -> length (String_of_Z y) = 4%nat.
Proof.
  intros Hy. apply Nat.eqb_eq.
  apply (elem_of_seqZ_forallb (fun y => (length (String_of_Z y) =? 4)%nat) 1000 9000);
    [vm_compute; reflexivity|lia].
Qed.

Lemma padStart2_two_digits (m : Z) :
  0 <= m <= 99 ->
  length (padStart2 (String_of_Z m)) = 2%nat /\
  forallb isDigit (padStart2 (String_of_Z m)) = true /\
  decimalValue (padStart2 (String_of_Z m)) = m.
Proof.
  intros Hm.
  pose (f := fun m => (length (padStart2 (String_of_Z m)) =? 2)%nat
                      && forallb isDigit (padStart2 (String_of_Z m))
                      && (decimalValue (padStart2 (String_of_Z m)) =? m)).
  assert (H : f m = true)
    by (apply (elem_of_seqZ_forallb f 0 100); [vm_compute; reflexivity|lia]).
  unfold f in H. apply andb_true_iff in H as [H H3]. apply andb_true_iff in H as [H1 H2].
  apply Nat.eqb_eq in H1. apply Z.eqb_eq in H3. auto.
Qed.

Lemma yyyymmdd_parts (day : Z) :
  1000 <= (civil_from_days day).1.1 <= 9999 ->
  exists Y M D : JSString,
    yyyymmdd day = Y ++ M ++ D /\
    length Y = 4%nat /\ length M = 2%nat /\ length D = 2%nat /\
    forallb isDigit Y = true /\ forallb isDigit M = true /\ forallb isDigit D = true /\
    Y = String_of_Z (civil_from_days day).1.1 /\
    M = padStart2 (String_of_Z (civil_from_days day).1.2) /\
    D = padStart2 (String_of_Z (civil_from_days day).2).
Proof.
  intros Hy. pose proof (civil_from_days_bounds day) as Hb. unfold yyyymmdd.
  destruct (civil_from_days day) as [[y m] d]. cbn [fst snd] in *.
  destruct Hb as [Hm Hd].
  destruct (padStart2_two_digits m) as (Hm1 & Hm2 & _); [lia|].
  destruct (padStart2_two_digits d) as (Hd1 & Hd2 & _); [lia|].
  destruct (String_of_Z_decimalValue y) as (_ & Hy2 & _); [lia|].
  eexists _, _, _. split; [reflexivity|].
  repeat split; try assumption. apply String_of_Z_year_length. exact Hy.
Qed.

(** X1.  Of a text of eight code units [formatDateStr] makes one of ten,
    with a slash after the fourth and after the sixth; taking the two
    slashes out gives the text back. *)
Theorem formatDateStr_eight (s : JSString) :
  length s = 8%nat ->
  length (formatDateStr s) = 10%nat /\
  formatDateStr s !! 4%nat = Some 47%N /\ formatDateStr s !! 7%nat = Some 47%N /\
  take 4 (formatDateStr s) ++ take 2 (drop 5 (formatDateStr s))
    ++ drop 8 (formatDateStr s) = s.
Proof.
  intros Hlen. do 9 (destruct s as [|? s]; try discriminate). repeat split.
Qed.

Lemma formatDateStr_eight_witness :
  length (formatDateStr (lit "20240311")) = 10%nat /\
  formatDateStr (lit "20240311") !! 4%nat = Some 47%N /\
  formatDateStr (lit "20240311") !! 7%nat = Some 47%N /\
  take 4 (formatDateStr (lit "20240311")) ++ take 2 (drop 5 (formatDateStr (lit "20240311")))
    ++ drop 8 (formatDateStr (lit "20240311")) = lit "20240311".
Proof. exact (formatDateStr_eight (lit "20240311") eq_refl). Defined.

Lemma formatDateStr_parts (Y M D : JSString) :
  length Y = 4%nat -> length M = 2%nat -> length D = 2%nat ->
  formatDateStr (Y ++ M ++ D) = Y ++ lit "/" ++ M ++ lit "/" ++ D.
Proof.
  intros HY HM HD.
  do 5 (destruct Y as [|? Y]; try discriminate).
  do 3 (destruct M as [|? M]; try discriminate).
  do 3 (destruct D as [|? D]; try discriminate). reflexivity.
Qed.

(** Whatever the clock of the machine, [getTargetDate] writes the civil
    date of some day. *)
Lemma getTargetDate_yyyymmdd (host : Host) (now : Z) :
  exists day, getTargetDate host now = yyyymmdd day.
Proof.
  unfold getTargetDate, getFullYear, getMonth, getDate.
  eexists. apply format_civil.
Qed.

(** X2.  The reference date [getTargetDate] writes is the civil date of
    a day; it is a text of eight decimal digits whenever the year has four
    digits, and then [formatDateStr] shows it as YYYY/MM/DD, the very text
    the resolver writes as [actualDate] for an observation of that day. *)
Theorem getTargetDate_eight_digits (host : Host) (now day : Z) :
  getTargetDate host now = yyyymmdd day ->
  1000 <= (civil_from_days day).1.1 <= 9999 ->
  test_digits8 (getTargetDate host now) = true /\
  formatDateStr (getTargetDate host now) = slashedDate day /\
  forall actualTs, LocalTime host (actualTs * 1000) / msPerDay = day ->
    formatActualDate host actualTs = formatDateStr (getTargetDate host now).
Proof.
  intros Hday Hy. rewrite Hday.
  destruct (yyyymmdd_parts day Hy)
    as (Y & M & D & Heq & HY & HM & HD & HdY & HdM & HdD & -> & -> & ->).
  assert (Hfmt : formatDateStr (yyyymmdd day) = slashedDate day).
  { rewrite Heq, formatDateStr_parts by assumption. unfold slashedDate.
    destruct (civil_from_days day) as [[y m] d]. reflexivity. }
  split; [|split; [exact Hfmt|]].
  - rewrite Heq. unfold test_digits8. rewrite !length_app, HY, HM, HD.
    cbn [Nat.add Nat.eqb andb]. rewrite !forallb_app, HdY, HdM, HdD. reflexivity.
  - intros actualTs Hts. rewrite Hfmt, formatActualDate_civil, Hts. reflexivity.
Qed.

Lemma getTargetDate_eight_digits_witness :
  test_digits8 (getTargetDate tokyoHost 1710120600000) = true /\
  formatDateStr (getTargetDate tokyoHost 1710120600000) = slashedDate 19792 /\
  forall actualTs, LocalTime tokyoHost (actualTs * 1000) / msPerDay = 19792 ->
    formatActualDate tokyoHost actualTs
    = formatDateStr (getTargetDate tokyoHost 1710120600000).
Proof.
  exact (getTargetDate_eight_digits tokyoHost 1710120600000 19792 eq_refl
           ltac:(vm_compute; split; discriminate)).
Defined.

Lemma decimal_two_more (b : JSString) (acc : Z) :
  length b = 2%nat ->
  foldl (fun acc c => 10 * acc + (Z.of_N c - 48)) acc b = acc * 100 + decimalValue b.
Proof.
  intros Hb. do 3 (destruct b as [|? b]; try discriminate).
  unfold decimalValue. cbn [foldl]. lia.
Qed.

Lemma substring_parts (Y M D : JSString) :
  length Y = 4%nat -> length M = 2%nat -> length D = 2%nat ->
  substring 0 4 (Y ++ M ++ D) = Y /\ substring 4 6 (Y ++ M ++ D) = M /\
  substring 6 8 (Y ++ M ++ D) = D.
Proof.
  intros HY HM HD.
  do 5 (destruct Y as [|? Y]; try discriminate).
  do 3 (destruct M as [|? M]; try discriminate).
  do 3 (destruct D as [|? D]; try discriminate). repeat split.
Qed.

Lemma decimalValue_three_parts (a b c : JSString) :
  length b = 2%nat -> length c = 2%nat ->
  forallb isDigit a = true -> forallb isDigit b = true -> forallb isDigit c = true ->
  let n := decimalValue (a ++ b ++ c) in
  decimalValue a = n / 10000 /\ decimalValue b = (n mod 10000) / 100 /\
  decimalValue c = n mod 100.
Proof.
  intros Hb Hc Ha Hdb Hdc n. subst n.
  rewrite decimalValue_app, foldl_app.
  pose proof (decimal_foldl_bounds b 0 Hdb) as Bb.
  pose proof (decimal_foldl_bounds c 0 Hdc) as Bc.
  pose proof (decimal_foldl_bounds b (decimalValue a) Hdb) as Bab.
  set (vab := foldl _ (decimalValue a) b) in *.
  pose proof (decimal_foldl_bounds c vab Hdc) as Babc.
  set (vabc := foldl _ vab c) in *.
  fold (decimalValue b) in Bb. fold (decimalValue c) in Bc.
  assert (Hvab : vab = decimalValue a * 100 + decimalValue b)
    by (apply decimal_two_more; exact Hb).
  assert (Hvabc : vabc = vab * 100 + decimalValue c)
    by (apply decimal_two_more; exact Hc).
  rewrite Hb in Bb. rewrite Hc in Bc. change (10 ^ Z.of_nat 2) with 100 in *.
  clearbody vab vabc. subst vabc vab.
  repeat split; Z.div_mod_to_equations; lia.
Qed.

(** X3.  A date of eight digits is read group by group: the year is the
    first four digits, the month index the next two less one, the day the
    last two; this is the date the arithmetic of the numeric branch gives
    for the same number. *)
Theorem parseDateValue_eight_digits (DateT : Type)
    (Date_local : option Z -> option Z -> option Z -> DateT)
    (Date_parse : JSString -> DateT) (dateVal : JSString) :
  test_digits8 (trim dateVal) = true ->
  let n := decimalValue (trim dateVal) in
  parseDateValue DateT Date_local Date_parse dateVal
  = Date_local (Some (n / 10000)) (Some ((n mod 10000) / 100 - 1)) (Some (n mod 100)).
Proof.
  intros Htest n. unfold parseDateValue. rewrite Htest.
  unfold test_digits8 in Htest. apply andb_true_iff in Htest as [Hlen Hdig].
  apply Nat.eqb_eq in Hlen. subst n. set (s := trim dateVal) in *. clearbody s.
  assert (Hs : s = take 4 s ++ take 2 (drop 4 s) ++ drop 6 s).
  { do 9 (destruct s as [|? s]; try discriminate). reflexivity. }
  assert (Hparts : substring 0 4 s = take 4 s /\ substring 4 6 s = take 2 (drop 4 s) /\
                   substring 6 8 s = drop 6 s).
  { do 9 (destruct s as [|? s]; try discriminate). repeat split. }
  destruct Hparts as (-> & -> & ->).
  assert (Ha : forallb isDigit (take 4 s) = true /\
               forallb isDigit (take 2 (drop 4 s)) = true /\
               forallb isDigit (drop 6 s) = true).
  { rewrite Hs, !forallb_app in Hdig.
    apply andb_true_iff in Hdig as [H1 H23]. apply andb_true_iff in H23 as [H2 H3]. auto. }
  destruct Ha as (Ha & Hb & Hc).
  assert (Hla : length (take 2 (drop 4 s)) = 2%nat /\ length (drop 6 s) = 2%nat /\
                take 4 s <> [] /\ take 2 (drop 4 s) <> [] /\ drop 6 s <> []).
  { do 9 (destruct s as [|? s]; try discriminate). repeat split; discriminate. }
  destruct Hla as (Hlb & Hlc & Hna & Hnb & Hnc).
  rewrite !parseInt_digits by assumption.
  destruct (decimalValue_three_parts _ _ _ Hlb Hlc Ha Hb Hc) as (Hy & Hm & Hd).
  cbv zeta in Hy, Hm, Hd. rewrite <- Hs in Hy, Hm, Hd.
  cbn [fmap option_fmap option_map]. rewrite Hy, Hm, Hd. reflexivity.
Qed.

Lemma parseDateValue_eight_digits_witness :
  parseDateValue (Z * Z * Z) (fun y m d => (default 0 y, default 0 m, default 0 d))
    (fun _ => (0, 0, 0)) (lit " 20240311 ")
  = (2024, 2, 11).
Proof.
  exact (parseDateValue_eight_digits (Z * Z * Z)
           (fun y m d => (default 0 y, default 0 m, default 0 d))
           (fun _ => (0, 0, 0)) (lit " 20240311 ") eq_refl).
Defined.

(** X4.  The resolver reads the reference date back as the orchestrator
    wrote it: for a year of four digits [parseDateValue] builds the local
    date from the year, the month index and the day of the very day
    [getTargetDate] named. *)
Theorem parseDateValue_getTargetDate (DateT : Type)
    (Date_local : option Z -> option Z -> option Z -> DateT)
    (Date_parse : JSString -> DateT) (host : Host) (now day : Z) :
  getTargetDate host now = yyyymmdd day ->
  1000 <= (civil_from_days day).1.1 <= 9999 ->
  parseDateValue DateT Date_local Date_parse (getTargetDate host now)
  = Date_local (Some (civil_from_days day).1.1)
               (Some ((civil_from_days day).1.2 - 1))
               (Some (civil_from_days day).2).
Proof.
  intros Hday Hy. rewrite Hday.
  pose proof (civil_from_days_bounds day) as Hb.
  destruct (yyyymmdd_parts day Hy)
    as (Y & M & D & Heq & HY & HM & HD & HdY & HdM & HdD & HYe & HMe & HDe).
  assert (Hall : forallb isDigit (yyyymmdd day) = true)
    by (rewrite Heq, !forallb_app, HdY, HdM, HdD; reflexivity).
  assert (Htest : test_digits8 (trim (yyyymmdd day)) = true).
  { rewrite (trim_digits _ Hall). unfold test_digits8.
    rewrite Hall, Heq, !length_app, HY, HM, HD. reflexivity. }
  unfold parseDateValue. rewrite Htest, (trim_digits _ Hall), Heq.
  destruct (substring_parts Y M D HY HM HD) as (-> & -> & ->).
  rewrite !parseInt_digits
    by (try assumption; intros ->; discriminate).
  destruct (civil_from_days day) as [[y m] d]. cbn [fst snd] in *.
  destruct (String_of_Z_decimalValue y) as (Hvy & _); [lia|].
  destruct (padStart2_two_digits m) as (_ & _ & Hvm); [lia|].
  destruct (padStart2_two_digits d) as (_ & _ & Hvd); [lia|].
  subst Y M D. rewrite Hvy, Hvm, Hvd. reflexivity.
Qed.

Lemma parseDateValue_getTargetDate_witness :
  parseDateValue (Z * Z * Z) (fun y m d => (default 0 y, default 0 m, default 0 d))
    (fun _ => (0, 0, 0)) (getTargetDate tokyoHost 1710120600000)
  = (2024, 2, 10).
Proof.
  exact (parseDateValue_getTargetDate (Z * Z * Z)
           (fun y m d => (default 0 y, default 0 m, default 0 d))
           (fun _ => (0, 0, 0)) tokyoHost 1710120600000 19792 eq_refl
           ltac:(vm_compute; split; discriminate)).
Defined.

(** ** Results on the page *)

Lemma occurrences_app (c : N) (a b : JSString) :
  occurrences c (a ++ b) = (occurrences c a + occurrences c b)%nat.
Proof. unfold occurrences. rewrite filter_app, length_app. reflexivity. Qed.

Lemma escapeUnit_cases (c : N) :
  (c = 38%N /\ escapeUnit c = lit "&amp;") \/
  (c = 160%N /\ escapeUnit c = lit "&nbsp;") \/
  (c = 60%N /\ escapeUnit c = lit "&lt;") \/
  (c = 62%N /\ escapeUnit c = lit "&gt;") \/
  (c <> 38%N /\ c <> 160%N /\ c <> 60%N /\ c <> 62%N /\ escapeUnit c = [c]).
Proof.
  unfold escapeUnit.
  destruct (N.eqb_spec c 38); [left; split; [assumption|reflexivity]|].
  destruct (N.eqb_spec c 160); [right; left; split; [assumption|reflexivity]|].
  destruct (N.eqb_spec c 60); [right; right; left; split; [assumption|reflexivity]|].
  destruct (N.eqb_spec c 62);
    [right; right; right; left; split; [assumption|reflexivity]|].
  right; right; right; right. repeat split; assumption.
Qed.

Lemma escapeHTML_occurrences (c : N) (s : JSString) :
  c = 60%N \/ c = 62%N \/ c = 160%N -> occurrences c (escapeHTML s) = 0%nat.
Proof.
  intros Hc. induction s as [|x s IH]; [reflexivity|].
  unfold escapeHTML in *. cbn [flat_map]. rewrite occurrences_app, IH, Nat.add_0_r.
  destruct (escapeUnit_cases x)
    as [(_ & ->)|[(_ & ->)|[(_ & ->)|[(_ & ->)|(H1 & H2 & H3 & H4 & ->)]]]];
    try (destruct Hc as [-> | [-> | ->]]; reflexivity).
  unfold occurrences. rewrite filter_cons, decide_False; [reflexivity|].
  destruct Hc as [-> | [-> | ->]]; assumption.
Qed.

Lemma unescapeHTML_escapeUnit (c : N) (r : JSString) :
  unescapeHTML 0 (escapeUnit c ++ r) = c :: unescapeHTML 0 r.
Proof.
  destruct (escapeUnit_cases c)
    as [(-> & ->)|[(-> & ->)|[(-> & ->)|[(-> & ->)|(H1 & H2 & H3 & H4 & ->)]]]];
    try reflexivity.
  cbn [app unescapeHTML]. unfold startsWith. cbn [lit length take].
  rewrite !bool_decide_eq_false_2; [reflexivity|..];
    intros H; apply H1; apply (f_equal (fun l => default 0%N (head l))) in H; exact H.
Qed.

(** X5.  What [escapeHTML] returns holds no angle bracket and no
    no-break space, and reads back as the text it was given: the text
    comes out of the page as it went in. *)
Theorem escapeHTML_round_trip (str : JSString) :
  unescapeHTML 0 (escapeHTML str) = str /\
  occurrences 60 (escapeHTML str) = 0%nat /\
  occurrences 62 (escapeHTML str) = 0%nat /\
  occurrences 160 (escapeHTML str) = 0%nat.
Proof.
  split.
  - induction str as [|c str IH]; [reflexivity|].
    unfold escapeHTML in *. cbn [flat_map].
    rewrite unescapeHTML_escapeUnit, IH. reflexivity.
  - repeat split; apply escapeHTML_occurrences; auto.
Qed.

Lemma errorLogEntry_occurrences (e : ErrorEntry.t) :
  occurrences 60 (errorLogEntry e) = 4%nat /\ occurrences 62 (errorLogEntry e) = 4%nat.
Proof.
  unfold errorLogEntry. rewrite !occurrences_app.
  rewrite !(escapeHTML_occurrences 60), !(escapeHTML_occurrences 62) by auto.
  split; reflexivity.
Qed.

(** X6.  The error log [showResults] writes has the markup of its
    template and no more, whatever the codes, names, tickers and messages
    hold: four opening and four closing angle brackets for each error.
    With no error the log is left alone. *)
Theorem showResults_errorLog (prices : gmap JSString PriceResult.t)
    (errors : list ErrorEntry.t) :
  match errorLog (showResults prices errors) with
  | Some html =>
      errors <> [] /\
      occurrences 60 html = (4 * length errors)%nat /\
      occurrences 62 html = (4 * length errors)%nat
  | None => errors = []
  end.
Proof.
  assert (Hlog : forall l : list ErrorEntry.t,
            occurrences 60 (concat (errorLogEntry <$> l)) = (4 * length l)%nat /\
            occurrences 62 (concat (errorLogEntry <$> l)) = (4 * length l)%nat).
  { induction l as [|e l [IH1 IH2]]; [split; reflexivity|].
    rewrite fmap_cons. cbn [concat length]. rewrite !occurrences_app, IH1, IH2.
    destruct (errorLogEntry_occurrences e) as [-> ->]. split; lia. }
  unfold showResults. cbn [errorLog]. destruct errors as [|e errors]; [reflexivity|].
  change (0 <? length (e :: errors))%nat with true. cbv iota.
  split; [discriminate|apply Hlog].
Qed.

(** ** The state a run ends in *)

Lemma resultOf_wellFormed host targetDateStr net stock :
  wellFormed (resultOf host targetDateStr net stock).
Proof.
  unfold resultOf, fetchClosingPrice.
  destruct (truthy (Stock.ticker stock)); cbn [negb]; [|apply withError_wellFormed].
  destruct (tryBlock _ _ _ _) as [result|message] eqn:E.
  - eapply tryBlock_wellFormed. exact E.
  - apply withError_wellFormed.
Qed.

(** The results and errors of a run, by the order its requests settled in. *)
Lemma fetchAllPrices_final host now net order stocks :
  (forall i batch, order i batch ≡ₚ batch) ->
  exists settled,
    settled ≡ₚ stocks /\
    closingPrices (fetchAllPrices host now net order stocks)
    = foldl (storeResult (resultOf host (getTargetDate host now) net)) ∅ settled /\
    errorMessages (fetchAllPrices host now net order stocks)
    = (fun s => errorEntry s (resultOf host (getTargetDate host now) net s))
        <$> filter (fails host (getTargetDate host now) net) settled /\
    completed (fetchAllPrices host now net order stocks) = Z.of_nat (length stocks).
Proof.
  intros Horder.
  destruct (batchLoop_spec host (getTargetDate host now) net order Horder stocks
              (length stocks) 0
              (emit (Progress 0 (Z.of_nat (length stocks))
                       (Preparing (getTargetDate host now))) (mkRun ∅ [] 0 [])))
    as (batches & settled & _ & Hperm & Hp & He & Hc & _ & _); [lia|lia|].
  change (Z.to_nat 0) with 0%nat in *. rewrite drop_0 in *.
  cbn [emit closingPrices errorMessages completed] in Hp, He, Hc.
  exists settled. unfold fetchAllPrices. split; [exact Hperm|].
  split; [unfold emit at 1; cbn [closingPrices]; exact Hp|].
  split; [unfold emit at 1; cbn [errorMessages]; exact He|].
  unfold emit at 1. cbn [completed]. rewrite Hc. lia.
Qed.

Section StoreAsList.
Variable resolve : Stock.t -> PriceResult.t.

Lemma foldl_store_snoc l s m :
  foldl (storeResult resolve) m (l ++ [s])
  = <[Stock.rawCode s := resolve s]> (foldl (storeResult resolve) m l).
Proof. rewrite foldl_app. reflexivity. Qed.

(** With distinct codes the store holds the results of the instruments,
    one each. *)
Lemma foldl_store_to_list l :
  NoDup (Stock.rawCode <$> l) ->
  map_to_list (foldl (storeResult resolve) ∅ l)
  ≡ₚ (fun s => (Stock.rawCode s, resolve s)) <$> l.
Proof.
  induction l as [|s l IH] using rev_ind; intros Hnd.
  - cbn. rewrite map_to_list_empty. reflexivity.
  - rewrite fmap_app in Hnd. apply NoDup_app in Hnd as (Hl & Hs & _).
    rewrite foldl_store_snoc, map_to_list_insert.
    + rewrite IH by exact Hl. rewrite fmap_app. cbn [fmap list_fmap].
      rewrite Permutation_app_comm. reflexivity.
    + apply eq_None_not_Some. rewrite foldl_store_is_Some, lookup_empty.
      intros [[x Hx]|Hin]; [discriminate|].
      apply (Hs _ Hin). cbn. left.
Qed.

Lemma foldl_store_Permutation l l' :
  NoDup (Stock.rawCode <$> l) -> l ≡ₚ l' ->
  foldl (storeResult resolve) ∅ l = foldl (storeResult resolve) ∅ l'.
Proof.
  intros Hnd Hperm. apply map_to_list_inj.
  rewrite !foldl_store_to_list; [rewrite Hperm; reflexivity| |exact Hnd].
  rewrite <- Hperm. exact Hnd.
Qed.

Lemma objectValues_store l :
  NoDup (Stock.rawCode <$> l) ->
  objectValues (foldl (storeResult resolve) ∅ l) ≡ₚ resolve <$> l.
Proof.
  intros Hnd. unfold objectValues. rewrite foldl_store_to_list by exact Hnd.
  rewrite <- list_fmap_compose. reflexivity.
Qed.
End StoreAsList.

Lemma length_filter_iff {A : Type} (P Q : A -> Prop)
    `{forall x, Decision (P x)} `{forall x, Decision (Q x)} (l : list A) :
  (forall x, x ∈ l -> (P x <-> Q x)) ->
  length (filter P l) = length (filter Q l).
Proof.
  induction l as [|a l IH]; intros Hiff; [reflexivity|].
  rewrite !filter_cons.
  assert (Ha : P a <-> Q a) by (apply Hiff; left).
  assert (Hl : length (filter P l) = length (filter Q l))
    by (apply IH; intros x Hx; apply Hiff; right; exact Hx).
  destruct (decide (P a)), (decide (Q a)); cbn [length]; tauto || lia.
Qed.

Lemma length_filter_complement {A : Type} (P : A -> Prop)
    `{forall x, Decision (P x)} (l : list A) :
  (length (filter P l) + length (filter (fun x => ~ P x) l) = length l)%nat.
Proof. rewrite <- length_app, filter_app_complement. reflexivity. Qed.

Lemma length_filter_fmap {A B : Type} (f : A -> B) (P : B -> Prop)
    `{forall x, Decision (P x)} (l : list A) :
  length (filter P (f <$> l)) = length (filter (fun x => P (f x)) l).
Proof.
  induction l as [|a l IH]; [reflexivity|].
  rewrite fmap_cons, !filter_cons. destruct (decide (P (f a))); cbn [length]; lia.
Qed.

(** An instrument is taken for failed exactly when its result has no
    price, the messages of errors being non-empty. *)
Lemma fails_iff_no_price host targetDateStr net stock :
  messagesNonEmpty host (net stock) ->
  fails host targetDateStr net stock <->
  PriceResult.price (resultOf host targetDateStr net stock) = None.
Proof.
  intros Hmsg. rewrite (fails_iff_error host targetDateStr net stock Hmsg).
  destruct (resultOf_wellFormed host targetDateStr net stock) as [Hiff _].
  symmetry. exact Hiff.
Qed.

(** The counts [showResults] shows after a run over instruments with
    distinct codes, none of them a name the object does not keep as a
    property of its own (the codes [getUniqueStocks] lets through are
    such). *)
Lemma showResults_counts (host : Host) (now : Z)
    (net : Stock.t -> FetchOutcome) (order : Z -> list Stock.t -> list Stock.t)
    (stocks : list Stock.t) :
  (forall i batch, order i batch ≡ₚ batch) ->
  NoDup (Stock.rawCode <$> stocks) ->
  (forall s, s ∈ stocks -> messagesNonEmpty host (net s)) ->
  let run := fetchAllPrices host now net order stocks in
  let view := showResults (closingPrices run) (errorMessages run) in
  (successCount view + naCount view = length stocks)%nat /\
  naCount view = errorCount view /\
  errorCount view = length (filter (fails host (getTargetDate host now) net) stocks).
Proof.
  intros Horder Hnd Hmsg run view. subst view run.
  destruct (fetchAllPrices_final host now net order stocks Horder)
    as (settled & Hperm & -> & -> & _).
  set (resolve := resultOf host (getTargetDate host now) net).
  assert (Hnd' : NoDup (Stock.rawCode <$> settled)) by (rewrite Hperm; exact Hnd).
  pose proof (objectValues_store resolve settled Hnd') as Hvalues.
  unfold showResults. cbn [successCount naCount errorCount].
  assert (Hna : length (filter (fun v => PriceResult.price v = None)
                          (objectValues (foldl (storeResult resolve) ∅ settled)))
                = length (filter (fails host (getTargetDate host now) net) settled)).
  { rewrite Hvalues, length_filter_fmap. apply length_filter_iff.
    intros s Hs. symmetry. apply fails_iff_no_price. apply Hmsg.
    rewrite <- Hperm. exact Hs. }
  refine (conj _ (conj _ _)).
  - rewrite (length_filter_iff (fun v => is_Some (PriceResult.price v))
               (fun v => ~ PriceResult.price v = None)).
    + rewrite Nat.add_comm, length_filter_complement, Hvalues, length_fmap, Hperm.
      reflexivity.
    + intros v _. rewrite <- not_eq_None_Some. reflexivity.
  - rewrite Hna, length_fmap. reflexivity.
  - rewrite length_fmap, Hperm. reflexivity.
Qed.

(** With distinct codes the state a run ends in does not depend on the
    order in which the requests of a batch settle. *)
Lemma fetchAllPrices_orders (host : Host) (now : Z)
    (net : Stock.t -> FetchOutcome) (order1 order2 : Z -> list Stock.t -> list Stock.t)
    (stocks : list Stock.t) :
  (forall i batch, order1 i batch ≡ₚ batch) ->
  (forall i batch, order2 i batch ≡ₚ batch) ->
  NoDup (Stock.rawCode <$> stocks) ->
  let run1 := fetchAllPrices host now net order1 stocks in
  let run2 := fetchAllPrices host now net order2 stocks in
  closingPrices run1 = closingPrices run2 /\
  errorMessages run1 ≡ₚ errorMessages run2 /\
  completed run1 = completed run2.
Proof.
  intros H1 H2 Hnd run1 run2. subst run1 run2.
  destruct (fetchAllPrices_final host now net order1 stocks H1)
    as (settled1 & Hperm1 & Hp1 & He1 & Hc1).
  destruct (fetchAllPrices_final host now net order2 stocks H2)
    as (settled2 & Hperm2 & Hp2 & He2 & Hc2).
  refine (conj _ (conj _ _)).
  - rewrite Hp1, Hp2. apply foldl_store_Permutation.
    + rewrite Hperm1. exact Hnd.
    + rewrite Hperm1, Hperm2. reflexivity.
  - rewrite He1, He2, Hperm1, Hperm2. reflexivity.
  - rewrite Hc1, Hc2. reflexivity.
Qed.

(** Where two instruments share a code the order of settlement shows:
    the later result overwrites the earlier one. *)
Example fetchAllPrices_shared_code_order :
  let stocks := [Stock.mk (Some (lit "1301.T")) (lit "1301") (lit "a");
                 Stock.mk None (lit "1301") (lit "b")] in
  closingPrices (fetchAllPrices tokyoHost 1710120600000 http500 inOrder stocks)
  <> closingPrices (fetchAllPrices tokyoHost 1710120600000 http500 lastFirst stocks).
Proof.
  intros stocks H.
  apply (f_equal (fun m => PriceResult.error <$> m !! lit "1301")) in H.
  vm_compute in H. discriminate H.
Qed.

(** ** A click on the fetch button *)

(** The codes of the instruments are the keys of the map, in its order. *)
Lemma getUniqueStocks_codes (seen : list (JSString * Stock.t)) :
  (forall key stock, (key, stock) ∈ seen -> key = Stock.rawCode stock) ->
  Stock.rawCode <$> seen.*2 = seen.*1.
Proof.
  induction seen as [|[key stock] seen IH]; intros Hkey; [reflexivity|].
  rewrite !fmap_cons. cbn [fst snd]. f_equal.
  - symmetry. apply Hkey. left.
  - apply IH. intros k s Hin. apply Hkey. right. exact Hin.
Qed.

Lemma getUniqueStocks_NoDup rows :
  NoDup (Stock.rawCode <$> getUniqueStocks rows).
Proof.
  destruct (visitRow_invariant rows) as (Hnd & Hval & _). cbv zeta in *.
  unfold getUniqueStocks. rewrite getUniqueStocks_codes; [exact Hnd|].
  intros key stock Hin. destruct (Hval key stock Hin) as [Hkey _]. exact Hkey.
Qed.

(** X7.  After a run over the instruments of a sheet the counts
    [showResults] shows add up: the results with a price and those
    without one are as many as the instruments, and, the messages of
    errors being non-empty, the results without a price are as many as the
    errors listed, one for each failed instrument. *)
Theorem showResults_after_run (host : Host) (now : Z)
    (net : Stock.t -> FetchOutcome) (order : Z -> list Stock.t -> list Stock.t)
    (rows : list (list Cell)) :
  (forall i batch, order i batch ≡ₚ batch) ->
  (forall s, s ∈ getUniqueStocks rows -> messagesNonEmpty host (net s)) ->
  let stocks := getUniqueStocks rows in
  let run := fetchAllPrices host now net order stocks in
  let view := showResults (closingPrices run) (errorMessages run) in
  (successCount view + naCount view = length stocks)%nat /\
  naCount view = errorCount view /\
  errorCount view = length (filter (fails host (getTargetDate host now) net) stocks).
Proof.
  intros Horder Hmsg stocks.
  exact (showResults_counts host now net order stocks Horder
           (getUniqueStocks_NoDup rows) Hmsg).
Qed.

Lemma showResults_after_run_witness :
  let net stock :=
    if bool_decide (Stock.rawCode stock = lit "7203")
    then FetchRejected (lit "Failed to fetch") else exampleResponse in
  let rows :=
    [ [mkCell (lit "20240311") true; mkCell (lit " 1301 ") true; mkCell (lit "Kyokuyo") true];
      [mkCell (lit "20240311") true; mkCell (lit "13") true];
      [mkCell (lit "20240312") true; mkCell (lit "7203") true; mkCell (lit "Toyota") true];
      [mkCell (lit "20240313") true; mkCell (lit "1301") true; mkCell (lit "again") true] ] in
  let stocks := getUniqueStocks rows in
  let run := fetchAllPrices tokyoHost 1710120600000 net lastFirst stocks in
  let view := showResults (closingPrices run) (errorMessages run) in
  (successCount view + naCount view = length stocks)%nat /\
  naCount view = errorCount view /\
  errorCount view
  = length (filter (fails tokyoHost (getTargetDate tokyoHost 1710120600000) net) stocks).
Proof.
  intros net rows.
  refine (showResults_after_run tokyoHost 1710120600000 net lastFirst rows
            (fun _ batch => Permutation_sym (Permutation_rev batch)) _).
  intros s Hs. unfold net, messagesNonEmpty.
  destruct (bool_decide _); repeat split; discriminate.
Defined.

(** X8.  The outcome of a run over the instruments of a sheet does not
    depend on the order in which the requests of a batch settle: the
    results are the same, the errors are the same up to their order, and
    as many instruments are counted as completed. *)
Theorem fetchAllPrices_order_independent (host : Host) (now : Z)
    (net : Stock.t -> FetchOutcome) (order1 order2 : Z -> list Stock.t -> list Stock.t)
    (rows : list (list Cell)) :
  (forall i batch, order1 i batch ≡ₚ batch) ->
  (forall i batch, order2 i batch ≡ₚ batch) ->
  let run1 := fetchAllPrices host now net order1 (getUniqueStocks rows) in
  let run2 := fetchAllPrices host now net order2 (getUniqueStocks rows) in
  closingPrices run1 = closingPrices run2 /\
  errorMessages run1 ≡ₚ errorMessages run2 /\
  completed run1 = completed run2.
Proof.
  intros H1 H2.
  exact (fetchAllPrices_orders host now net order1 order2 (getUniqueStocks rows)
           H1 H2 (getUniqueStocks_NoDup rows)).
Qed.

Lemma fetchAllPrices_order_independent_witness :
  let rows :=
    [ [mkCell (lit "20240311") true; mkCell (lit " 1301 ") true; mkCell (lit "Kyokuyo") true];
      [mkCell (lit "20240312") true; mkCell (lit "7203") true; mkCell (lit "Toyota") true] ] in
  let run1 := fetchAllPrices tokyoHost 1710120600000 http500 inOrder (getUniqueStocks rows) in
  let run2 := fetchAllPrices tokyoHost 1710120600000 http500 lastFirst (getUniqueStocks rows) in
  closingPrices run1 = closingPrices run2 /\
  errorMessages run1 ≡ₚ errorMessages run2 /\
  completed run1 = completed run2.
Proof.
  intros rows.
  exact (fetchAllPrices_order_independent tokyoHost 1710120600000 http500
           inOrder lastFirst rows
           (fun _ batch => Permutation_refl batch)
           (fun _ batch => Permutation_sym (Permutation_rev batch))).
Defined.

(** X9.  A click on the fetch button with a sheet on the page and no
    run under way is never ignored.  It ends in the alert exactly when no
    row of the sheet has a code [toTicker] accepts; otherwise the map of
    the run has exactly the accepted codes of the rows as keys, and the
    result under a code is the one of the request for the first four code
    units of the code followed by ".T", made for the instrument of the
    first row with that code. *)
Theorem onFetchClick_fetches_valid_codes (host : Host) (now : Z)
    (net : Stock.t -> FetchOutcome) (order : Z -> list Stock.t -> list Stock.t)
    (data : XlsData) :
  (forall i batch, order i batch ≡ₚ batch) ->
  let cells := cellsOf (rows data) in
  let hasValid code :=
    exists j row, cells !! j = Some row /\ rowCode row = Some code /\ validCode code in
  match onFetchClick host now net order (Some data) false with
  | Ignored => False
  | NoValidCode => forall code, ~ hasValid code
  | Fetched run =>
      (exists code, hasValid code) /\
      (forall code, is_Some (closingPrices run !! code) <-> hasValid code) /\
      (forall code result, closingPrices run !! code = Some result ->
         exists stock,
           fromFirstRow cells stock /\ Stock.rawCode stock = code /\
           Stock.ticker stock = Some (take 4 code ++ lit ".T") /\
           result = fetchClosingPrice host (Stock.ticker stock)
                      (getTargetDate host now) (net stock))
  end.
Proof.
  intros Horder cells hasValid. unfold onFetchClick. fold cells.
  destruct (visitRow_invariant cells) as (Hnd & Hval & Hall). cbv zeta in *.
  unfold getUniqueStocks. set (seen := foldl visitRow [] cells) in *.
  assert (Hcodes : Stock.rawCode <$> seen.*2 = seen.*1).
  { apply getUniqueStocks_codes. intros key stock Hin.
    destruct (Hval key stock Hin) as [Hkey _]. exact Hkey. }
  assert (Hkeys : forall code, code ∈ seen.*1 <-> hasValid code).
  { intros code. split.
    - intros Hin. apply list_elem_of_fmap in Hin as ([key stock] & -> & Hin).
      cbn [fst]. destruct (Hval key stock Hin) as (Hkey & Hvalid & _ & Hfirst).
      destruct Hfirst as (i & row & Hi & Hcode & _). exists i, row.
      rewrite <- Hkey in Hcode. auto.
    - intros (j & row & Hj & Hcode & Hvalid). eapply Hall; eassumption. }
  destruct (length seen.*2 =? 0)%nat eqn:Elen.
  - apply Nat.eqb_eq in Elen. intros code Hcode. apply Hkeys in Hcode.
    rewrite <- Hcodes in Hcode. destruct (seen.*2); [|discriminate].
    inversion Hcode.
  - apply Nat.eqb_neq in Elen.
    destruct (fetchAllPrices_final host now net order seen.*2 Horder)
      as (settled & Hperm & -> & _).
    refine (conj _ (conj _ _)).
    + destruct seen as [|[key stock] seen']; [contradiction Elen; reflexivity|].
      exists key. apply Hkeys. left.
    + intros code. rewrite foldl_store_is_Some, lookup_empty, Hperm, Hcodes, Hkeys.
      split; [intros [[x Hx]|Hv]; [discriminate|exact Hv]|auto].
    + intros code result Hlookup.
      apply foldl_store_lookup in Hlookup as [Hlookup|(stock & Hin & Hcode & ->)].
      { rewrite lookup_empty in Hlookup. discriminate. }
      rewrite Hperm in Hin. apply list_elem_of_fmap in Hin as ([key stock'] & -> & Hin).
      cbn [snd] in *. destruct (Hval key stock' Hin) as (Hkey & _ & Hticker & Hfirst).
      exists stock'. subst code. rewrite Hkey in Hticker.
      refine (conj Hfirst (conj eq_refl (conj Hticker _))). reflexivity.
Qed.

Lemma onFetchClick_fetches_valid_codes_witness :
  let data :=
    mkXlsData []
      [ [Value.mk (mkCell (lit "20240311") true) false;
         Value.mk (mkCell (lit " 1301 ") true) false;
         Value.mk (mkCell (lit "Kyokuyo") true) false];
        [Value.mk (mkCell (lit "20240311") true) false;
         Value.mk (mkCell (lit "13") true) false];
        [Value.mk (mkCell (lit "20240312") true) false;
         Value.mk (mkCell (lit "7203") true) false;
         Value.mk (mkCell (lit "undefined") false) true] ] in
  let cells := cellsOf (rows data) in
  let hasValid code :=
    exists j row, cells !! j = Some row /\ rowCode row = Some code /\ validCode code in
  match onFetchClick tokyoHost 1710120600000 http500 lastFirst (Some data) false with
  | Ignored => False
  | NoValidCode => forall code, ~ hasValid code
  | Fetched run =>
      (exists code, hasValid code) /\
      (forall code, is_Some (closingPrices run !! code) <-> hasValid code) /\
      (forall code result, closingPrices run !! code = Some result ->
         exists stock,
           fromFirstRow cells stock /\ Stock.rawCode stock = code /\
           Stock.ticker stock = Some (take 4 code ++ lit ".T") /\
           result = fetchClosingPrice tokyoHost (Stock.ticker stock)
                      (getTargetDate tokyoHost 1710120600000) (http500 stock))
  end.
Proof.
  intros data.
  exact (onFetchClick_fetches_valid_codes tokyoHost 1710120600000 http500 lastFirst data
           (fun _ batch => Permutation_sym (Permutation_rev batch))).
Defined.

(** ** The look-back comparisons *)

(** The lookup returns what [findClosest_spec] asks for. *)
Lemma findClosestPrice_scans (timestamps : list Z) (closes : list (option Q))
    (target : Z) :
  findClosest_spec timestamps closes target
    (findClosestPrice timestamps closes target).
Proof.
  unfold findClosestPrice. rewrite scanBefore_scanBy, scanNearest_scanBy.
  pose proof (scanBy_scanned (keyBefore target) timestamps closes timestamps 0
                (mkBest (-1) Infinity) eq_refl (scanned_start _ _ _)) as H1.
  set (st1 := scanBy (keyBefore target) closes 0 timestamps (mkBest (-1) Infinity)) in *.
  destruct H1 as [(Hi & Hd & Hall)|(k & t & c & d & Hi & Hk & Hobs & Hkey & Hd & Hmin)].
  - (* nothing at or before the target: the second scan decides *)
    rewrite Hi. simpl.
    assert (Hafter : forall j t' c', observation timestamps closes j t' c' -> target < t').
    { intros j t' c' Hobs. pose proof Hobs as [Ht' _]. apply lookup_lt_Some in Ht'.
      specialize (Hall j t' c' Ht' Hobs). unfold keyBefore in Hall.
      destruct (0 <=? target - t') eqn:E; [discriminate|]. apply Z.leb_gt in E. lia. }
    assert (Hst1 : st1 = mkBest (-1) Infinity) by (destruct st1; simpl in *; congruence).
    pose proof (scanBy_scanned (keyNearest target) timestamps closes timestamps 0
                  st1 eq_refl) as H2.
    rewrite Hst1 in H2 at 1. specialize (H2 (scanned_start _ _ _)).
    set (st2 := scanBy (keyNearest target) closes 0 timestamps st1) in *.
    destruct H2 as [(Hi2 & Hd2 & Hall2)|(k & t & c & d & Hi2 & Hk & Hobs & Hkey & Hd2 & Hmin)].
    + rewrite Hi2. simpl. right. right. split; [|reflexivity].
      intros j t' c' Hobs. pose proof Hobs as [Ht' _]. apply lookup_lt_Some in Ht'.
      specialize (Hall2 j t' c' Ht' Hobs). discriminate.
    + rewrite Hi2. replace (0 <=? Z.of_nat k) with true by (symmetry; apply Z.leb_le; lia).
      rewrite Nat2Z.id. right. left. split; [exact Hafter|].
      exists k, t, c. split; [exact Hobs|]. split.
      * apply closeAt_Some. apply Hobs.
      * intros j t' c' Hobs'. pose proof Hobs' as [Ht' _]. apply lookup_lt_Some in Ht'.
        unfold keyNearest in Hkey. injection Hkey as <-.
        apply (Hmin j t' c' _ Ht' Hobs' eq_refl).
  - (* the first scan found the latest observation at or before the target *)
    rewrite Hi. replace (Z.of_nat k =? -1) with false by (symmetry; apply Z.eqb_neq; lia).
    rewrite Hi. replace (0 <=? Z.of_nat k) with true by (symmetry; apply Z.leb_le; lia).
    rewrite Nat2Z.id. left. exists k, t, c.
    unfold keyBefore in Hkey. destruct (0 <=? target - t) eqn:E; [|discriminate].
    apply Z.leb_le in E. injection Hkey as <-.
    split; [exact Hobs|]. split; [lia|]. split; [apply closeAt_Some; apply Hobs|].
    intros j t' c' Hobs' Hle. pose proof Hobs' as [Ht' _]. apply lookup_lt_Some in Ht'.
    apply (Hmin j t' c' (target - t') Ht' Hobs'). unfold keyBefore.
    replace (0 <=? target - t') with true by (symmetry; apply Z.leb_le; lia).
    reflexivity.
Qed.

(** Looking back from the timestamp of an observation, the lookup finds
    an observation no later than it: the latest one at or before the
    target, or, all of them being after the target, the earliest. *)
Lemma findClosestPrice_lookback timestamps closes (anchorTs back : Z) :
  0 <= back ->
  (exists j c, observation timestamps closes j anchorTs c) ->
  let target := anchorTs - back in
  exists j t c,
    observation timestamps closes j t c /\
    findClosestPrice timestamps closes target = Some c /\
    t <= anchorTs /\
    ((t <= target /\
      forall j' t' c', observation timestamps closes j' t' c' -> t' <= target -> t' <= t)
     \/ (target < t /\
         forall j' t' c', observation timestamps closes j' t' c' -> t <= t')).
Proof.
  intros Hback (ja & ca & Hanchor) target.
  destruct (findClosestPrice_scans timestamps closes target)
    as [(i & t & c & Hobs & Hle & Hr & Hmin)
       |[(Hafter & i & t & c & Hobs & Hr & Hmin)|(Hnone & _)]].
  - exists i, t, c. refine (conj Hobs (conj Hr (conj _ _))); [subst target; lia|].
    left. split; [exact Hle|]. intros j' t' c' Hobs' Hle'.
    destruct (Hmin j' t' c' Hobs' Hle') as [H|[H _]]; lia.
  - assert (Hearliest : forall j' t' c', observation timestamps closes j' t' c' -> t <= t').
    { intros j' t' c' Hobs'. pose proof (Hafter _ _ _ Hobs). pose proof (Hafter _ _ _ Hobs').
      destruct (Hmin j' t' c' Hobs') as [H1|[H1 _]]; lia. }
    exists i, t, c. refine (conj Hobs (conj Hr (conj _ _))).
    + exact (Hearliest _ _ _ Hanchor).
    + right. split; [exact (Hafter _ _ _ Hobs)|exact Hearliest].
  - exfalso. exact (Hnone _ _ _ Hanchor).
Qed.

Lemma calcChangeRate_None (c p : Q) :
  calcChangeRate (Some c) (Some p) = None <-> (p == 0)%Q.
Proof.
  unfold calcChangeRate. destruct (Qeq_bool p 0) eqn:E.
  - apply Qeq_bool_iff in E. split; [intros _; exact E|reflexivity].
  - split; [discriminate|]. intros H. apply Qeq_bool_iff in H. congruence.
Qed.

(** X10.  For a ticker the resolver makes a request for and a response
    whose series is not empty, each of the four look-back comparisons
    (7, 14, 30 and 180 days) is the change of the anchor's close against
    the close of an observation of the response that is no later than the
    anchor: the latest one at or before the anchor's timestamp less that
    many days, or, every observation being later than that, the earliest
    one.  So the comparison has a reference whenever there is a price, and
    it is [null] only where the reference close is 0. *)
Theorem fetchClosingPrice_lookbacks (host : Host) (ticker : option JSString)
    (targetDateStr : JSString) (status : Z) (timestamps : list Z)
    (closes : list (option Q)) (more : list (option ChartResult)) :
  usableTicker ticker ->
  buildTradingDays timestamps closes <> [] ->
  let series := buildTradingDays timestamps closes in
  let result :=
    fetchClosingPrice host ticker targetDateStr
      (chartResponse status timestamps closes more) in
  exists (i : nat) (anchor : TradingDay.t),
    anchor_at series (targetTimestamp host targetDateStr) i /\
    series !! i = Some anchor /\
    forall days change, (days, change) ∈ lookbacks result ->
      let target := TradingDay.ts anchor - days * 86400 in
      exists j t c,
        observation timestamps closes j t c /\
        t <= TradingDay.ts anchor /\
        change = calcChangeRate (Some (TradingDay.close anchor)) (Some c) /\
        (change = None <-> (c == 0)%Q) /\
        ((t <= target /\
          forall j' t' c', observation timestamps closes j' t' c' ->
            t' <= target -> t' <= t)
         \/ (target < t /\
             forall j' t' c', observation timestamps closes j' t' c' -> t <= t')).
Proof.
  intros Hticker Hne series result. subst result.
  rewrite (fetchClosingPrice_chartResponse _ _ _ _ _ _ _ Hticker Hne).
  destruct (resolveSeries_anchor host timestamps closes series
              (targetTimestamp host targetDateStr) Hne) as (i & anchor & Hanchor & Ha & Hres).
  fold series. rewrite Hres. exists i, anchor.
  split; [exact Hanchor|]. split; [exact Ha|].
  assert (Hobs : exists j c, observation timestamps closes j (TradingDay.ts anchor) c).
  { apply list_elem_of_lookup_2 in Ha. unfold series, buildTradingDays in Ha.
    rewrite sortByTs_Permutation in Ha.
    rewrite (collectTradingDays_valid closes timestamps 0 timestamps eq_refl) in Ha.
    apply validObservations_observation in Ha as [j Hj]. eauto. }
  assert (Hone : forall days, 0 <= days ->
            let target := TradingDay.ts anchor - days * 86400 in
            exists j t c,
              observation timestamps closes j t c /\
              t <= TradingDay.ts anchor /\
              calcChangeRate (Some (TradingDay.close anchor))
                (findClosestPrice timestamps closes target)
              = calcChangeRate (Some (TradingDay.close anchor)) (Some c) /\
              (calcChangeRate (Some (TradingDay.close anchor))
                 (findClosestPrice timestamps closes target) = None <-> (c == 0)%Q) /\
              ((t <= target /\
                forall j' t' c', observation timestamps closes j' t' c' ->
                  t' <= target -> t' <= t)
               \/ (target < t /\
                   forall j' t' c', observation timestamps closes j' t' c' -> t <= t'))).
  { intros days Hdays target.
    destruct (findClosestPrice_lookback timestamps closes (TradingDay.ts anchor)
                (days * 86400) ltac:(lia) Hobs) as (j & t & c & Hj & Hr & Hle & Hwhich).
    exists j, t, c. fold target in Hr, Hwhich. rewrite Hr.
    refine (conj Hj (conj Hle (conj eq_refl (conj _ Hwhich)))).
    apply calcChangeRate_None. }
  intros days change Hin. unfold lookbacks in Hin.
  cbn [PriceResult.change7d PriceResult.change14d PriceResult.change30d
       PriceResult.change180d] in Hin.
  repeat (apply elem_of_cons in Hin as [Hin|Hin];
          [injection Hin as -> ->; apply Hone; lia|]).
  inversion Hin.
Qed.

Lemma fetchClosingPrice_lookbacks_witness :
  let timestamps := [1709251200; 1709856000; 1710115200] in
  let closes := [Some 100%Q; Some 0%Q; Some 110%Q] in
  let series := buildTradingDays timestamps closes in
  let result :=
    fetchClosingPrice tokyoHost (Some (lit "1301.T")) (lit "20240311")
      (chartResponse 200 timestamps closes []) in
  exists (i : nat) (anchor : TradingDay.t),
    anchor_at series (targetTimestamp tokyoHost (lit "20240311")) i /\
    series !! i = Some anchor /\
    forall days change, (days, change) ∈ lookbacks result ->
      let target := TradingDay.ts anchor - days * 86400 in
      exists j t c,
        observation timestamps closes j t c /\
        t <= TradingDay.ts anchor /\
        change = calcChangeRate (Some (TradingDay.close anchor)) (Some c) /\
        (change = None <-> (c == 0)%Q) /\
        ((t <= target /\
          forall j' t' c', observation timestamps closes j' t' c' ->
            t' <= target -> t' <= t)
         \/ (target < t /\
             forall j' t' c', observation timestamps closes j' t' c' -> t <= t')).
Proof.
  intros timestamps closes.
  refine (fetchClosingPrice_lookbacks tokyoHost (Some (lit "1301.T")) (lit "20240311")
            200 timestamps closes [] _ _).
  - split; reflexivity.
  - vm_compute. discriminate.
Defined.

(** ** The tickers of a sheet *)

(** A string without surrogate code units is well formed. *)
Lemma wellFormedUTF16_no_surrogates (s : JSString) :
  forallb (fun c => negb (isHighSurrogate c) && negb (isLowSurrogate c)) s = true ->
  wellFormedUTF16 s = true.
Proof.
  induction s as [|c s IH]; [reflexivity|]. cbn [forallb wellFormedUTF16].
  intros H. apply andb_prop in H as [Hc Hs]. apply andb_prop in Hc as [Hh Hl].
  apply negb_true_iff in Hh, Hl. rewrite Hh, Hl. exact (IH Hs).
Qed.

Lemma isAlnum_no_surrogate (c : N) :
  isAlnum c = true -> negb (isHighSurrogate c) && negb (isLowSurrogate c) = true.
Proof.
  unfold isAlnum, isHighSurrogate, isLowSurrogate. intros H.
  assert (Hc : (c <= 122)%N).
  { repeat match goal with
           | H : (_ || _)%bool = true |- _ => apply orb_prop in H as [H|H]
           | H : (_ && _)%bool = true |- _ => apply andb_prop in H as [? H]
           | H : (_ <=? _)%N = true |- _ => apply N.leb_le in H
           end; lia. }
  replace (55296 <=? c)%N with false by (symmetry; apply N.leb_gt; lia).
  replace (56320 <=? c)%N with false by (symmetry; apply N.leb_gt; lia).
  reflexivity.
Qed.

(** X11.  The request is made for every instrument [getUniqueStocks]
    returns: its ticker is a non-empty string [encodeURIComponent]
    accepts, so the result of the resolver is what the request comes to,
    and neither the refusal of an invalid ticker nor a URI error takes
    its place. *)
Theorem getUniqueStocks_tickers_requested (host : Host) (targetDateStr : JSString)
    (net : FetchOutcome) (rows : list (list Cell)) (stock : Stock.t) :
  stock ∈ getUniqueStocks rows ->
  usableTicker (Stock.ticker stock) /\
  fetchClosingPrice host (Stock.ticker stock) targetDateStr net =
  match tryFetch host targetDateStr net with
  | Normal result => result
  | Throw message => withError nullResult message
  end.
Proof.
  intros Hin. destruct (visitRow_invariant rows) as (_ & Hval & _). cbv zeta in Hval.
  unfold getUniqueStocks in Hin.
  apply list_elem_of_fmap in Hin as ([key stock'] & -> & Hin). cbn [snd].
  destruct (Hval key stock' Hin) as (_ & [Hlen Halnum] & Hticker & _).
  assert (Husable : usableTicker (Stock.ticker stock')).
  { rewrite Hticker. split.
    - destruct (take 4 key) eqn:E; [|reflexivity].
      apply (f_equal length) in E. rewrite length_take in E. cbn [length] in E. lia.
    - cbn [default id]. apply wellFormedUTF16_no_surrogates.
      rewrite forallb_app. apply andb_true_intro. split; [|reflexivity].
      apply forallb_forall. intros c Hc. apply isAlnum_no_surrogate.
      rewrite forallb_forall in Halnum. exact (Halnum c Hc). }
  split; [exact Husable|].
  destruct Husable as [Htruthy Hwf].
  unfold fetchClosingPrice, tryBlock, encodeURIComponent.
  rewrite Htruthy, Hwf. reflexivity.
Qed.

Lemma getUniqueStocks_tickers_requested_witness :
  let rows :=
    [ [mkCell (lit "20240311") true; mkCell (lit " 1301 ") true; mkCell (lit "Kyokuyo") true] ] in
  let stock := Stock.mk (Some (lit "1301.T")) (lit "1301") (lit "Kyokuyo") in
  usableTicker (Stock.ticker stock) /\
  fetchClosingPrice tokyoHost (Stock.ticker stock) (lit "20240311") exampleResponse =
  match tryFetch tokyoHost (lit "20240311") exampleResponse with
  | Normal result => result
  | Throw message => withError nullResult message
  end.
Proof.
  intros rows stock.
  refine (getUniqueStocks_tickers_requested tokyoHost (lit "20240311") exampleResponse
            rows stock _).
  vm_compute. left.
Defined.

(** ** The CSV export reads back *)

Lemma csvReady_comma st v fields records :
  csvReady st v fields records ->
  csvStep st 44 = mkCsvState Plain [] (fields ++ [v]) records.
Proof.
  destruct st as [mode cur fs rs]. unfold csvReady, csvPending.
  cbn [csvMode csvField csvFields csvRecords].
  intros (Hmode & <- & <- & <-). destruct mode; [| | congruence |]; reflexivity.
Qed.

Lemma csvReady_newline st v fields records :
  csvReady st v fields records ->
  foldl csvStep st [13; 10]%N = mkCsvState Plain [] [] (records ++ [fields ++ [v]]).
Proof.
  destruct st as [mode cur fs rs]. unfold csvReady, csvPending.
  cbn [csvMode csvField csvFields csvRecords].
  intros (Hmode & <- & <- & <-). destruct mode; [| | congruence |]; reflexivity.
Qed.

Lemma csvReady_finish st v fields records :
  csvReady st v fields records -> csvFinish st = records ++ [fields ++ [v]].
Proof.
  unfold csvReady, csvFinish. intros (_ & -> & -> & ->). reflexivity.
Qed.

(** A text without comma, quotation mark and line feed is read as it
    stands. *)
Lemma csvStep_plain (v : JSString) : forall st,
  csvMode st = Plain \/ csvMode st = PlainCR ->
  needsQuotes v = false ->
  csvReady (foldl csvStep st v) (csvPending st ++ v) (csvFields st) (csvRecords st) /\
  (csvMode (foldl csvStep st v) = Plain \/ csvMode (foldl csvStep st v) = PlainCR).
Proof.
  induction v as [|c v IH]; intros st Hmode Hplain.
  - cbn [foldl]. rewrite app_nil_r. split; [|exact Hmode].
    split; [destruct Hmode as [-> | ->]; discriminate|]. auto.
  - unfold needsQuotes, includes in Hplain. cbn [existsb] in Hplain.
    apply orb_false_elim in Hplain as [Hplain H10].
    apply orb_false_elim in Hplain as [H44 H34].
    apply orb_false_elim in H10 as [Hc10 H10].
    apply orb_false_elim in H44 as [Hc44 H44].
    apply orb_false_elim in H34 as [Hc34 H34].
    assert (Hv : needsQuotes v = false).
    { unfold needsQuotes, includes. rewrite H44, H34, H10. reflexivity. }
    rewrite N.eqb_sym in Hc10, Hc44, Hc34.
    cbn [foldl].
    assert (Hstep : (csvMode (csvStep st c) = Plain \/ csvMode (csvStep st c) = PlainCR) /\
                    csvPending (csvStep st c) = csvPending st ++ [c] /\
                    csvFields (csvStep st c) = csvFields st /\
                    csvRecords (csvStep st c) = csvRecords st).
    { destruct st as [mode cur fs rs]. cbn [csvMode] in Hmode.
      destruct Hmode as [-> | ->]; unfold csvStep, stepPlain; rewrite ?Hc10, Hc34, Hc44;
        destruct (c =? 13)%N eqn:E13; try (apply N.eqb_eq in E13; subst c);
        unfold csvPending; cbn [csvMode csvField csvFields csvRecords];
        rewrite <- ?app_assoc; auto. }
    destruct Hstep as (Hmode' & Hpend & Hf & Hr).
    destruct (IH (csvStep st c) Hmode' Hv) as [Hready Hm].
    split; [|exact Hm].
    rewrite Hpend, Hf, Hr, <- app_assoc in Hready. exact Hready.
Qed.

(** Inside quotes a doubled quotation mark is read as one. *)
Lemma csvStep_quoted (v : JSString) : forall cur fields records,
  foldl csvStep (mkCsvState Quoted cur fields records) (doubleQuotes v)
  = mkCsvState Quoted (cur ++ v) fields records.
Proof.
  induction v as [|c v IH]; intros cur fields records.
  - cbn. rewrite app_nil_r. reflexivity.
  - unfold doubleQuotes. cbn [flat_map]. fold (doubleQuotes v).
    rewrite foldl_app. destruct (c =? 34)%N eqn:E.
    + apply N.eqb_eq in E. subst c. cbn [foldl csvStep N.eqb Pos.eqb].
      rewrite IH, <- app_assoc. reflexivity.
    + cbn [foldl csvStep]. rewrite E, IH, <- app_assoc. reflexivity.
Qed.

(** The reader takes a cell for the text it was made of. *)
Lemma csvStep_cell (v : JSString) fields records :
  csvReady (foldl csvStep (mkCsvState Plain [] fields records) (csvCell v))
    v fields records.
Proof.
  unfold csvCell. destruct (needsQuotes v) eqn:E.
  - unfold quot. rewrite !foldl_app. cbn [foldl csvStep stepPlain N.eqb Pos.eqb].
    rewrite csvStep_quoted. cbn [foldl csvStep app N.eqb Pos.eqb].
    unfold csvReady, csvPending. cbn. repeat split. discriminate.
  - destruct (csvStep_plain v (mkCsvState Plain [] fields records)) as [H _];
      [left; reflexivity|exact E|]. exact H.
Qed.

Lemma join_cons (sep x y : JSString) (a : list JSString) :
  join sep (x :: y :: a) = x ++ sep ++ join sep (y :: a).
Proof. unfold join. cbn [flat_map]. rewrite <- app_assoc. reflexivity. Qed.

(** The reader takes a line of cells for the texts they were made of. *)
Lemma csvStep_line (vs : list JSString) : forall v fields records,
  exists last,
    csvReady (foldl csvStep (mkCsvState Plain [] fields records)
                (join (lit ",") (csvCell <$> v :: vs)))
      last (removelast (fields ++ v :: vs)) records /\
    removelast (fields ++ v :: vs) ++ [last] = fields ++ v :: vs.
Proof.
  induction vs as [|v' vs IH]; intros v fields records.
  - exists v. cbn [fmap list_fmap join flat_map]. rewrite app_nil_r.
    rewrite removelast_last. split; [apply csvStep_cell|reflexivity].
  - rewrite !fmap_cons, join_cons, !foldl_app.
    change (foldl csvStep ?st (lit ",")) with (csvStep st 44%N).
    rewrite (csvReady_comma _ _ _ _ (csvStep_cell v fields records)).
    destruct (IH v' (fields ++ [v]) records) as (last & Hready & Hlast).
    rewrite <- !app_assoc in Hready, Hlast. cbn [app] in Hready, Hlast.
    exists last. split; [exact Hready|exact Hlast].
Qed.

(** The reader takes lines joined by CR LF for the records they were
    made of. *)
Lemma csvStep_lines (ls : list (list JSString)) : forall l records,
  Forall (fun l => l <> []) (l :: ls) ->
  csvFinish (foldl csvStep (mkCsvState Plain [] [] records)
               (join [13; 10]%N ((fun vs => join (lit ",") (csvCell <$> vs)) <$> l :: ls)))
  = records ++ l :: ls.
Proof.
  set (line := fun vs => join (lit ",") (csvCell <$> vs)).
  induction ls as [|l' ls IH]; intros l records Hne.
  - destruct l as [|v vs]; [apply Forall_cons in Hne as [H _]; congruence|].
    change (line <$> [v :: vs]) with [line (v :: vs)].
    unfold join at 1. cbn [flat_map]. rewrite app_nil_r. unfold line.
    destruct (csvStep_line vs v [] records) as (last & Hready & Hlast).
    rewrite (csvReady_finish _ _ _ _ Hready), Hlast. reflexivity.
  - apply Forall_cons in Hne as [Hl Hne].
    destruct l as [|v vs]; [congruence|].
    rewrite !fmap_cons, join_cons, !foldl_app. unfold line at 1.
    destruct (csvStep_line vs v [] records) as (last & Hready & Hlast).
    rewrite (csvReady_newline _ _ _ _ Hready), Hlast. cbn [app].
    specialize (IH l' (records ++ [v :: vs]) Hne). rewrite fmap_cons in IH.
    rewrite IH, <- app_assoc. reflexivity.
Qed.

Lemma foldl_push {A B : Type} (g : A -> B) (l : list A) : forall acc,
  foldl (fun lines x => lines ++ [g x]) acc l = acc ++ map g l.
Proof.
  induction l as [|x l IH]; intros acc; cbn [foldl map].
  - rewrite app_nil_r. reflexivity.
  - rewrite IH, <- app_assoc. reflexivity.
Qed.

Lemma csvCell_plain (val : JSString) : needsQuotes val = false -> csvCell val = val.
Proof. intros H. unfold csvCell. rewrite H. reflexivity. Qed.

Section ExportReadsBack.
Variable inherited : JSString -> bool.
Variable String_of_number : Q -> JSString.
Variable toFixed2 : Q -> JSString.
Hypothesis String_of_number_plain : forall x, needsQuotes (String_of_number x) = false.
Hypothesis toFixed2_plain : forall x, needsQuotes (toFixed2 x) = false.

Lemma priceText_plain pd : csvCell (priceText String_of_number pd) = priceText String_of_number pd.
Proof.
  apply csvCell_plain. destruct pd as [r| |]; [|reflexivity..].
  unfold priceText. destruct (PriceResult.price r); [apply String_of_number_plain|reflexivity].
Qed.

Lemma changeText_plain pd key : csvCell (changeText toFixed2 pd key) = changeText toFixed2 pd key.
Proof.
  apply csvCell_plain. destruct pd as [r| |]; [|reflexivity..].
  unfold changeText. destruct (changeOf key r); [apply toFixed2_plain|reflexivity].
Qed.

(** The cells of a line are the cells of its texts: the numbers go in
    as they are. *)
Lemma csvCells_csvTexts prices row :
  csvCells inherited String_of_number toFixed2 prices row
  = csvCell <$> csvTexts inherited String_of_number toFixed2 prices row.
Proof.
  unfold csvCells, csvTexts. cbn [foldl].
  rewrite fmap_app, fmap_cons. cbn [map fmap list_fmap].
  rewrite priceText_plain, !changeText_plain, <- !app_assoc. reflexivity.
Qed.

End ExportReadsBack.

(** X12.  The text [generateOutputCSV] writes reads back as CSV, the
    renderings of numbers holding no comma, quotation mark or line feed:
    a record of the thirteen labels, then for every row of the sheet, in
    order, a record of thirteen fields, the seven texts of the row as
    they are shown (whatever commas, quotation marks and line breaks they
    hold), the price and the five changes. *)
Theorem generateOutputCSV_reads_back (inherited : JSString -> bool)
    (String_of_number toFixed2 : Q -> JSString) (data : XlsData)
    (prices : gmap JSString PriceResult.t) :
  (forall x, needsQuotes (String_of_number x) = false) ->
  (forall x, needsQuotes (toFixed2 x) = false) ->
  parseCSV (generateOutputCSV inherited String_of_number toFixed2 (Some data) prices)
  = (map Column.label DISPLAY_COLS ++ map ExtraColumn.label EXTRA_COLS)
    :: map (csvTexts inherited String_of_number toFixed2 prices) (rows data) /\
  Forall (fun record => length record = 13%nat)
    (parseCSV (generateOutputCSV inherited String_of_number toFixed2 (Some data) prices)).
Proof.
  intros Hnumber Hfixed.
  assert (Hread :
    parseCSV (generateOutputCSV inherited String_of_number toFixed2 (Some data) prices)
    = (map Column.label DISPLAY_COLS ++ map ExtraColumn.label EXTRA_COLS)
      :: map (csvTexts inherited String_of_number toFixed2 prices) (rows data)).
  { unfold generateOutputCSV, parseCSV. rewrite foldl_push. cbn [app].
    set (labels := map Column.label DISPLAY_COLS ++ map ExtraColumn.label EXTRA_COLS).
    set (texts := csvTexts inherited String_of_number toFixed2 prices).
    set (line := fun vs => join (lit ",") (csvCell <$> vs)).
    assert (Hlines : join (lit ",") labels
                     :: map (fun row => join (lit ",")
                               (csvCells inherited String_of_number toFixed2 prices row))
                          (rows data)
                     = line <$> labels :: map texts (rows data)).
    { rewrite fmap_cons. f_equal.
      change (line <$> map texts (rows data)) with (map line (map texts (rows data))).
      rewrite map_map. apply map_ext. intros row. unfold line, texts.
      rewrite (csvCells_csvTexts inherited String_of_number toFixed2 Hnumber Hfixed).
      reflexivity. }
    rewrite Hlines. unfold line.
    apply (csvStep_lines (map texts (rows data)) labels []).
    apply Forall_cons. split; [discriminate|].
    apply Forall_forall. intros record Hin. apply list_elem_of_In in Hin.
    apply in_map_iff in Hin as (row & <- & _). discriminate. }
  split; [exact Hread|]. rewrite Hread.
  apply Forall_cons. split; [reflexivity|].
  apply Forall_forall. intros record Hin. apply list_elem_of_In in Hin.
  apply in_map_iff in Hin as (row & <- & _). reflexivity.
Qed.

Lemma generateOutputCSV_reads_back_witness :
  let data :=
    mkXlsData []
      [ [Value.mk (mkCell (lit "20240311") true) false;
         Value.mk (mkCell (lit "1301") true) false;
         Value.mk (mkCell (lit "Kyokuyo, Ltd.") true) false] ] in
  let text :=
    generateOutputCSV (fun _ => false) (fun _ => lit "1234.5") (fun _ => lit "1.25")
      (Some data) ∅ in
  parseCSV text
  = (map Column.label DISPLAY_COLS ++ map ExtraColumn.label EXTRA_COLS)
    :: map (csvTexts (fun _ => false) (fun _ => lit "1234.5") (fun _ => lit "1.25") ∅)
         (rows data) /\
  Forall (fun record => length record = 13%nat) (parseCSV text).
Proof.
  intros data.
  exact (generateOutputCSV_reads_back (fun _ => false) (fun _ => lit "1234.5")
           (fun _ => lit "1.25") data ∅ (fun _ => eq_refl) (fun _ => eq_refl)).
Defined.

(** A name with a comma goes into quotes and comes back whole. *)
Example generateOutputCSV_example :
  let data :=
    mkXlsData []
      [ [Value.mk (mkCell (lit "20240311") true) false;
         Value.mk (mkCell (lit "1301") true) false;
         Value.mk (mkCell (lit "Kyokuyo, Ltd.") true) false] ] in
  drop 79 (generateOutputCSV (fun _ => false) (fun _ => lit "1234.5") (fun _ => lit "1.25")
             (Some data) ∅)
  = [13; 10]%N ++ lit "2024/03/11,1301," ++ quot ++ lit "Kyokuyo, Ltd." ++ quot
    ++ lit ",,,,,N/A,N/A,N/A,N/A,N/A,N/A".
Proof. vm_compute. reflexivity. Qed.

(** ** The export after a run *)

(** What the map of results holds after a run over the instruments of a
    sheet. *)
Lemma fetchAllPrices_sheet host now net order (cells : list (list Cell)) :
  (forall i batch, order i batch ≡ₚ batch) ->
  let run := fetchAllPrices host now net order (getUniqueStocks cells) in
  (forall j row code, cells !! j = Some row -> rowCode row = Some code ->
     validCode code -> is_Some (closingPrices run !! code)) /\
  (forall code result, closingPrices run !! code = Some result ->
     validCode code /\
     exists stock,
       stock ∈ getUniqueStocks cells /\ fromFirstRow cells stock /\
       Stock.rawCode stock = code /\
       Stock.ticker stock = Some (take 4 code ++ lit ".T") /\
       result = fetchClosingPrice host (Stock.ticker stock)
                  (getTargetDate host now) (net stock)).
Proof.
  intros Horder run. subst run.
  destruct (visitRow_invariant cells) as (Hnd & Hval & Hall). cbv zeta in *.
  destruct (fetchAllPrices_final host now net order (getUniqueStocks cells) Horder)
    as (settled & Hperm & -> & _).
  unfold getUniqueStocks in *. set (seen := foldl visitRow [] cells) in *.
  assert (Hcodes : Stock.rawCode <$> seen.*2 = seen.*1).
  { apply getUniqueStocks_codes. intros key stock Hin.
    destruct (Hval key stock Hin) as [Hkey _]. exact Hkey. }
  split.
  - intros j row code Hj Hcode Hvalid.
    rewrite foldl_store_is_Some, Hperm, Hcodes. right. eapply Hall; eassumption.
  - intros code result Hlookup.
    apply foldl_store_lookup in Hlookup as [Hlookup|(stock & Hin & Hcode & ->)].
    { rewrite lookup_empty in Hlookup. discriminate. }
    rewrite Hperm in Hin. pose proof Hin as Hstock.
    apply list_elem_of_fmap in Hin as ([key stock'] & -> & Hin).
    cbn [snd] in *. destruct (Hval key stock' Hin) as (Hkey & Hvalid & Hticker & Hfirst).
    subst code key. split; [exact Hvalid|].
    exists stock'.
    refine (conj Hstock (conj Hfirst (conj eq_refl (conj Hticker _)))). reflexivity.
Qed.

(** A row whose code the export reads as one [toTicker] accepts has its
    code cell truthy, and [getUniqueStocks] reads the same code. *)
Lemma codeOf_rowCode (row : list Value.t) :
  validCode (codeOf row) -> rowCode (Value.cell <$> row) = Some (codeOf row).
Proof.
  unfold codeOf, rowCode, cellAt. intros [Hlen _].
  destruct ((Value.cell <$> row) !! COL_CODE) as [c|] eqn:E; cbn [default id] in *.
  - apply lookup_lt_Some in E.
    replace (length (Value.cell <$> row) <=? COL_CODE)%nat with false
      by (symmetry; apply Nat.leb_gt; exact E).
    destruct (cellTruthy c); [reflexivity|]. cbn in Hlen. lia.
  - cbn in Hlen. lia.
Qed.

(** X13.  After a click on the fetch button has run over the sheet, the
    export finds for a row of the sheet the result of its instrument
    exactly when the code of the row, read as the export reads it, is one
    [toTicker] accepts: the result is then the one of the request for the
    first four code units of the code followed by ".T".  For any other
    row the object holds no result: the price column shows N/A, or the
    word undefined where the code names a member the object inherits, and
    the changes show N/A.  Where the click ended in the alert, no row has
    such a code. *)
Theorem generateOutputCSV_after_run (inherited : JSString -> bool)
    (String_of_number toFixed2 : Q -> JSString) (host : Host) (now : Z)
    (net : Stock.t -> FetchOutcome) (order : Z -> list Stock.t -> list Stock.t)
    (data : XlsData) (row : list Value.t) :
  (forall i batch, order i batch ≡ₚ batch) ->
  row ∈ rows data ->
  match onFetchClick host now net order (Some data) false with
  | Ignored => False
  | NoValidCode => ~ validCode (codeOf row)
  | Fetched run =>
      let pd := getProperty inherited (closingPrices run) (codeOf row) in
      (validCode (codeOf row) ->
       exists stock,
         stock ∈ getUniqueStocks (cellsOf (rows data)) /\
         Stock.rawCode stock = codeOf row /\
         Stock.ticker stock = Some (take 4 (codeOf row) ++ lit ".T") /\
         pd = Own (fetchClosingPrice host (Stock.ticker stock)
                     (getTargetDate host now) (net stock))) /\
      (~ validCode (codeOf row) ->
       pd = (if inherited (codeOf row) then Inherited else Undefined) /\
       priceText String_of_number pd
       = (if inherited (codeOf row) then lit "undefined" else lit "N/A") /\
       forall key, changeText toFixed2 pd key = lit "N/A")
  end.
Proof.
  intros Horder Hrow. unfold onFetchClick.
  set (cells := cellsOf (rows data)).
  destruct (fetchAllPrices_sheet host now net order cells Horder) as [Hkeys Hvalues].
  cbv zeta in Hkeys, Hvalues.
  assert (Hcells : exists j, cells !! j = Some (Value.cell <$> row)).
  { apply list_elem_of_lookup_1. unfold cells, cellsOf.
    apply list_elem_of_In, in_map, list_elem_of_In. exact Hrow. }
  destruct Hcells as [j Hj].
  destruct (length (getUniqueStocks cells) =? 0)%nat eqn:Elen.
  - apply Nat.eqb_eq in Elen. intros Hvalid.
    destruct (Hkeys j _ _ Hj (codeOf_rowCode row Hvalid) Hvalid) as [result Hresult].
    destruct (Hvalues _ _ Hresult) as (_ & stock & Hin & _).
    destruct (getUniqueStocks cells); [inversion Hin|discriminate].
  - cbv zeta. unfold getProperty. split.
    + intros Hvalid.
      destruct (Hkeys j _ _ Hj (codeOf_rowCode row Hvalid) Hvalid) as [result Hresult].
      destruct (Hvalues _ _ Hresult) as (_ & stock & Hin & _ & Hcode & Hticker & ->).
      exists stock. rewrite Hresult. auto.
    + intros Hinvalid.
      destruct (closingPrices (fetchAllPrices host now net order (getUniqueStocks cells))
                  !! codeOf row) as [result|] eqn:Hresult.
      { destruct (Hvalues _ _ Hresult) as [Hvalid _]. contradiction. }
      destruct (inherited (codeOf row)); repeat split.
Qed.

Lemma generateOutputCSV_after_run_witness :
  let data :=
    mkXlsData []
      [ [Value.mk (mkCell (lit "20240311") true) false;
         Value.mk (mkCell (lit " 1301 ") true) false;
         Value.mk (mkCell (lit "Kyokuyo") true) false];
        [Value.mk (mkCell (lit "20240311") true) false;
         Value.mk (mkCell (lit "__proto__") true) false] ] in
  let row :=
    [Value.mk (mkCell (lit "20240311") true) false;
     Value.mk (mkCell (lit "__proto__") true) false] in
  let inherited := fun name => bool_decide (name = lit "__proto__") in
  match onFetchClick tokyoHost 1710120600000 (fun _ => exampleResponse) inOrder
          (Some data) false with
  | Ignored => False
  | NoValidCode => ~ validCode (codeOf row)
  | Fetched run =>
      let pd := getProperty inherited (closingPrices run) (codeOf row) in
      (validCode (codeOf row) ->
       exists stock,
         stock ∈ getUniqueStocks (cellsOf (rows data)) /\
         Stock.rawCode stock = codeOf row /\
         Stock.ticker stock = Some (take 4 (codeOf row) ++ lit ".T") /\
         pd = Own (fetchClosingPrice tokyoHost (Stock.ticker stock)
                     (getTargetDate tokyoHost 1710120600000) exampleResponse)) /\
      (~ validCode (codeOf row) ->
       pd = (if inherited (codeOf row) then Inherited else Undefined) /\
       priceText (fun _ => lit "1234.5") pd
       = (if inherited (codeOf row) then lit "undefined" else lit "N/A") /\
       forall key, changeText (fun _ => lit "1.25") pd key = lit "N/A")
  end.
Proof.
  intros data row inherited.
  refine (generateOutputCSV_after_run inherited (fun _ => lit "1234.5")
            (fun _ => lit "1.25") tokyoHost 1710120600000 (fun _ => exampleResponse)
            inOrder data row (fun _ batch => Permutation_refl batch) _).
  right. left.
Defined.

(** ** Tickers *)

Lemma isAlnum_not_space (c : N) : isAlnum c = true -> isWhiteSpace c = false.
Proof.
  unfold isAlnum. intros H.
  assert (Hc : (48 <= c <= 122)%N).
  { repeat match goal with
           | H : (_ || _)%bool = true |- _ => apply orb_prop in H as [H|H]
           | H : (_ && _)%bool = true |- _ => apply andb_prop in H as [? H]
           | H : (_ <=? _)%N = true |- _ => apply N.leb_le in H
           end; lia. }
  unfold isWhiteSpace.
  replace (c <=? 13)%N with false by (symmetry; apply N.leb_gt; lia).
  replace (8192 <=? c)%N with false by (symmetry; apply N.leb_gt; lia).
  replace (c =? 32)%N with false by (symmetry; apply N.eqb_neq; lia).
  replace (c =? 160)%N with false by (symmetry; apply N.eqb_neq; lia).
  replace (c =? 5760)%N with false by (symmetry; apply N.eqb_neq; lia).
  replace (c =? 8232)%N with false by (symmetry; apply N.eqb_neq; lia).
  replace (c =? 8233)%N with false by (symmetry; apply N.eqb_neq; lia).
  replace (c =? 8239)%N with false by (symmetry; apply N.eqb_neq; lia).
  replace (c =? 8287)%N with false by (symmetry; apply N.eqb_neq; lia).
  replace (c =? 12288)%N with false by (symmetry; apply N.eqb_neq; lia).
  replace (c =? 65279)%N with false by (symmetry; apply N.eqb_neq; lia).
  rewrite !andb_false_r. reflexivity.
Qed.

(** What [toTicker] returns when it returns a ticker. *)
Lemma toTicker_Some (rawCode t : JSString) :
  toTicker rawCode = Some t ->
  t = take 4 (trim rawCode) ++ lit ".T" /\
  length (take 4 (trim rawCode)) = 4%nat /\
  forallb isAlnum (take 4 (trim rawCode)) = true.
Proof.
  unfold toTicker, substring0.
  destruct (length (trim rawCode) <? 4)%nat eqn:Elen; [discriminate|].
  apply Nat.ltb_ge in Elen.
  destruct (test_alnum (take 4 (trim rawCode))) eqn:Etest; [|discriminate].
  cbn [negb]. intros H. injection H as <-. split; [reflexivity|].
  split; [rewrite length_take; lia|].
  unfold test_alnum in Etest. destruct (take 4 (trim rawCode)); [discriminate|exact Etest].
Qed.

(** X14.  A ticker [toTicker] returns is the first four code units of
    the trimmed code followed by ".T", six code units in all, and
    [toTicker] leaves it as it is: of a ticker it makes the same ticker. *)
Theorem toTicker_fixed_point (rawCode t : JSString) :
  toTicker rawCode = Some t ->
  t = take 4 (trim rawCode) ++ lit ".T" /\ length t = 6%nat /\ toTicker t = Some t.
Proof.
  intros H. destruct (toTicker_Some rawCode t H) as (Ht & Hlen & Halnum).
  set (a := take 4 (trim rawCode)) in *. clearbody a.
  split; [exact Ht|]. subst t.
  split; [rewrite length_app, Hlen; reflexivity|].
  do 5 (destruct a as [|? a]; try discriminate).
  cbn [forallb] in Halnum.
  repeat match goal with
         | H : (_ && _)%bool = true |- _ => apply andb_prop in H as [? H]
         end.
  assert (Htrim : forall c1 c2 c3 c4 : N,
            isAlnum c1 = true ->
            trim ([c1; c2; c3; c4] ++ lit ".T") = [c1; c2; c3; c4] ++ lit ".T").
  { intros c1 c2 c3 c4 Hc1. unfold trim, trimEnd. cbn [app trimStart lit].
    rewrite (isAlnum_not_space c1 Hc1). reflexivity. }
  unfold toTicker, substring0. rewrite Htrim by assumption.
  cbn [app length Nat.ltb Nat.leb take test_alnum forallb negb].
  repeat match goal with
         | H : isAlnum _ = true |- _ => rewrite H; clear H
         end.
  reflexivity.
Qed.

Lemma toTicker_fixed_point_witness :
  lit "1301.T" = take 4 (trim (lit " 1301 ")) ++ lit ".T" /\
  length (lit "1301.T") = 6%nat /\ toTicker (lit "1301.T") = Some (lit "1301.T").
Proof. exact (toTicker_fixed_point (lit " 1301 ") (lit "1301.T") eq_refl). Defined.

(** ** A response with one observation *)

(** No change against the same close. *)
Lemma calcChangeRate_same (c : Q) :
  if Qeq_bool c 0 then calcChangeRate (Some c) (Some c) = None
  else num_eq (calcChangeRate (Some c) (Some c)) (Some 0%Q).
Proof.
  unfold calcChangeRate. destruct (Qeq_bool c 0) eqn:E; [reflexivity|].
  cbn [num_eq].
  assert (Hc : ~ (c == 0)%Q) by (intros H; apply Qeq_bool_iff in H; congruence).
  assert (Hzero : ((c - c) / c * 10000 == 0)%Q) by (field; exact Hc).
  rewrite (Math_round_proper _ _ Hzero). reflexivity.
Qed.

(** X15.  Where the response holds a single observation with a present
    close, that observation is the anchor whatever the reference date,
    [change1d] is [null], and each of the four look-back comparisons sets
    the close against itself: it is 0, or [null] where the close is 0. *)
Theorem fetchClosingPrice_single_observation (host : Host) (ticker : option JSString)
    (targetDateStr : JSString) (status : Z) (timestamps : list Z)
    (closes : list (option Q)) (more : list (option ChartResult)) (d : TradingDay.t) :
  usableTicker ticker ->
  validObservations timestamps closes = [d] ->
  let result :=
    fetchClosingPrice host ticker targetDateStr
      (chartResponse status timestamps closes more) in
  PriceResult.price result
  = Some (inject_Z (Math_round (TradingDay.close d * 10)) / 10)%Q /\
  PriceResult.actualDate result = Some (formatActualDate host (TradingDay.ts d)) /\
  PriceResult.change1d result = None /\
  forall days change, (days, change) ∈ lookbacks result ->
    if Qeq_bool (TradingDay.close d) 0 then change = None
    else num_eq change (Some 0%Q).
Proof.
  intros Hticker Hone result. subst result.
  assert (Hseries : buildTradingDays timestamps closes = [d]).
  { unfold buildTradingDays.
    rewrite (collectTradingDays_valid closes timestamps 0 timestamps eq_refl).
    fold (validObservations timestamps closes). rewrite Hone. reflexivity. }
  assert (Hne : buildTradingDays timestamps closes <> []) by (rewrite Hseries; discriminate).
  rewrite (fetchClosingPrice_chartResponse _ _ _ _ _ _ _ Hticker Hne).
  destruct (resolveSeries_anchor host timestamps closes (buildTradingDays timestamps closes)
              (targetTimestamp host targetDateStr) Hne) as (i & anchor & _ & Ha & Hres).
  rewrite Hres. rewrite Hseries in Ha.
  destruct i as [|i]; [|destruct i; discriminate]. injection Ha as <-.
  cbn [PriceResult.price PriceResult.actualDate PriceResult.change1d].
  refine (conj eq_refl (conj eq_refl (conj eq_refl _))).
  assert (Hobs : exists j c, observation timestamps closes j (TradingDay.ts d) c).
  { destruct (proj1 (validObservations_observation timestamps closes d)) as [j Hj];
      [rewrite Hone; left|]. eauto. }
  assert (Honly : forall days, 0 <= days ->
            findClosestPrice timestamps closes (TradingDay.ts d - days * 86400)
            = Some (TradingDay.close d)).
  { intros days Hdays.
    destruct (findClosestPrice_lookback timestamps closes (TradingDay.ts d)
                (days * 86400) ltac:(lia) Hobs) as (j & t & c & Hj & Hr & _).
    rewrite Hr. f_equal.
    assert (Hin : TradingDay.mk t c ∈ validObservations timestamps closes)
      by (apply validObservations_observation; exists j; exact Hj).
    rewrite Hone in Hin. apply list_elem_of_singleton in Hin. rewrite <- Hin. reflexivity. }
  intros days change Hin. unfold lookbacks in Hin.
  cbn [PriceResult.change7d PriceResult.change14d PriceResult.change30d
       PriceResult.change180d] in Hin.
  repeat (apply elem_of_cons in Hin as [Hin|Hin];
          [injection Hin as -> ->; rewrite Honly by lia; apply calcChangeRate_same|]).
  inversion Hin.
Qed.

Lemma fetchClosingPrice_single_observation_witness :
  let result :=
    fetchClosingPrice tokyoHost (Some (lit "1301.T")) (lit "20240311")
      (chartResponse 200 [1710115200; 1710201600] [Some 1234.56%Q; None] []) in
  PriceResult.price result
  = Some (inject_Z (Math_round (1234.56 * 10)) / 10)%Q /\
  PriceResult.actualDate result = Some (formatActualDate tokyoHost 1710115200) /\
  PriceResult.change1d result = None /\
  forall days change, (days, change) ∈ lookbacks result ->
    if Qeq_bool 1234.56 0 then change = None
    else num_eq change (Some 0%Q).
Proof.
  exact (fetchClosingPrice_single_observation tokyoHost (Some (lit "1301.T"))
           (lit "20240311") 200 [1710115200; 1710201600] [Some 1234.56%Q; None] []
           (TradingDay.mk 1710115200 1234.56%Q) (conj eq_refl eq_refl) eq_refl).
Defined.

(** ** File sizes *)

Lemma Math_round_tenths (a : Z) (b : positive) :
  Math_round ((a # b) * 10) = (20 * a + Z.pos b) / (2 * Z.pos b).
Proof.
  unfold Math_round, Qfloor, Qplus, Qmult. cbn [Qnum Qden inject_Z].
  f_equal; lia.
Qed.

(** X16.  A size from 1024 bytes up to 1048575 is shown in KB by the
    tenths nearest to it, from 1.0 up to 1024.0, the last for the sizes
    from 1048525 on; a size from 1048576 bytes on is shown in MB, from 1.0
    up.  The figure shown is within a twentieth of the unit of the size. *)
Theorem formatFileSize_tenths (bytes : Z) :
  1024 <= bytes ->
  let scale := if bytes <? 1048576 then 1024 else 1048576 in
  exists n,
    formatFileSize bytes
    = String_of_Z (n / 10) ++ lit "." ++ String_of_Z (n mod 10)
      ++ (if bytes <? 1048576 then lit " KB" else lit " MB") /\
    10 <= n /\
    Z.abs (scale * n - 10 * bytes) * 2 <= scale /\
    (bytes < 1048576 -> n <= 10240 /\ (n = 10240 <-> 1048525 <= bytes)).
Proof.
  intros Hbytes scale. unfold formatFileSize, toFixed1.
  replace (bytes <? 1024) with false by (symmetry; apply Z.ltb_ge; exact Hbytes).
  subst scale. destruct (bytes <? 1048576) eqn:E.
  - apply Z.ltb_lt in E. rewrite Math_round_tenths.
    exists ((20 * bytes + 1024) / 2048). rewrite <- !app_assoc.
    split; [reflexivity|].
    repeat split; try (Z.div_mod_to_equations; lia).
  - apply Z.ltb_ge in E. rewrite Math_round_tenths.
    exists ((20 * bytes + 1048576) / 2097152). rewrite <- !app_assoc.
    split; [reflexivity|].
    repeat split; try (Z.div_mod_to_equations; lia).
Qed.

Lemma formatFileSize_tenths_witness :
  exists n,
    formatFileSize 1048575
    = String_of_Z (n / 10) ++ lit "." ++ String_of_Z (n mod 10) ++ lit " KB" /\
    10 <= n /\
    Z.abs (1024 * n - 10 * 1048575) * 2 <= 1024 /\
    (1048575 < 1048576 -> n <= 10240 /\ (n = 10240 <-> 1048525 <= 1048575)).
Proof. exact (formatFileSize_tenths 1048575 ltac:(lia)). Defined.

(** The last sizes below 1 MiB are shown as 1024.0 KB. *)
Example formatFileSize_examples :
  formatFileSize 1023 = lit "1023 B" /\
  formatFileSize 1024 = lit "1.0 KB" /\
  formatFileSize 1588 = lit "1.6 KB" /\
  formatFileSize 1048575 = lit "1024.0 KB" /\
  formatFileSize 1048576 = lit "1.0 MB".
Proof. repeat split. Qed.

(** ** Sorting the table *)

Section SortWith.
Context {A : Type}.
Variable compare : A -> A -> Q.
Variable R : A -> A -> Prop.
Hypothesis compare_R : forall x y, Qle_bool (compare x y) 0 = true <-> R x y.
Hypothesis R_total : forall x y, R x y \/ R y x.
Hypothesis R_trans : forall x y z, R x y -> R y z -> R x z.

Lemma insertWith_Permutation x l : insertWith compare x l ≡ₚ x :: l.
Proof.
  induction l as [|y l IH]; [reflexivity|]. cbn [insertWith].
  destruct (Qle_bool (compare x y) 0); [reflexivity|].
  rewrite IH. apply perm_swap.
Qed.

Lemma sortWith_Permutation l : sortWith compare l ≡ₚ l.
Proof.
  induction l as [|x l IH]; [reflexivity|]. cbn [sortWith].
  rewrite insertWith_Permutation, IH. reflexivity.
Qed.

Lemma insertWith_sorted x l :
  StronglySorted R l -> StronglySorted R (insertWith compare x l).
Proof.
  induction l as [|y l IH]; intros Hs; cbn [insertWith].
  - repeat constructor.
  - apply StronglySorted_inv in Hs as [Hs Hy].
    destruct (Qle_bool (compare x y) 0) eqn:E.
    + apply compare_R in E. constructor; [constructor; assumption|].
      constructor; [exact E|]. eapply Forall_impl; [exact Hy|].
      intros z Hz. exact (R_trans _ _ _ E Hz).
    + assert (Hyx : R y x).
      { destruct (R_total x y) as [H|H]; [|exact H].
        apply compare_R in H. congruence. }
      constructor; [apply IH; exact Hs|].
      rewrite insertWith_Permutation. constructor; assumption.
Qed.

Lemma sortWith_sorted l : StronglySorted R (sortWith compare l).
Proof.
  induction l as [|x l IH]; [constructor|]. cbn [sortWith].
  apply insertWith_sorted. exact IH.
Qed.

End SortWith.

(** Where every comparison gives 0 the order is left as it is. *)
Lemma sortWith_alike {A : Type} (l : list A) : sortWith (fun _ _ => 0%Q) l = l.
Proof.
  induction l as [|x l IH]; [reflexivity|]. cbn [sortWith]. rewrite IH.
  destruct l; reflexivity.
Qed.

Lemma compareExtra_extraOrder sortAsc valA valB :
  Qle_bool (compareExtra sortAsc valA valB) 0 = true <-> extraOrder sortAsc valA valB.
Proof.
  rewrite Qle_bool_iff.
  destruct valA as [a|], valB as [b|]; cbn [compareExtra extraOrder].
  - destruct sortAsc; split; intros H; lra.
  - split; [auto|]. intros _. discriminate.
  - split; [|tauto]. intros H. apply H. reflexivity.
  - split; [auto|]. intros _. discriminate.
Qed.

Lemma extraOrder_total sortAsc valA valB :
  extraOrder sortAsc valA valB \/ extraOrder sortAsc valB valA.
Proof.
  destruct valA as [a|], valB as [b|]; cbn [extraOrder]; auto.
  destruct sortAsc; destruct (Qlt_le_dec a b) as [H|H]; auto using Qlt_le_weak.
Qed.

Lemma extraOrder_trans sortAsc valA valB valC :
  extraOrder sortAsc valA valB -> extraOrder sortAsc valB valC ->
  extraOrder sortAsc valA valC.
Proof.
  destruct valA as [a|], valB as [b|], valC as [c|]; cbn [extraOrder];
    try tauto.
  destruct sortAsc; intros H1 H2; lra.
Qed.

(** X17.  Sorted by a column of results, the table holds the rows it
    held, the rows with a value in the order of the values, rising or
    falling as the page asks, and the rows without a value after them in
    either direction.  With no results on the page, or no column sorted
    by, the rows stay as they are. *)
Theorem getSortedRows_extra (inherited : JSString -> bool)
    (prices : gmap JSString PriceResult.t)
    (textSort : nat -> bool -> list (list Value.t) -> list (list Value.t))
    (sortColIdx : Z) (sortAsc : bool) (rows : list (list Value.t))
    (col : ExtraColumn.t) :
  EXTRA_COLS !! Z.to_nat (sortColIdx - 7) = Some col ->
  7 <= sortColIdx ->
  let value := extraValue inherited prices (ExtraColumn.key col) in
  let sorted := getSortedRows inherited prices textSort sortColIdx sortAsc rows true in
  sorted ≡ₚ rows /\
  (forall i j a b, (i < j)%nat -> sorted !! i = Some a -> sorted !! j = Some b ->
     extraOrder sortAsc (value a) (value b)) /\
  getSortedRows inherited prices textSort sortColIdx sortAsc rows false = rows /\
  getSortedRows inherited prices textSort (-1) sortAsc rows true = rows.
Proof.
  intros Hcol Hidx value sorted. subst sorted. unfold getSortedRows.
  replace (sortColIdx <? 0) with false by (symmetry; apply Z.ltb_ge; lia).
  change (Z.of_nat (length DISPLAY_COLS)) with 7.
  replace (sortColIdx <? 7) with false by (symmetry; apply Z.ltb_ge; lia).
  cbv zeta. rewrite Hcol. fold value.
  set (compare := fun a b => compareExtra sortAsc (value a) (value b)).
  set (R := fun a b => extraOrder sortAsc (value a) (value b)).
  refine (conj _ (conj _ (conj _ _))).
  - apply sortWith_Permutation.
  - intros i j a b Hij Hi Hj.
    assert (Hsorted : StronglySorted R (sortWith compare rows)).
    { apply sortWith_sorted.
      - intros x y. apply compareExtra_extraOrder.
      - intros x y. apply extraOrder_total.
      - intros x y z. apply extraOrder_trans. }
    revert i j a b Hij Hi Hj. induction Hsorted as [|x l Hl IH Hx]; intros i j a b Hij Hi Hj.
    + discriminate.
    + destruct j as [|j]; [lia|]. cbn in Hj. destruct i as [|i].
      * injection Hi as <-. rewrite Forall_forall in Hx. apply Hx.
        eapply list_elem_of_lookup_2. exact Hj.
      * cbn in Hi. apply (IH i j); [lia|assumption|assumption].
  - apply sortWith_alike.
  - reflexivity.
Qed.

Lemma getSortedRows_extra_witness :
  let rows :=
    [ [Value.mk (mkCell (lit "20240311") true) false;
       Value.mk (mkCell (lit "1301") true) false];
      [Value.mk (mkCell (lit "20240311") true) false;
       Value.mk (mkCell (lit "7203") true) false] ] in
  let prices : gmap JSString PriceResult.t := <[lit "7203" := exampleResult]> ∅ in
  let value := extraValue (fun _ => false) prices key_price in
  let sorted := getSortedRows (fun _ => false) prices (fun _ _ l => l) 7 false rows true in
  sorted ≡ₚ rows /\
  (forall i j a b, (i < j)%nat -> sorted !! i = Some a -> sorted !! j = Some b ->
     extraOrder false (value a) (value b)) /\
  getSortedRows (fun _ => false) prices (fun _ _ l => l) 7 false rows false = rows /\
  getSortedRows (fun _ => false) prices (fun _ _ l => l) (-1) false rows true = rows.
Proof.
  intros rows prices.
  exact (getSortedRows_extra (fun _ => false) prices (fun _ _ l => l) 7 false rows
           (ExtraColumn.mk key_price [0x7D42; 0x5024]%N) eq_refl ltac:(lia)).
Defined.
